(** * ArbiterOS legal confidant: the compliance-verification engine

    A shallow embedding of the deterministic part of the repository:

    - [services/legalEngine.ts]: the law library, the rule checkers and the
      form generator;
    - [LegalPackages/auditor.ts.tsx]: the policy predicate
      [isNecessaryEnabled] over a run history;
    - [services/geminiService.ts]: the [toolsPolicyState] flag of the tool
      loop and [getAllowedTools], the branch [draft_verified_form] of the
      loop, and the critic [runArbiterAudit];
    - [contexts/AuditContext.tsx]: the audit ledger ([generateHash],
      [addEntry], [clearLog]);
    - [components/AuditLog.tsx] and [components/ImageGen.tsx]: the figures
      they draw from the ledger;
    - [components/LegalAdvisor.tsx]: the staged files and the rendering of
      an answer with its signature boxes and citation cards.

    Conventions.  A JavaScript string is a [string] whose characters are
    UTF-16 code units below 256, so [String.length] is [.length] and
    [nat_of_ascii] is [charCodeAt].  A JavaScript number is an IEEE 754
    binary64 value, [spec_float] with precision 53 and [emax] 1024.  An
    [async] function returns a [completion]: the promise is fulfilled
    ([Normal]) or rejected ([Throw]); [await] is the bind of that monad.
    Readings of the clock and of [Math.random] are explicit arguments. *)

From Stdlib Require Import String Ascii List ZArith NArith Bool Lia.
From Stdlib Require Import SpecFloat.
Import ListNotations.

Local Open Scope list_scope.
Local Open Scope string_scope.

(* ===================================================================== *)
(** * The JavaScript runtime, as far as the engine uses it               *)
(* ===================================================================== *)

Module JS.

(** ** Completions *)

Inductive error : Type :=
| SyntaxError
| TypeError.

Inductive completion (A : Type) : Type :=
| Normal (a : A)
| Throw (e : error).

Arguments Normal {A} a.
Arguments Throw {A} e.

Definition bind {A B : Type} (c : completion A) (k : A -> completion B)
  : completion B :=
  match c with
  | Normal a => k a
  | Throw e => Throw e
  end.

(** ** Strings *)

(** The double quote, the section sign and the line feed, which the sources
    write inside their literals. *)
Definition dquote : string := String "034"%char "".
Definition sect : string := String "167"%char "".
Definition nl : string := String "010"%char "".

(** [String.prototype.toLowerCase] on code units below 256: the Basic
    Latin capitals and the Latin-1 capitals (U+00C0 to U+00DE without the
    multiplication sign U+00D7) move up by 32, all else stays. *)
Definition lower_unit (c : ascii) : ascii :=
  let n := nat_of_ascii c in
  if ((65 <=? n)%nat && (n <=? 90)%nat)
     || ((192 <=? n)%nat && (n <=? 222)%nat && negb (n =? 215)%nat)
  then ascii_of_nat (n + 32)
  else c.

Fixpoint toLowerCase (s : string) : string :=
  match s with
  | EmptyString => EmptyString
  | String c s' => String (lower_unit c) (toLowerCase s')
  end.

(** [s.includes(t)]: [t] occurs in [s] as a contiguous substring. *)
Fixpoint includes (s t : string) : bool :=
  String.prefix t s ||
  match s with
  | EmptyString => false
  | String _ s' => includes s' t
  end.

(** [arr.includes(x)] on an array of strings. *)
Definition array_includes (arr : list string) (x : string) : bool :=
  existsb (String.eqb x) arr.

(** [arr.join(sep)]. *)
Definition join (sep : string) (arr : list string) : string :=
  String.concat sep arr.

(** [s.split('T')[0]]: the characters before the first [T]. *)
Fixpoint before_T (s : string) : string :=
  match s with
  | EmptyString => EmptyString
  | String c s' => if Ascii.eqb c "T"%char then EmptyString
                   else String c (before_T s')
  end.

(** [s.substr(start, len)]. *)
Definition substr (start len : nat) (s : string) : string :=
  String.substring start len s.

(** [s.padStart(n, '0')]. *)
Fixpoint zeros (n : nat) : string :=
  match n with
  | O => EmptyString
  | S n' => String "0"%char (zeros n')
  end.

Definition padStart0 (n : nat) (s : string) : string :=
  zeros (n - String.length s) ++ s.

(** A property that may be absent.  [x || d] on a string property takes
    [d] when the property is missing or is the empty string. *)
Definition truthy (s : string) : bool := negb (String.eqb s "").

Definition or_default (x : option string) (d : string) : string :=
  match x with
  | Some s => if truthy s then s else d
  | None => d
  end.

(** ** Numbers *)

Definition number : Type := spec_float.

Definition prec : Z := 53.
Definition emax : Z := 1024.

Definition of_Z (z : Z) : number := binary_normalize prec emax z 0 false.

(** The literal [0.5]. *)
Definition half : number := S754_finite false 4503599627370496 (-53).

Definition div (x y : number) : number := SFdiv prec emax x y.
Definition mul (x y : number) : number := SFmul prec emax x y.
Definition leb (x y : number) : bool := SFleb x y.
Definition ltb (x y : number) : bool := SFltb x y.
Definition eqb (x y : number) : bool := SFeqb x y.

(** A number is falsy when it is a zero or NaN. *)
Definition number_truthy (x : number) : bool :=
  match x with
  | S754_zero _ | S754_nan => false
  | _ => true
  end.

(** The conversions of a number to text are taken from the host:
    [x.toFixed(1)] and the [ToString] of a template literal. *)
Class NumberFormat : Type := {
  toFixed1 : number -> string;
  numberToString : number -> string
}.

(** [await c] then [k]. *)
Notation "'let*' x ':=' c 'in' k" :=
  (bind c (fun x => k))
  (at level 10, x pattern, c at level 100, k at level 200).

End JS.

Import JS.

(* ===================================================================== *)
(** * services/legalEngine.ts                                            *)
(* ===================================================================== *)

Module LegalEngine.

Record ValidationStep : Type := {
  rule_id : string;
  passed : bool;
  details : string;
  evidence_source : string;
  timestamp : string;
  generated_content : option string
}.

(** ** The law library *)

Record Statute : Type := {
  title : string;
  source : string;
  text : string
}.

(** The object literal [LAW_LIBRARY], its keys in insertion order (the order
    of [Object.keys]). *)
Definition LAW_LIBRARY : list (string * Statute) :=
  [ ("UCC 3-104",
     {| title := "Negotiable Instrument";
        source := "Uniform Commercial Code " ++ sect ++ " 3-104";
        text := "(a) ...means an unconditional promise or order to pay a fixed amount of money, with or without interest or other charges described in the promise or order, if it: (1) is payable to bearer or to order at the time it is issued or first comes into possession of a holder; (2) is payable on demand or at a definite time; and (3) does not state any other undertaking or instruction..." |});
    ("UCC 9-203",
     {| title := "Attachment and Enforceability of Security Interest";
        source := "Uniform Commercial Code " ++ sect ++ " 9-203";
        text := "(b) ...a security interest is enforceable against the debtor and third parties with respect to the collateral only if: (1) value has been given; (2) the debtor has rights in the collateral... and (3) one of the following conditions is met: (A) the debtor has authenticated a security agreement that provides a description of the collateral..." |});
    ("UCC 2-201",
     {| title := "Formal Requirements; Statute of Frauds";
        source := "Uniform Commercial Code " ++ sect ++ " 2-201";
        text := "(1) a contract for the sale of goods for the price of $500 or more is not enforceable by way of action or defense unless there is some writing sufficient to indicate that a contract for sale has been made between the parties and signed by the party against whom enforcement is sought..." |});
    ("FTC Credit Rule",
     {| title := "Unfair Credit Practices";
        source := "16 CFR " ++ sect ++ " 444.2";
        text := "(a) In connection with the extension of credit... it is an unfair act or practice... for a lender or retail installment seller... to take or receive from a consumer an obligation that: (1) Constitutes or contains a cognovit or confession of judgment (for other than purposes of executory process in the State of Louisiana)..." |}) ].

Record StatuteResult : Type := {
  found : bool;
  found_title : option string;
  found_text : option string;
  citation : option string
}.

(** The predicate of the [find]: the query contains the key or the key
    contains the query, both lowercased. *)
Definition key_matches (query k : string) : bool :=
  includes (toLowerCase query) (toLowerCase k)
  || includes (toLowerCase k) (toLowerCase query).

Definition consultStatute (query : string) : completion StatuteResult :=
  match find (fun kv => key_matches query (fst kv)) LAW_LIBRARY with
  | Some (_, st) =>
      Normal {| found := true;
                found_title := Some (title st);
                found_text := Some (text st);
                citation := Some (source st) |}
  | None =>
      Normal {| found := false;
                found_title := None;
                found_text := None;
                citation := None |}
  end.

(** ** The ordinary-expense checker *)

(** In the checkers and in the form generator, [now] is the reading
    [new Date().toISOString()]; a call that reads the clock more than once
    is given one reading for all. *)

Record VerifiableLawDatabaseClient : Type := {
  endpoint : string
}.

Record QueryResult : Type := {
  is_ordinary : bool;
  query_source : string
}.

Definition carpenter_items : list string :=
  [ "truck"; "hammer"; "saw"; "toolbox"; "work_boots" ].

Definition live_query (this : VerifiableLawDatabaseClient) (naics : string)
  : string :=
  "LIVE_QUERY: " ++ endpoint this ++ "/section/162a/precedent?naics=" ++ naics.

Definition query (this : VerifiableLawDatabaseClient) (naics expense : string)
  : completion QueryResult :=
  if String.eqb naics "238350"
     && array_includes carpenter_items (toLowerCase expense)
  then Normal {| is_ordinary := true; query_source := live_query this naics |}
  else Normal {| is_ordinary := false; query_source := live_query this naics |}.

Definition ircDatabase : VerifiableLawDatabaseClient :=
  {| endpoint := "https://api.law.gov/rac/irc" |}.

Definition verifyOrdinary (now : string)
  (naics_code expense_item_category : string) : completion ValidationStep :=
  let* r := query ircDatabase naics_code expense_item_category in
  Normal
    {| rule_id := "rule_is_ordinary";
       passed := is_ordinary r;
       details :=
         if is_ordinary r
         then "PASSED: '" ++ expense_item_category ++ "' is a verifiable "
              ++ dquote ++ "ordinary" ++ dquote
              ++ " expense under IRC Sec 162(a) for NAICS code "
              ++ naics_code ++ "."
         else "FAILED: '" ++ expense_item_category
              ++ "' is NOT a verifiable "
              ++ dquote ++ "ordinary" ++ dquote
              ++ " expense under IRC Sec 162(a) for NAICS code "
              ++ naics_code ++ ".";
       evidence_source := query_source r;
       timestamp := now;
       generated_content := None |}.

(** ** The necessity-ratio checker *)

Section Necessary.
Context {fmt : NumberFormat}.

Definition verifyNecessary (now : string)
  (expense_amount business_revenue : number) : completion ValidationStep :=
  let ratio := div expense_amount business_revenue in
  let is_necessary := leb ratio half in
  let source := "Business Logic (Ratio Analysis)" in
  Normal
    {| rule_id := "rule_is_necessary";
       passed := is_necessary;
       details :=
         if is_necessary
         then "PASSED: Expense-to-Revenue ratio is "
              ++ toFixed1 (mul ratio (of_Z 100))
              ++ "% (within 50% threshold)."
         else "FAILED: Expense-to-Revenue ratio is "
              ++ toFixed1 (mul ratio (of_Z 100))
              ++ "% (exceeds 50% threshold).";
       evidence_source := source;
       timestamp := now;
       generated_content := None |}.

End Necessary.

(** ** The negotiability checker (UCC 3-104) *)

Record Rules : Type := {
  rules_id : string;
  rules_name : string;
  requirements : list string
}.

Definition UCC_3_104_RULES : Rules :=
  {| rules_id := "UCC-3-104";
     rules_name := "Negotiable Instrument";
     requirements :=
       [ "Unconditional promise or order to pay";
         "Fixed amount of money";
         "Payable to bearer or to order";
         "Payable on demand or at a definite time";
         "No other undertaking or instruction" ] |}.

Inductive PromiseType : Type := conditional | unconditional.
Inductive AmountType : Type := fixed | variable.
Inductive PayableTo : Type := bearer | order | specific_person.
Inductive Timing : Type := demand | definite | indefinite.

Record InstrumentTerms : Type := {
  promise_type : PromiseType;
  amount_type : AmountType;
  currency : option string;
  payable_to : PayableTo;
  timing : Timing;
  other_undertakings : bool
}.

(** The five tests, each one the guard of its [failures.push]. *)
Definition promise_violated (terms : InstrumentTerms) : bool :=
  match promise_type terms with unconditional => false | _ => true end.

Definition amount_violated (terms : InstrumentTerms) : bool :=
  match amount_type terms with fixed => false | _ => true end.

Definition payee_violated (terms : InstrumentTerms) : bool :=
  match payable_to terms with specific_person => true | _ => false end.

Definition timing_violated (terms : InstrumentTerms) : bool :=
  match timing terms with indefinite => true | _ => false end.

Definition undertaking_violated (terms : InstrumentTerms) : bool :=
  other_undertakings terms.

Definition msg_promise : string :=
  "Must be an unconditional promise (UCC 3-104(a))".
Definition msg_amount : string :=
  "Must specify a fixed amount of money (UCC 3-104(a))".
Definition msg_payee : string :=
  "Must be payable to bearer or to order (UCC 3-104(a)(1))".
Definition msg_timing : string :=
  "Must be payable on demand or at a definite time (UCC 3-104(a)(2))".
Definition msg_undertaking : string :=
  "Must not state any other undertaking (UCC 3-104(a)(3))".

(** [if (c) failures.push(m)]. *)
Definition push_if (c : bool) (m : string) (failures : list string)
  : list string :=
  if c then (failures ++ [m])%list else failures.

(** The array [failures] after the five statements. *)
Definition collect_failures (terms : InstrumentTerms) : list string :=
  let failures := [] in
  let failures := push_if (promise_violated terms) msg_promise failures in
  let failures := push_if (amount_violated terms) msg_amount failures in
  let failures := push_if (payee_violated terms) msg_payee failures in
  let failures := push_if (timing_violated terms) msg_timing failures in
  push_if (undertaking_violated terms) msg_undertaking failures.

Definition verifyNegotiability (now : string) (terms : InstrumentTerms)
  : completion ValidationStep :=
  let* statute := consultStatute "UCC 3-104" in
  let failures := collect_failures terms in
  let passed := (List.length failures =? 0)%nat in
  Normal
    {| rule_id := "UCC_3_104";
       passed := passed;
       details :=
         if passed
         then "PASSED: Instrument meets all UCC 3-104 requirements for negotiability."
         else "FAILED: Non-negotiable. Violations: " ++ join ", " failures;
       evidence_source := or_default (citation statute) "UCC 3-104";
       timestamp := now;
       generated_content := None |}.

(** ** The form generator *)

(** The argument [data]: the fields of the [draft_verified_form] call that
    the templates read ([amount] is a number, the others are strings), each
    possibly absent.  [debtor], [secured_party] and [obligation] are read by
    the security agreement although the tool schema does not list them. *)
Record FormData : Type := {
  amount : option number;
  lender : option string;
  borrower : option string;
  seller : option string;
  buyer : option string;
  client : option string;
  contractor : option string;
  collateral : option string;
  goods_description : option string;
  services : option string;
  date : option string;
  state : option string;
  debtor : option string;
  secured_party : option string;
  obligation : option string
}.

(** [x ? .. : ..] on a property, and [`${x}`]. *)
Definition is_truthy (x : option string) : bool :=
  match x with
  | Some s => truthy s
  | None => false
  end.

Definition prop_text (x : option string) : string :=
  match x with
  | Some s => s
  | None => "undefined"
  end.

Record FormResult : Type := {
  markdown : string;
  validation : ValidationStep
}.

(** [data.collateral && data.collateral.length > 3]. *)
Definition hasCollateral (data : FormData) : bool :=
  match collateral data with
  | Some c => truthy c && (3 <? String.length c)%nat
  | None => false
  end.

Definition blocked_security_agreement : string :=
  "> **GENERATION BLOCKED**: UCC 9-203 violation. Security Agreement must reasonably identify the collateral.".

Definition blocked_promissory_note (check : ValidationStep) : string :=
  "> **GENERATION BLOCKED**: Protocol Violation." ++ nl ++ "> Reason: "
  ++ details check.

Section Forms.
Context {fmt : NumberFormat}.

(** [x || d] on the numeric property [amount], inside a template. *)
Definition num_or (x : option number) (d : string) : string :=
  match x with
  | Some n => if number_truthy n then numberToString n else d
  | None => d
  end.

Definition promissory_note_template (data : FormData) : string :=
  join nl
    [ "";
      "# PROMISSORY NOTE (UCC " ++ sect ++ " 3-104 Compliant)";
      "";
      "**Principal Amount:** $" ++ num_or (amount data) "___";
      "**Date:** " ++ or_default (date data) "On Demand";
      "";
      "FOR VALUE RECEIVED, the undersigned (" ++ dquote ++ "Borrower"
        ++ dquote ++ ") promises to pay to the order of **"
        ++ or_default (lender data) "___" ++ "** (" ++ dquote ++ "Lender"
        ++ dquote ++ ") the principal sum of **$"
        ++ num_or (amount data) "___" ++ "** USD.";
      "";
      "**1. PAYMENT.**";
      (if is_truthy (date data) then "Payment shall be made in full on "
        ++ prop_text (date data)
        ++ "." else "Payment shall be made immediately upon demand by Lender.");
      "";
      "**2. UNCONDITIONAL PROMISE.**";
      "This Note represents an unconditional promise to pay and is not subject to any other agreement.";
      "";
      "**3. GOVERNING LAW.**";
      "This Note shall be governed by the Uniform Commercial Code as adopted in the State of "
        ++ or_default (state data) "Delaware" ++ ".";
      "";
      "**4. WAIVERS.**";
      "Borrower waives presentment, demand, protest, and notice of dishonor.";
      "";
      "**5. EXECUTION.**";
      "The parties hereby execute this Note as of the date first written above.";
      "";
      "[SIGNATURE_FIELD:Borrower Signature]";
      "**" ++ or_default (borrower data) "Borrower" ++ "**";
      "";
      "[SIGNATURE_FIELD:Lender Signature]";
      "**" ++ or_default (lender data) "Lender" ++ "**";
      "" ].

Definition security_agreement_template (now : string) (data : FormData) : string :=
  join nl
    [ "";
      "# SECURITY AGREEMENT (UCC Article 9)";
      "";
      "This Security Agreement is entered into on **"
        ++ or_default (date data) (before_T now) ++ "** between **"
        ++ or_default (debtor data) "Debtor" ++ "** (" ++ dquote ++ "Debtor"
        ++ dquote ++ ") and **"
        ++ or_default (secured_party data) "Secured Party" ++ "** (" ++ dquote
        ++ "Secured Party" ++ dquote ++ ").";
      "";
      "**1. GRANT OF SECURITY INTEREST.**";
      "Debtor hereby grants to Secured Party a security interest in the property described below ("
        ++ dquote ++ "Collateral" ++ dquote
        ++ ") to secure the payment and performance of the obligation described as: "
        ++ or_default (obligation data) ("Promissory Note dated "
        ++ or_default (date data) "even date herewith") ++ ".";
      "";
      "**2. COLLATERAL DESCRIPTION.**";
      "The Collateral consists of the following:";
      "> " ++ prop_text (collateral data);
      "";
      "**3. PERFECTION.**";
      "Debtor authorizes Secured Party to file a financing statement (UCC-1) to perfect this Security Interest.";
      "";
      "**4. DEFAULT.**";
      "Upon default, Secured Party shall have all rights and remedies of a secured party under the Uniform Commercial Code of "
        ++ or_default (state data) "Delaware" ++ ".";
      "";
      "[SIGNATURE_FIELD:Debtor Authentication]";
      "**" ++ or_default (debtor data) "Debtor" ++ "**";
      "" ].

Definition bill_of_sale_template (now : string) (data : FormData) : string :=
  join nl
    [ "";
      "# BILL OF SALE (UCC Article 2)";
      "";
      "**Seller:** " ++ or_default (seller data) "___";
      "**Buyer:** " ++ or_default (buyer data) "___";
      "**Date:** " ++ or_default (date data) (before_T now);
      "**Consideration:** $" ++ num_or (amount data) "___";
      "";
      "FOR VALUE RECEIVED, Seller hereby sells, transfers, and conveys to Buyer the following goods (the "
        ++ dquote ++ "Goods" ++ dquote ++ "):";
      "";
      "**DESCRIPTION OF GOODS:**";
      or_default (goods_description data) "[Insert Description and Serial Numbers]";
      "";
      "**WARRANTIES:**";
      "Seller warrants that they have good and marketable title to the Goods, free of all liens and encumbrances. The Goods are sold "
        ++ dquote ++ "AS-IS" ++ dquote
        ++ " unless otherwise expressly stated.";
      "";
      "[SIGNATURE_FIELD:Seller]";
      "**" ++ or_default (seller data) "Seller" ++ "**";
      "";
      "[SIGNATURE_FIELD:Buyer]";
      "**" ++ or_default (buyer data) "Buyer" ++ "**";
      "" ].

Definition contractor_agreement_template (data : FormData) : string :=
  join nl
    [ "";
      "# INDEPENDENT CONTRACTOR AGREEMENT";
      "";
      "This Agreement is made between **" ++ or_default (client data) "Client"
        ++ "** and **" ++ or_default (contractor data) "Contractor" ++ "**.";
      "";
      "**1. SERVICES.**";
      "Contractor agrees to perform the following services:";
      or_default (services data) "[Describe Services]";
      "";
      "**2. INDEPENDENT CONTRACTOR STATUS.**";
      "Contractor is an independent contractor, not an employee. Contractor is responsible for all taxes (including Self-Employment Tax). Client shall not withhold taxes or provide benefits.";
      "";
      "**3. WORK FOR HIRE.**";
      "All deliverables created under this Agreement shall be considered "
        ++ dquote ++ "Work Made for Hire" ++ dquote
        ++ " and shall be the sole property of the Client.";
      "";
      "**4. CONFIDENTIALITY.**";
      "Contractor acknowledges access to confidential information and agrees not to disclose such information to third parties.";
      "";
      "[SIGNATURE_FIELD:Contractor]";
      "**" ++ or_default (contractor data) "Contractor" ++ "**";
      "";
      "[SIGNATURE_FIELD:Client]";
      "**" ++ or_default (client data) "Client" ++ "**";
      "" ].

Definition generateVerifiedForm (now : string) (type : string)
  (data : FormData) : completion FormResult :=
  let markdown := "" in
  let validation :=
    {| rule_id := "FORM_GEN"; passed := false;
       details := "Unknown form type"; evidence_source := "System";
       timestamp := now; generated_content := None |} in
  if String.eqb type "promissory_note_ucc" then
    let* check :=
      verifyNegotiability now
        {| promise_type := unconditional;
           amount_type := fixed;
           currency := Some "USD";
           payable_to := order;
           timing := if is_truthy (date data) then definite else demand;
           other_undertakings := false |} in
    if passed check
    then Normal {| markdown := promissory_note_template data;
                   validation := check |}
    else Normal {| markdown := blocked_promissory_note check;
                   validation := check |}
  else if String.eqb type "security_agreement_ucc" then
    if hasCollateral data then
      let* law := consultStatute "UCC 9-203" in
      Normal
        {| markdown := security_agreement_template now data;
           validation :=
             {| rule_id := "UCC_9_203";
                passed := true;
                details := "PASSED: Contains granting clause and collateral description (UCC 9-203).";
                evidence_source := or_default (citation law) "UCC Article 9";
                timestamp := now;
                generated_content := None |} |}
    else
      Normal
        {| markdown := blocked_security_agreement;
           validation :=
             {| rule_id := "UCC_9_203";
                passed := false;
                details := "FAILED: Missing sufficient description of Collateral (UCC 9-108).";
                evidence_source := "UCC Article 9";
                timestamp := now;
                generated_content := None |} |}
  else if String.eqb type "bill_of_sale_ucc" then
    Normal
      {| markdown := bill_of_sale_template now data;
         validation :=
           {| rule_id := "UCC_2_201";
              passed := true;
              details := "PASSED: Written memorandum of sale (UCC 2-201).";
              evidence_source := "UCC Article 2";
              timestamp := now;
              generated_content := None |} |}
  else if String.eqb type "contractor_agreement" then
    Normal
      {| markdown := contractor_agreement_template data;
         validation :=
           {| rule_id := "COMMON_LAW_AGENCY";
              passed := true;
              details := "PASSED: Explicitly defines Independent Contractor relationship.";
              evidence_source := "IRS Common Law Rules";
              timestamp := now;
              generated_content := None |} |}
  else
    Normal {| markdown := markdown; validation := validation |}.

End Forms.

(** ** The clause-risk scanner *)

Definition risk_arbitration : string :=
  "CRITICAL: Mandatory arbitration/waiver clauses require scrutiny under Federal Arbitration Act (9 U.S.C. "
  ++ sect ++ " 1 et seq).".
Definition risk_indemnity : string :=
  "HIGH: Indemnification for gross negligence is often void against public policy per Restatement (Second) of Contracts.".
Definition risk_perpetuity : string :=
  "MEDIUM: Perpetual terms in service contracts are generally disfavored in common law.".
Definition risk_penalty : string :=
  "HIGH: Punitive penalties are generally unenforceable (UCC "
  ++ sect ++ " 2-718 requires reasonableness).".
Definition risk_confession (citation : string) : string :=
  "CRITICAL: Prohibited in consumer contracts. Source: " ++ citation.
Definition risk_confession_fallback : string :=
  "CRITICAL: Confession of Judgment clauses are prohibited in consumer contracts (16 CFR 444.2).".

(** The guards of the five [if] statements, on the lowercased clause. *)
Definition mentions_arbitration (lowerText : string) : bool :=
  includes lowerText "waive all rights"
  || includes lowerText "waive jury trial"
  || includes lowerText "arbitration".

Definition mentions_indemnity (lowerText : string) : bool :=
  (includes lowerText "indemnify" || includes lowerText "hold harmless")
  && includes lowerText "gross negligence".

Definition mentions_perpetuity (lowerText docType : string) : bool :=
  includes lowerText "perpetuity" && includes docType "service".

Definition mentions_penalty (lowerText : string) : bool :=
  includes lowerText "penalty"
  && negb (includes lowerText "liquidated damages").

Definition mentions_confession (lowerText : string) : bool :=
  includes lowerText "confession of judgment"
  || includes lowerText "cognovit".

Definition analyzeContractRisks (now : string) (clauseText docType : string)
  : completion ValidationStep :=
  let risks := [] in
  let lowerText := toLowerCase clauseText in
  let risks := push_if (mentions_arbitration lowerText)
                       risk_arbitration risks in
  let risks := push_if (mentions_indemnity lowerText) risk_indemnity risks in
  let risks := push_if (mentions_perpetuity lowerText docType)
                       risk_perpetuity risks in
  let risks := push_if (mentions_penalty lowerText) risk_penalty risks in
  let* risks :=
    if mentions_confession lowerText then
      let* ftcRule := consultStatute "FTC Credit Rule" in
      if found ftcRule
      then Normal (risks ++ [ risk_confession (prop_text (citation ftcRule)) ])%list
      else Normal (risks ++ [ risk_confession_fallback ])%list
    else Normal risks in
  let passed := (List.length risks =? 0)%nat in
  Normal
    {| rule_id := "RISK_SCAN_USC_UCC";
       passed := passed;
       details :=
         if passed
         then "CLEAN: No critical statutory risks identified in extracted clause."
         else "RISK ALERT: " ++ join " | " risks;
       evidence_source := "USC Title 15, UCC & CFR Title 16";
       timestamp := now;
       generated_content := None |}.

End LegalEngine.

(* ===================================================================== *)
(** * JSON.parse                                                         *)
(* ===================================================================== *)

Module JSON.

(** A parsed JSON text.  A string value is kept as its UTF-16 code units
    (an escape [\uXXXX] can denote any of them); a number is kept as its
    lexeme, since nothing here computes with it. *)
#[warnings="-register-all"]
Inductive value : Type :=
| JNull
| JBool (b : bool)
| JNumber (lexeme : string)
| JString (units : list N)
| JArray (elements : list value)
| JObject (members : list (list N * value)).

Definition units_of_string (s : string) : list N :=
  map N_of_ascii (list_ascii_of_string s).

Definition is_ws (c : ascii) : bool :=
  let n := nat_of_ascii c in
  (n =? 32)%nat || (n =? 9)%nat || (n =? 10)%nat || (n =? 13)%nat.

Fixpoint skip_ws (s : string) : string :=
  match s with
  | String c s' => if is_ws c then skip_ws s' else s
  | EmptyString => s
  end.

Definition is_digit (c : ascii) : bool :=
  let n := nat_of_ascii c in (48 <=? n)%nat && (n <=? 57)%nat.

Definition hex_value (c : ascii) : option N :=
  let n := N_of_ascii c in
  if (48 <=? n)%N && (n <=? 57)%N then Some (n - 48)%N
  else if (97 <=? n)%N && (n <=? 102)%N then Some (n - 87)%N
  else if (65 <=? n)%N && (n <=? 70)%N then Some (n - 55)%N
  else None.

Definition hex4 (a b c d : ascii) : option N :=
  match hex_value a, hex_value b, hex_value c, hex_value d with
  | Some x, Some y, Some z, Some w =>
      Some (((x * 16 + y) * 16 + z) * 16 + w)%N
  | _, _, _, _ => None
  end.

(** The characters of a string after its opening quote, up to and without
    the closing one. *)
Fixpoint parse_string_body (s : string) : option (list N * string) :=
  match s with
  | EmptyString => None
  | String c rest =>
      if Ascii.eqb c "034"%char then Some ([], rest)
      else if Ascii.eqb c "\"%char then
        match rest with
        | String e rest1 =>
            let simple (u : N) :=
              match parse_string_body rest1 with
              | Some (us, r) => Some (u :: us, r)
              | None => None
              end in
            if Ascii.eqb e "034"%char then simple 34%N
            else if Ascii.eqb e "\"%char then simple 92%N
            else if Ascii.eqb e "/"%char then simple 47%N
            else if Ascii.eqb e "b"%char then simple 8%N
            else if Ascii.eqb e "f"%char then simple 12%N
            else if Ascii.eqb e "n"%char then simple 10%N
            else if Ascii.eqb e "r"%char then simple 13%N
            else if Ascii.eqb e "t"%char then simple 9%N
            else if Ascii.eqb e "u"%char then
              match rest1 with
              | String h1 (String h2 (String h3 (String h4 rest2))) =>
                  match hex4 h1 h2 h3 h4, parse_string_body rest2 with
                  | Some u, Some (us, r) => Some (u :: us, r)
                  | _, _ => None
                  end
              | _ => None
              end
            else None
        | EmptyString => None
        end
      else if (nat_of_ascii c <? 32)%nat then None
      else
        match parse_string_body rest with
        | Some (us, r) => Some (N_of_ascii c :: us, r)
        | None => None
        end
  end.

Fixpoint take_digits (s : string) : string * string :=
  match s with
  | String c s' =>
      if is_digit c
      then let '(ds, r) := take_digits s' in (String c ds, r)
      else (EmptyString, s)
  | EmptyString => (EmptyString, s)
  end.

(** The integer part: a single [0], or a digit from 1 to 9 and more
    digits. *)
Definition parse_int (s : string) : option (string * string) :=
  match s with
  | String c s' =>
      if Ascii.eqb c "0"%char then Some ("0", s')
      else if is_digit c
      then let '(ds, r) := take_digits s' in Some (String c ds, r)
      else None
  | EmptyString => None
  end.

Definition parse_frac (s : string) : option (string * string) :=
  match s with
  | String "."%char s' =>
      match take_digits s' with
      | (EmptyString, _) => None
      | (ds, r) => Some ("." ++ ds, r)
      end
  | _ => Some ("", s)
  end.

Definition parse_exp_digits (pre s : string) : option (string * string) :=
  match take_digits s with
  | (EmptyString, _) => None
  | (ds, r) => Some (pre ++ ds, r)
  end.

Definition parse_exp (s : string) : option (string * string) :=
  match s with
  | String c s' =>
      if Ascii.eqb c "e"%char || Ascii.eqb c "E"%char then
        match s' with
        | String sg s'' =>
            if Ascii.eqb sg "+"%char || Ascii.eqb sg "-"%char
            then parse_exp_digits (String c (String sg "")) s''
            else parse_exp_digits (String c "") s'
        | EmptyString => None
        end
      else Some ("", s)
  | EmptyString => Some ("", s)
  end.

Definition parse_number (s : string) : option (string * string) :=
  let '(sign, s1) :=
    match s with
    | String "-"%char s' => ("-", s')
    | _ => ("", s)
    end in
  match parse_int s1 with
  | Some (i, s2) =>
      match parse_frac s2 with
      | Some (f, s3) =>
          match parse_exp s3 with
          | Some (e, s4) => Some (sign ++ i ++ f ++ e, s4)
          | None => None
          end
      | None => None
      end
  | None => None
  end.

(** [s] minus the literal [lit] at its start. *)
Fixpoint strip_prefix (lit s : string) : option string :=
  match lit with
  | EmptyString => Some s
  | String a lit' =>
      match s with
      | String b s' => if Ascii.eqb a b then strip_prefix lit' s' else None
      | EmptyString => None
      end
  end.

(** [s] minus the character [c] at its start. *)
Definition expect (c : ascii) (s : string) : option string :=
  match s with
  | String d s' => if Ascii.eqb d c then Some s' else None
  | EmptyString => None
  end.

(** A value, the rest of an array after [[] and the rest of an object after
    [{].  Of two nested calls at least one follows a consumed character, so
    a fuel above twice the length of the text is never used up. *)
Fixpoint parse_value (fuel : nat) (s : string) : option (value * string) :=
  match fuel with
  | O => None
  | S fuel' =>
      match skip_ws s with
      | EmptyString => None
      | String c rest as t =>
          if Ascii.eqb c "{"%char then
            match expect "}"%char (skip_ws rest) with
            | Some rest' => Some (JObject [], rest')
            | None =>
                match parse_members fuel' rest with
                | Some (ms, r) => Some (JObject ms, r)
                | None => None
                end
            end
          else if Ascii.eqb c "["%char then
            match expect "]"%char (skip_ws rest) with
            | Some rest' => Some (JArray [], rest')
            | None =>
                match parse_elements fuel' rest with
                | Some (vs, r) => Some (JArray vs, r)
                | None => None
                end
            end
          else if Ascii.eqb c "034"%char then
            match parse_string_body rest with
            | Some (us, r) => Some (JString us, r)
            | None => None
            end
          else if Ascii.eqb c "t"%char then
            match strip_prefix "true" t with
            | Some r => Some (JBool true, r)
            | None => None
            end
          else if Ascii.eqb c "f"%char then
            match strip_prefix "false" t with
            | Some r => Some (JBool false, r)
            | None => None
            end
          else if Ascii.eqb c "n"%char then
            match strip_prefix "null" t with
            | Some r => Some (JNull, r)
            | None => None
            end
          else
            match parse_number t with
            | Some (lx, r) => Some (JNumber lx, r)
            | None => None
            end
      end
  end

with parse_elements (fuel : nat) (s : string)
  : option (list value * string) :=
  match fuel with
  | O => None
  | S fuel' =>
      match parse_value fuel' s with
      | Some (v, r) =>
          match skip_ws r with
          | String c r' =>
              if Ascii.eqb c ","%char then
                match parse_elements fuel' r' with
                | Some (vs, r'') => Some (v :: vs, r'')
                | None => None
                end
              else if Ascii.eqb c "]"%char then Some ([v], r')
              else None
          | EmptyString => None
          end
      | None => None
      end
  end

with parse_members (fuel : nat) (s : string)
  : option (list (list N * value) * string) :=
  match fuel with
  | O => None
  | S fuel' =>
      match expect "034"%char (skip_ws s) with
      | Some r0 =>
          match parse_string_body r0 with
          | Some (k, r1) =>
              match expect ":"%char (skip_ws r1) with
              | Some r2 =>
                  match parse_value fuel' r2 with
                  | Some (v, r3) =>
                      match skip_ws r3 with
                      | String c r4 =>
                          if Ascii.eqb c ","%char then
                            match parse_members fuel' r4 with
                            | Some (ms, r5) => Some ((k, v) :: ms, r5)
                            | None => None
                            end
                          else if Ascii.eqb c "}"%char
                          then Some ([(k, v)], r4)
                          else None
                      | EmptyString => None
                      end
                  | None => None
                  end
              | None => None
              end
          | None => None
          end
      | None => None
      end
  end.

(** [JSON.parse(text)]: one value between optional white space, or a
    [SyntaxError]. *)
Definition parse (text : string) : completion value :=
  match parse_value (S (2 * String.length text)) text with
  | Some (v, rest) =>
      match skip_ws rest with
      | EmptyString => Normal v
      | _ => Throw SyntaxError
      end
  | None => Throw SyntaxError
  end.

Fixpoint units_eqb (a b : list N) : bool :=
  match a, b with
  | [], [] => true
  | x :: a', y :: b' => (x =? y)%N && units_eqb a' b'
  | _, _ => false
  end.

(** The member a key names: a later duplicate overwrites an earlier one. *)
Fixpoint lookup (k : list N) (ms : list (list N * value)) : option value :=
  match ms with
  | [] => None
  | (k', v) :: ms' =>
      match lookup k ms' with
      | Some v' => Some v'
      | None => if units_eqb k k' then Some v else None
      end
  end.

(** [v.k] for a key [k] that no prototype defines: [None] is [undefined];
    reading a property of [null] is a [TypeError]. *)
Definition get_property (v : value) (k : string) : completion (option value) :=
  match v with
  | JNull => Throw TypeError
  | JObject ms => Normal (lookup (units_of_string k) ms)
  | _ => Normal None
  end.

(** [x === true]. *)
Definition is_true (x : option value) : bool :=
  match x with
  | Some (JBool true) => true
  | _ => false
  end.

(** [QuoteJSONString], the text [JSON.stringify] writes for a string. *)
Definition hex_digit (d : N) : ascii :=
  if (d <? 10)%N then ascii_of_N (48 + d) else ascii_of_N (87 + d).

Definition quote_unit (c : ascii) : string :=
  let n := N_of_ascii c in
  if (n =? 8)%N then "\b"
  else if (n =? 9)%N then "\t"
  else if (n =? 10)%N then "\n"
  else if (n =? 12)%N then "\f"
  else if (n =? 13)%N then "\r"
  else if (n =? 34)%N then String "\"%char dquote
  else if (n =? 92)%N then "\\"
  else if (n <? 32)%N
  then "\u00" ++ String (hex_digit (n / 16)) (String (hex_digit (n mod 16)) "")
  else String c "".

Fixpoint quote_body (s : string) : string :=
  match s with
  | EmptyString => EmptyString
  | String c s' => quote_unit c ++ quote_body s'
  end.

Definition quote (s : string) : string := dquote ++ quote_body s ++ dquote.

End JSON.

(* ===================================================================== *)
(** * LegalPackages/auditor.ts.tsx: the policy engine                    *)
(* ===================================================================== *)

Module Auditor.

(** An item of the run history, with the properties the policy reads. *)
Record HistoryItem : Type := {
  type : string;
  name : option string;
  output : string
}.

(** [runContext.history] may be undefined. *)
Record RunContext : Type := {
  history : option (list HistoryItem)
}.

Definition is_ordinary_result (item : HistoryItem) : bool :=
  String.eqb (type item) "function_call_result"
  && match name item with
     | Some n => String.eqb n "is_ordinary_rule_checker"
     | None => false
     end.

(** [arr.pop()]: the last element, [undefined] on an empty array. *)
Fixpoint pop {A : Type} (arr : list A) : option A :=
  match arr with
  | [] => None
  | [x] => Some x
  | _ :: arr' => pop arr'
  end.

(** The two [console.log] calls are left out. *)
Definition isNecessaryEnabled (runContext : RunContext) : completion bool :=
  let ordinaryResult :=
    match history runContext with
    | Some h => pop (filter is_ordinary_result h)
    | None => None
    end in
  match ordinaryResult with
  | Some r =>
      if String.eqb (type r) "function_call_result" then
        let* out := JSON.parse (output r) in
        let* p := JSON.get_property out "passed" in
        if JSON.is_true p then Normal true else Normal false
      else Normal false
  | None => Normal false
  end.

(** Modelled from the spec: the type [ValidationStep] of
    [legal_auditor_schemas.js], a file that is not among the sources.  The
    Verdict of the specification has the fields of the [ValidationStep]
    that [legalEngine.ts], ported from this package, declares. *)
Definition ValidationStep : Type := LegalEngine.ValidationStep.


(** The client of the package, with the endpoint its module gives it. *)
Definition ircDatabase : LegalEngine.VerifiableLawDatabaseClient :=
  {| LegalEngine.endpoint := "https://api.law.gov/rac/irc" |}.

(** [isOrdinaryTool.execute]: the ordinary checker as the package declares
    it as a tool, with its branch on a source that mentions a failure.  The
    method [query] of the package is that of [legalEngine.ts], letter for
    letter. *)
Definition isOrdinaryTool_execute (now : string)
  (naics_code expense_item_category : string) : completion ValidationStep :=
  let* r := LegalEngine.query ircDatabase naics_code expense_item_category in
  let is_ordinary := LegalEngine.is_ordinary r in
  let source := LegalEngine.query_source r in
  if includes source "Failed" then
    Normal
      {| LegalEngine.rule_id := "rule_is_ordinary";
         LegalEngine.passed := false;
         LegalEngine.details :=
           "Failed: Industry (NAICS code " ++ naics_code
           ++ ") not found in precedent database.";
         LegalEngine.evidence_source := source;
         LegalEngine.timestamp := now;
         LegalEngine.generated_content := None |}
  else
    Normal
      {| LegalEngine.rule_id := "rule_is_ordinary";
         LegalEngine.passed := is_ordinary;
         LegalEngine.details :=
           if is_ordinary
           then "PASSED: '" ++ expense_item_category ++ "' is a verifiable "
                ++ dquote ++ "ordinary" ++ dquote
                ++ " expense under IRC Sec 162(a) for NAICS code "
                ++ naics_code ++ "."
           else "FAILED: '" ++ expense_item_category
                ++ "' is NOT a verifiable "
                ++ dquote ++ "ordinary" ++ dquote
                ++ " expense under IRC Sec 162(a) for NAICS code "
                ++ naics_code ++ ".";
         LegalEngine.evidence_source := source;
         LegalEngine.timestamp := now;
         LegalEngine.generated_content := None |}.

End Auditor.

(* ===================================================================== *)
(** * services/geminiService.ts: the policy state of the tool loop       *)
(* ===================================================================== *)

Module GeminiService.

Record ToolsPolicyState : Type := {
  ordinaryPassed : bool
}.

(** A function call of the model; of its arguments, the two that the
    [verify_ordinary] branch reads. *)
Record FunctionCall : Type := {
  call_name : string;
  naics_code : string;
  expense_item : string
}.

(** The declarations offered to the model, by name. *)
Definition getAllowedTools (toolsPolicyState : ToolsPolicyState)
  : list string :=
  let declarations :=
    [ "verify_ordinary"; "verify_negotiability"; "analyze_clause_risks";
      "draft_verified_form"; "consult_statute" ] in
  if ordinaryPassed toolsPolicyState
  then (declarations ++ ["verify_necessary"])%list
  else declarations.

(** What one iteration of [for (const call of functionCalls)] does to
    [toolsPolicyState]: only the [verify_ordinary] branch writes it, and a
    rejected call is caught without a write. *)
Definition after_call (now : string) (st : ToolsPolicyState)
  (call : FunctionCall) : ToolsPolicyState :=
  if String.eqb (call_name call) "verify_ordinary" then
    match LegalEngine.verifyOrdinary now (naics_code call) (expense_item call)
    with
    | Normal result =>
        if LegalEngine.passed result
        then {| ordinaryPassed := true |}
        else st
    | Throw _ => st
    end
  else st.

Definition maxTurns : nat := 5.

(** The responses the [while] loop serves: [responses] holds the
    [functionCalls] of the successive responses of the model; the loop
    stops at the first response without a call, and after [maxTurns]
    rounds. *)
Fixpoint served (budget : nat) (responses : list (list FunctionCall))
  : list (list FunctionCall) :=
  match budget, responses with
  | S budget', (call :: calls) :: later =>
      (call :: calls) :: served budget' later
  | _, _ => []
  end.

(** The state when the loop ends. *)
Definition run_tool_loop (now : string)
  (responses : list (list FunctionCall)) : ToolsPolicyState :=
  fold_left (fun st calls => fold_left (after_call now) calls st)
            (served maxTurns responses)
            {| ordinaryPassed := false |}.

(** Whether [verify_necessary] is among the tools of the next request. *)
Definition necessary_offered (st : ToolsPolicyState) : bool :=
  array_includes (getAllowedTools st) "verify_necessary".

(** The branch [draft_verified_form] of the loop: the result handed back to
    the language model is the verdict, with the document attached as
    [generated_content] when the verdict passed. *)
Definition draft_verified_form {fmt : NumberFormat} (now : string)
  (form_type : string) (args : LegalEngine.FormData)
  : completion LegalEngine.ValidationStep :=
  let* formResult := LegalEngine.generateVerifiedForm now form_type args in
  let result := LegalEngine.validation formResult in
  if LegalEngine.passed (LegalEngine.validation formResult)
  then
    Normal
      {| LegalEngine.rule_id := LegalEngine.rule_id result;
         LegalEngine.passed := LegalEngine.passed result;
         LegalEngine.details := LegalEngine.details result;
         LegalEngine.evidence_source := LegalEngine.evidence_source result;
         LegalEngine.timestamp := LegalEngine.timestamp result;
         LegalEngine.generated_content :=
           Some (LegalEngine.markdown formResult) |}
  else Normal result.

(** The policy state at each request [generateContent] of a run: at the
    first one, and at the one that follows each served round. *)
Fixpoint states (now : string) (st : ToolsPolicyState)
  (rounds : list (list FunctionCall)) : list ToolsPolicyState :=
  match rounds with
  | [] => [st]
  | calls :: later =>
      st :: states now (fold_left (after_call now) calls st) later
  end.

(** The tools of the successive requests of a run. *)
Definition offered_tools (now : string)
  (responses : list (list FunctionCall)) : list (list string) :=
  map getAllowedTools
    (states now {| ordinaryPassed := false |} (served maxTurns responses)).

(** ** [runArbiterAudit]: the critic *)




Section Critic.

(** The number that the lexeme of a JSON number denotes, from the host. *)
Variable number_of_lexeme : string -> number.




End Critic.

End GeminiService.

(* ===================================================================== *)
(** * contexts/AuditContext.tsx: the audit ledger                        *)
(* ===================================================================== *)

Module AuditContext.

Inductive Source : Type := Advisor | Studio | System | Arbiter.
Inductive Status : Type := Verified | Pending | Error | Refining.

Record ArbiterMetadata : Type := {
  refinementIterations : option number;
  criticScore : option number;
  complianceCheck : option bool;
  latencyMs : option number
}.

Record AuditEntry : Type := {
  id : string;
  timestamp : Z;
  action : string;
  details : string;
  source : Source;
  status : Status;
  hash : string;
  metadata : option ArbiterMetadata
}.

(** ** The pseudo-hash *)

(** [ToInt32]. *)
Definition toInt32 (z : Z) : Z :=
  ((z + 2147483648) mod 4294967296 - 2147483648)%Z.

(** One round of the loop:
    [hash = (hash << 5) - hash + char; hash = hash & hash]. *)
Definition hash_step (hash : Z) (c : ascii) : Z :=
  toInt32 (toInt32 (Z.shiftl hash 5) - hash + Z.of_nat (nat_of_ascii c))%Z.

Fixpoint hash_loop (hash : Z) (str : string) : Z :=
  match str with
  | EmptyString => hash
  | String c str' => hash_loop (hash_step hash c) str'
  end.

Definition digit_char (d : N) : ascii :=
  if (d <? 10)%N then ascii_of_N (48 + d) else ascii_of_N (87 + d).

(** The digits of [n] in [base], most significant first. *)
Fixpoint digits (fuel : nat) (base n : N) (acc : string) : string :=
  match fuel with
  | O => acc
  | S fuel' =>
      let acc' := String (digit_char (n mod base)) acc in
      if (n / base =? 0)%N then acc' else digits fuel' base (n / base) acc'
  end.

(** [n.toString(base)] for a natural number [n]. *)
Definition toString (base : N) (n : N) : string :=
  digits (S (N.to_nat (N.size n))) base n "".

(** [random16] is the reading [Math.random().toString(16)]. *)
Definition generateHash (random16 : string) (str : string) : string :=
  let hash := hash_loop 0 str in
  "0x" ++ padStart0 16 (toString 16 (Z.to_N (Z.abs hash)))
       ++ substr 2 8 random16.

(** ** The ledger *)

(** What one call of [addEntry] reads from the host, in the order of the
    reads: [Date.now()], [Math.random().toString(36)], [new Date()],
    [Date.now()], [Math.random().toString(16)]. *)
Record Readings : Type := {
  now_id : Z;
  random36 : string;
  new_Date : Z;
  now_hash : Z;
  random16 : string
}.

(** [Date.now()] as text; the clock is not negative. *)
Definition time_text (ms : Z) : string := toString 10 (Z.to_N ms).

Definition newEntry (r : Readings) (action details : string)
  (source : Source) (status : option Status)
  (metadata : option ArbiterMetadata) : AuditEntry :=
  {| id := time_text (now_id r) ++ substr 2 5 (random36 r);
     timestamp := new_Date r;
     action := action;
     details := details;
     source := source;
     status := match status with Some s => s | None => Verified end;
     hash := generateHash (random16 r)
               (action ++ details ++ time_text (now_hash r));
     metadata := metadata |}.

(** [setEntries(prev => [newEntry, ...prev])]. *)
Definition addEntry (r : Readings) (action details : string)
  (source : Source) (status : option Status)
  (metadata : option ArbiterMetadata) (prev : list AuditEntry)
  : list AuditEntry :=
  newEntry r action details source status metadata :: prev.

Definition one : number := of_Z 1.

(** [clearLog] reads [Date.now()], [new Date()], [Date.now()] and
    [Math.random().toString(16)]; [random36] is not read. *)
Definition clearLog (r : Readings) (prev : list AuditEntry)
  : list AuditEntry :=
  [ {| id := "reboot-" ++ time_text (now_id r);
       timestamp := new_Date r;
       action := "System Reboot";
       details := "Audit Ledger flushed by user command. Clean state initialized.";
       source := System;
       status := Verified;
       hash := generateHash (random16 r) ("reboot-" ++ time_text (now_hash r));
       metadata := Some {| refinementIterations := None;
                           criticScore := Some one;
                           complianceCheck := Some true;
                           latencyMs := None |} |} ].

(** The initial state of [useState]. *)
Definition genesis (r : Readings) : list AuditEntry :=
  [ {| id := "genesis";
       timestamp := new_Date r;
       action := "ArbiterOS Initialization";
       details := "Governance ledger instantiated. Constitution loaded.";
       source := System;
       status := Verified;
       hash := generateHash (random16 r) "genesis-block-governance";
       metadata := Some {| refinementIterations := None;
                           criticScore := Some one;
                           complianceCheck := Some true;
                           latencyMs := None |} |} ].

End AuditContext.

(* ===================================================================== *)
(** * components/AuditLog.tsx: the figures drawn from the ledger          *)
(* ===================================================================== *)

Module AuditLog.

Import AuditContext.

(** [e.metadata?.criticScore] and [e.metadata?.latencyMs]. *)
Definition criticScore_of (e : AuditEntry) : option number :=
  match metadata e with
  | Some m => criticScore m
  | None => None
  end.

Definition latencyMs_of (e : AuditEntry) : option number :=
  match metadata e with
  | Some m => latencyMs m
  | None => None
  end.

(** An optional number as a condition: [undefined], a zero and NaN are
    falsy. *)
Definition if_number (x : option number) : bool :=
  match x with
  | Some n => number_truthy n
  | None => false
  end.

(** [x || d] on an optional number. *)
Definition number_or (x : option number) (d : number) : number :=
  match x with
  | Some n => if number_truthy n then n else d
  | None => d
  end.

(** [arr.slice(-n)]: the last [n] elements. *)
Definition slice_last {A : Type} (n : nat) (arr : list A) : list A :=
  skipn (List.length arr - n) arr.

Inductive Mark : Type := risk | safe.

Record TelemetryPoint : Type := {
  time : string;
  latency : number;
  score : number;
  point_id : string;
  point_status : Mark
}.

Record Slice : Type := {
  slice_name : string;
  value : nat;
  color : string
}.

Record ComplianceMetrics : Type := {
  belowThreshold : nat;
  totalAudited : nat
}.

Definition status_eqb (a b : Status) : bool :=
  match a, b with
  | Verified, Verified | Pending, Pending
  | Error, Error | Refining, Refining => true
  | _, _ => false
  end.

(** The object [statusCounts], a count for the statuses met so far; one
    round of the [reduce] is
    [acc[curr.status] = (acc[curr.status] || 0) + 1]. *)
Definition Counts : Type := Status -> option nat.

Definition count_or_0 (x : option nat) : nat :=
  match x with
  | Some n => n
  | None => 0
  end.

Definition count_one (acc : Counts) (curr : AuditEntry) : Counts :=
  fun s =>
    if status_eqb s (status curr)
    then Some (count_or_0 (acc (status curr)) + 1)
    else acc s.

Definition statusCounts (entries : list AuditEntry) : Counts :=
  fold_left count_one entries (fun _ => None).

Definition statusChart (entries : list AuditEntry) : list Slice :=
  let statusCounts := statusCounts entries in
  filter (fun d => (0 <? value d)%nat)
    [ {| slice_name := "Verified";
         value := count_or_0 (statusCounts Verified); color := "#ffffff" |};
      {| slice_name := "Pending";
         value := count_or_0 (statusCounts Pending); color := "#525252" |};
      {| slice_name := "Refining";
         value := count_or_0 (statusCounts Refining); color := "#a3a3a3" |};
      {| slice_name := "Error";
         value := count_or_0 (statusCounts Error); color := "#ef4444" |} ].

Definition complianceMetrics (confidenceThreshold : number)
  (entries : list AuditEntry) : ComplianceMetrics :=
  {| belowThreshold :=
       List.length
         (filter (fun e =>
                    match criticScore_of e with
                    | Some s => number_truthy s && ltb s confidenceThreshold
                    | None => false
                    end) entries);
     totalAudited :=
       List.length (filter (fun e => if_number (criticScore_of e)) entries) |}.

(** The row of the table for an entry is drawn as a risk when
    [score < confidenceThreshold && entry.metadata?.criticScore !== undefined]
    with [score = entry.metadata?.criticScore || 0]. *)
Definition isRisky (confidenceThreshold : number) (entry : AuditEntry)
  : bool :=
  let score := number_or (criticScore_of entry) (of_Z 0) in
  ltb score confidenceThreshold
  && match criticScore_of entry with Some _ => true | None => false end.

Section Telemetry.

(** [toLocaleTimeString] of the host, for the options the chart passes. *)
Variable toLocaleTimeString : Z -> string.

Definition telemetry_point (confidenceThreshold : number) (e : AuditEntry)
  : TelemetryPoint :=
  {| time := toLocaleTimeString (timestamp e);
     latency := number_or (latencyMs_of e) (of_Z 0);
     score := mul (number_or (criticScore_of e) (of_Z 0)) (of_Z 100);
     point_id := id e;
     point_status :=
       if ltb (number_or (criticScore_of e) (of_Z 1)) confidenceThreshold
       then risk else safe |}.

Definition telemetry (confidenceThreshold : number)
  (entries : list AuditEntry) : list TelemetryPoint :=
  let chronoEntries := rev entries in
  map (telemetry_point confidenceThreshold)
    (slice_last 20
       (filter (fun e => if_number (latencyMs_of e)
                         || if_number (criticScore_of e))
               chronoEntries)).

End Telemetry.

End AuditLog.

(* ===================================================================== *)
(** * components/ImageGen.tsx: the figures handed to the image prompt     *)
(* ===================================================================== *)

Module ImageGen.

Import AuditContext.

Section Metrics.

(** [x.toFixed(0)] of the host. *)
Variable toFixed0 : number -> string.

Record Metrics : Type := {
  total : nat;
  integrity : string;
  lastContext : string
}.

Definition metrics (entries : list AuditEntry) : Metrics :=
  let total := List.length entries in
  let verified :=
    List.length
      (filter (fun e => match status e with Verified => true | _ => false end)
              entries) in
  {| total := total;
     integrity :=
       if (0 <? total)%nat
       then toFixed0 (mul (div (of_Z (Z.of_nat verified))
                               (of_Z (Z.of_nat total)))
                          (of_Z 100))
       else "100";
     lastContext :=
       match entries with
       | e :: _ => if truthy (details e) then details e else "System Idle"
       | [] => "System Idle"
       end |}.

End Metrics.

End ImageGen.

(* ===================================================================== *)
(** * components/LegalAdvisor.tsx: staged files and the rendered answer   *)
(* ===================================================================== *)

Module LegalAdvisor.

(** ** [renderMessageText] *)

(** A line terminator, which [.] does not match; of the four of the
    language, the two below 256. *)
Definition is_line_terminator (c : ascii) : bool :=
  Ascii.eqb c "010"%char || Ascii.eqb c "013"%char.

(** [.*?\]] at the start of [s]: the shortest run of characters that are
    no line terminators and the bracket after it, and the rest of [s]. *)
Fixpoint lazy_to_bracket (s : string) : option (string * string) :=
  match s with
  | EmptyString => None
  | String c s' =>
      if Ascii.eqb c "]"%char then Some ("]", s')
      else if is_line_terminator c then None
      else match lazy_to_bracket s' with
           | Some (m, rest) => Some (String c m, rest)
           | None => None
           end
  end.

(** [\[(?:SIGNATURE_FIELD|CITATION):.*?\]] at the start of [s]: the match
    and the rest of [s]. *)
Definition match_tag (s : string) : option (string * string) :=
  match JSON.strip_prefix "[SIGNATURE_FIELD:" s with
  | Some r =>
      match lazy_to_bracket r with
      | Some (m, rest) => Some ("[SIGNATURE_FIELD:" ++ m, rest)
      | None => None
      end
  | None =>
      match JSON.strip_prefix "[CITATION:" s with
      | Some r =>
          match lazy_to_bracket r with
          | Some (m, rest) => Some ("[CITATION:" ++ m, rest)
          | None => None
          end
      | None => None
      end
  end.

(** [text.split(re)] for that expression, which is one capturing group:
    the texts between the matches and the matches, in turn, from the
    text before the first match to the text after the last.  A match is
    looked for at each position from the left; [fuel] bounds the positions
    visited. *)
Fixpoint split_tags (fuel : nat) (s : string) : list string :=
  match fuel with
  | O => [s]
  | S fuel' =>
      match match_tag s with
      | Some (m, rest) => "" :: m :: split_tags fuel' rest
      | None =>
          match s with
          | EmptyString => [""]
          | String c s' =>
              match split_tags fuel' s' with
              | part :: parts => String c part :: parts
              | [] => [String c ""]
              end
          end
      end
  end.

Definition split (text : string) : list string :=
  split_tags (S (String.length text)) text.

(** [s.split(sep)] for a separator of one character. *)
Fixpoint split_char (sep : ascii) (s : string) : list string :=
  match s with
  | EmptyString => [""]
  | String c s' =>
      match split_char sep s' with
      | part :: parts =>
          if Ascii.eqb c sep then "" :: part :: parts
          else String c part :: parts
      | [] => []
      end
  end.

(** [s.replace(pat, rep)] for a pattern that is a string: the first
    occurrence. *)
Fixpoint replace_first (pat rep s : string) : string :=
  match JSON.strip_prefix pat s with
  | Some rest => rep ++ rest
  | None =>
      match s with
      | EmptyString => EmptyString
      | String c s' => String c (replace_first pat rep s')
      end
  end.

(** What a part is drawn as: the box of a signature with its label, the
    card of a citation with its title and source, or the text as it is. *)
Inductive Element : Type :=
| SignatureBox (label : string)
| CitationCard (title : string) (source : option string)
| Span (text : string).

Definition render_part (part : string) : Element :=
  if String.prefix "[SIGNATURE_FIELD" part then
    SignatureBox
      (if includes part ":"
       then replace_first "]" "" (nth 1 (split_char ":" part) "")
       else "SIGN HERE")
  else if String.prefix "[CITATION" part then
    let content := replace_first "]" "" (replace_first "[CITATION:" "" part) in
    match split_char "|" content with
    | title :: source :: _ => CitationCard title (Some source)
    | title :: [] => CitationCard title None
    | [] => CitationCard "" None
    end
  else Span part.

Definition renderMessageText (text : string) : list Element :=
  map render_part (split text).

(** ** Staged files *)

Record File : Type := {
  file_name : string;
  webkitRelativePath : string
}.

Record StagedFile : Type := {
  data : string;
  name : string;
  path : string
}.

Section Files.

(** The data URL that the [FileReader] of the host reads from a file. *)
Variable readAsDataURL : File -> string.

Definition stage (file : File) : StagedFile :=
  {| data := readAsDataURL file;
     name := file_name file;
     path := if truthy (webkitRelativePath file)
             then webkitRelativePath file else file_name file |}.

(** [processFiles]: the staged files after the call, and the arguments of
    its call of [addEntry]. *)
Definition processFiles (files : list File) (prev : list StagedFile)
  : list StagedFile * (string * string * AuditContext.Source) :=
  let filesToProcess := firstn 20 files in
  let newFiles := map stage filesToProcess in
  ((prev ++ newFiles)%list,
   ("Evidence Ingestion",
    "Ingested "
    ++ AuditContext.toString 10 (N.of_nat (List.length files))
    ++ " artifacts",
    AuditContext.Advisor)).

End Files.

(** [prev.filter((_, i) => i !== index)], from position [i]. *)
Fixpoint filter_index {A : Type} (keep : nat -> bool) (i : nat) (l : list A)
  : list A :=
  match l with
  | [] => []
  | x :: l' =>
      if keep i then x :: filter_index keep (S i) l'
      else filter_index keep (S i) l'
  end.

Definition removeFile (index : nat) (prev : list StagedFile)
  : list StagedFile :=
  filter_index (fun i => negb (i =? index)%nat) 0 prev.

End LegalAdvisor.

(* ===================================================================== *)
(** * The properties, in the words of the specification                  *)
(* ===================================================================== *)

Module Spec.

Import LegalEngine.

(** The promise of an async call was fulfilled with a verdict whose
    [passed] is [b]. *)
Definition fulfils_passed (c : completion ValidationStep) (b : bool) : Prop :=
  exists v, c = Normal v /\ passed v = b.

(** ** Ordinary-expense table *)

(** A pair (industry code, expense category) is absent from the table:
    the code is not that of the carpenters, or the lowercased category is
    not one of their items. *)
Definition absent_from_table (industry_code expense_category : string)
  : Prop :=
  industry_code <> "238350"
  \/ ~ In (toLowerCase expense_category)
          [ "truck"; "hammer"; "saw"; "toolbox"; "work_boots" ].

(** ** Negotiability *)




(** ** Policy gate *)

(** [JSON.stringify] of a verdict, the payload of a tool result in the
    tests of the policy engine; an absent [generated_content] is left
    out. *)
Definition stringify (v : ValidationStep) : string :=
  "{" ++ JSON.quote "rule_id" ++ ":" ++ JSON.quote (rule_id v)
  ++ "," ++ JSON.quote "passed" ++ ":"
  ++ (if passed v then "true" else "false")
  ++ "," ++ JSON.quote "details" ++ ":" ++ JSON.quote (details v)
  ++ "," ++ JSON.quote "evidence_source" ++ ":"
  ++ JSON.quote (evidence_source v)
  ++ "," ++ JSON.quote "timestamp" ++ ":" ++ JSON.quote (timestamp v)
  ++ match generated_content v with
     | Some g => "," ++ JSON.quote "generated_content" ++ ":" ++ JSON.quote g
     | None => ""
     end
  ++ "}".

(** The history item of an ordinary check that returned [v]. *)
Definition ordinary_item (v : ValidationStep) : Auditor.HistoryItem :=
  {| Auditor.type := "function_call_result";
     Auditor.name := Some "is_ordinary_rule_checker";
     Auditor.output := stringify v |}.

(** The verdicts of the tests: one that passed, one that failed. *)
Definition ordinary_pass : ValidationStep :=
  {| rule_id := "rule_is_ordinary"; passed := true;
     details := "PASSED: ..."; evidence_source := "LIVE_QUERY:...";
     timestamp := "2026-01-05T09:00:00.000Z"; generated_content := None |}.

Definition ordinary_fail : ValidationStep :=
  {| rule_id := "rule_is_ordinary"; passed := false;
     details := "FAILED: ..."; evidence_source := "LIVE_QUERY:...";
     timestamp := "2026-01-05T09:00:01.000Z"; generated_content := None |}.

(** The payload of the test on corrupted JSON: an object cut off inside
    its second string. *)
Definition corrupted_output : string :=
  "{ " ++ dquote ++ "passed" ++ dquote ++ ": true, "
  ++ dquote ++ "details" ++ dquote ++ ": " ++ dquote ++ "corrupted... ".

Definition corrupted_item : Auditor.HistoryItem :=
  {| Auditor.type := "function_call_result";
     Auditor.name := Some "is_ordinary_rule_checker";
     Auditor.output := corrupted_output |}.

(** The most recent Ordinary-Expense verdict of a history, which lists its
    items in call order: the result of the ordinary checker that no other
    such result follows. *)
Fixpoint most_recent_ordinary (h : list Auditor.HistoryItem)
  : option Auditor.HistoryItem :=
  match h with
  | [] => None
  | item :: later =>
      match most_recent_ordinary later with
      | Some r => Some r
      | None => if Auditor.is_ordinary_result item then Some item else None
      end
  end.

(** The payload of a history item is a verdict with [passed = true]. *)
Definition recorded_pass (r : Auditor.HistoryItem) : Prop :=
  exists v, JSON.parse (Auditor.output r) = Normal v
            /\ JSON.get_property v "passed"
               = Normal (Some (JSON.JBool true)).

(** A call [verify_ordinary(naics, item)] that the language model asks
    for. *)
Definition ordinary_call (naics item : string) : GeminiService.FunctionCall :=
  {| GeminiService.call_name := "verify_ordinary";
     GeminiService.naics_code := naics;
     GeminiService.expense_item := item |}.

(** A call of the tool loop is an ordinary check that passes. *)
Definition passing_ordinary_call (now : string)
  (call : GeminiService.FunctionCall) : bool :=
  String.eqb (GeminiService.call_name call) "verify_ordinary"
  && match verifyOrdinary now (GeminiService.naics_code call)
             (GeminiService.expense_item call) with
     | Normal v => passed v
     | Throw _ => false
     end.

(** ** Ledger *)

(** One call of [append]: its arguments and what it reads from the
    host. *)
Record Append : Type := {
  readings : AuditContext.Readings;
  act : string;
  det : string;
  src : AuditContext.Source;
  stat : option AuditContext.Status;
  meta : option AuditContext.ArbiterMetadata
}.

Definition ledger_append (a : Append)
  (ledger : list AuditContext.AuditEntry)
  : list AuditContext.AuditEntry :=
  AuditContext.addEntry (readings a) (act a) (det a) (src a) (stat a)
    (meta a) ledger.

(** ** Necessity ratio *)

Definition zero : number := S754_zero false.

(** [x > 0] and [x <= 0]. *)
Definition above_zero (x : number) : Prop := ltb zero x = true.
Definition non_positive (x : number) : Prop := leb x zero = true.


(** A host for the closed examples; the theorems hold for every host. *)
Definition sample_format : NumberFormat :=
  {| toFixed1 := fun _ => "#.#"; numberToString := fun _ => "#" |}.

(** ** Forms *)

(** The collateral description is present and longer than 3 characters. *)
Definition collateral_described (data : FormData) : Prop :=
  exists c, collateral data = Some c /\ 3 < String.length c.

(** The call [draft_verified_form] of a security agreement whose only field
    is the collateral description [c]. *)
Definition collateral_only (c : string) : FormData :=
  {| amount := None; lender := None; borrower := None; seller := None;
     buyer := None; client := None; contractor := None;
     collateral := Some c; goods_description := None; services := None;
     date := None; state := None; debtor := None; secured_party := None;
     obligation := None |}.

(** The terms of a negotiable instrument: an unconditional promise of a
    fixed amount, payable to order, on demand or at a definite time, with
    no other undertaking. *)
Definition compliant_terms (t : InstrumentTerms) : Prop :=
  promise_type t = unconditional
  /\ amount_type t = fixed
  /\ payable_to t = order
  /\ (timing t = demand \/ timing t = definite)
  /\ other_undertakings t = false.

(** ** Forms that are never blocked *)

(** What a hole of a template shows: the field of [data] when it is
    present and not empty, and the placeholder otherwise. *)
Definition field_or (field : option string) (placeholder : string)
  : string :=
  match field with
  | Some (String c s) => String c s
  | _ => placeholder
  end.

(** The amount when it is present and neither zero nor NaN, as the host
    writes it, and the placeholder otherwise. *)
Definition amount_or {fmt : NumberFormat} (amount : option number)
  (placeholder : string) : string :=
  match amount with
  | Some (S754_zero _) | Some S754_nan | None => placeholder
  | Some n => numberToString n
  end.

(** The day of a timestamp: its characters before the first [T]. *)
Fixpoint day_of (iso : string) : string :=
  match iso with
  | EmptyString => EmptyString
  | String c rest =>
      if Ascii.eqb c "T"%char then EmptyString else String c (day_of rest)
  end.

End Spec.

(* ===================================================================== *)
(** * Further behaviour of the code, and what it is stated with          *)
(* ===================================================================== *)

Module Behaviour.

Import LegalEngine.

(** ** Clause risks *)

(** The five heuristics of the scanner on a lowercased clause, each with
    the sentence it contributes; the last one cites the credit rule of the
    law library. *)
Definition heuristics (lowerText docType : string) : list (bool * string) :=
  [ (mentions_arbitration lowerText, risk_arbitration);
    (mentions_indemnity lowerText, risk_indemnity);
    (mentions_perpetuity lowerText docType, risk_perpetuity);
    (mentions_penalty lowerText, risk_penalty);
    (mentions_confession lowerText,
     risk_confession ("16 CFR " ++ sect ++ " 444.2")) ].

(** The sentences of the heuristics that fire on a clause. *)
Definition findings (clauseText docType : string) : list string :=
  map snd (filter fst (heuristics (toLowerCase clauseText) docType)).

(** The word that opens the details of a verdict. *)
Definition outcome_word (v : ValidationStep) : string :=
  if passed v then "PASSED:" else "FAILED:".

(** ** Necessity ratio, outside the positive amounts *)

Definition is_finite (x : number) : bool :=
  match x with
  | S754_finite _ _ _ | S754_zero _ => true
  | _ => false
  end.

(** [x < 0]. *)
Definition below_zero (x : number) : Prop := ltb x Spec.zero = true.

(** The quotient of two numbers is undefined (NaN): one of them is NaN, a
    missing argument of the call for one, or both are zero, or both are
    infinite. *)
Definition undefined_ratio (x y : number) : bool :=
  match x, y with
  | S754_nan, _ | _, S754_nan => true
  | S754_zero _, S754_zero _ => true
  | S754_infinity _, S754_infinity _ => true
  | _, _ => false
  end.

(** ** Forms *)

(** A property that is the empty string, taken as absent; an amount that
    is zero or NaN, taken as absent. *)
Definition absent_if_empty (x : option string) : option string :=
  match x with
  | Some s => if truthy s then Some s else None
  | None => None
  end.

Definition absent_if_falsy (x : option number) : option number :=
  match x with
  | Some n => if number_truthy n then Some n else None
  | None => None
  end.

Definition without_empty_fields (data : FormData) : FormData :=
  {| amount := absent_if_falsy (amount data);
     lender := absent_if_empty (lender data);
     borrower := absent_if_empty (borrower data);
     seller := absent_if_empty (seller data);
     buyer := absent_if_empty (buyer data);
     client := absent_if_empty (client data);
     contractor := absent_if_empty (contractor data);
     collateral := absent_if_empty (collateral data);
     goods_description := absent_if_empty (goods_description data);
     services := absent_if_empty (services data);
     date := absent_if_empty (date data);
     state := absent_if_empty (state data);
     debtor := absent_if_empty (debtor data);
     secured_party := absent_if_empty (secured_party data);
     obligation := absent_if_empty (obligation data) |}.

(** The four form types of the generator. *)
Definition form_types : list string :=
  [ "promissory_note_ucc"; "security_agreement_ucc"; "bill_of_sale_ucc";
    "contractor_agreement" ].

(** ** The verdict as a JSON object *)

(** The members that [stringify] writes, as [JSON.parse] reads them. *)
Definition members_of (v : ValidationStep)
  : list (list N * JSON.value) :=
  ([ (JSON.units_of_string "rule_id",
      JSON.JString (JSON.units_of_string (rule_id v)));
     (JSON.units_of_string "passed", JSON.JBool (passed v));
     (JSON.units_of_string "details",
      JSON.JString (JSON.units_of_string (details v)));
     (JSON.units_of_string "evidence_source",
      JSON.JString (JSON.units_of_string (evidence_source v)));
     (JSON.units_of_string "timestamp",
      JSON.JString (JSON.units_of_string (timestamp v))) ]
   ++ match generated_content v with
      | Some g => [ (JSON.units_of_string "generated_content",
                     JSON.JString (JSON.units_of_string g)) ]
      | None => []
      end)%list.

(** ** The pseudo-hash, without its 32-bit operations *)

(** The polynomial of multiplier 31 over the code units of a string, on
    the integers. *)
Fixpoint polynomial (h : Z) (s : string) : Z :=
  match s with
  | EmptyString => h
  | String c s' => polynomial (31 * h + Z.of_nat (nat_of_ascii c)) s'
  end.

(** The number that a string of digits writes in a base up to 16. *)
Fixpoint read_digits (base acc : N) (s : string) : option N :=
  match s with
  | EmptyString => Some acc
  | String c s' =>
      match JSON.hex_value c with
      | Some d =>
          if (d <? base)%N then read_digits base (base * acc + d) s'
          else None
      | None => None
      end
  end.

(** ** The ledger over several calls *)

(** The arguments of one call of [addEntry], with the readings of the host
    during the call. *)
Record LogCall : Type := {
  call_readings : AuditContext.Readings;
  call_action : string;
  call_details : string;
  call_source : AuditContext.Source;
  call_status : option AuditContext.Status;
  call_metadata : option AuditContext.ArbiterMetadata
}.

Definition entry_of (c : LogCall) : AuditContext.AuditEntry :=
  AuditContext.newEntry (call_readings c) (call_action c) (call_details c)
    (call_source c) (call_status c) (call_metadata c).

Definition log (ledger : list AuditContext.AuditEntry) (c : LogCall)
  : list AuditContext.AuditEntry :=
  AuditContext.addEntry (call_readings c) (call_action c) (call_details c)
    (call_source c) (call_status c) (call_metadata c) ledger.

(** ** The critic *)



(** ** The parts of a rendered answer *)

(** No tag starts anywhere in a text. *)
Fixpoint tag_free (s : string) : bool :=
  match LegalAdvisor.match_tag s with
  | Some _ => false
  | None =>
      match s with
      | EmptyString => true
      | String _ s' => tag_free s'
      end
  end.

(** A text is one tag, from its bracket to its bracket. *)
Definition is_tag (m : string) : bool :=
  match LegalAdvisor.match_tag m with
  | Some (m', EmptyString) => String.eqb m' m
  | _ => false
  end.

(** Parts in turn: a text without a tag, a tag, a text without a tag, and
    so on, to a last text. *)
Fixpoint in_turn (parts : list string) : bool :=
  match parts with
  | [] => false
  | t :: [] => tag_free t
  | t :: m :: rest => tag_free t && is_tag m && in_turn rest
  end.

(** A character that a label can hold and be read back: no bracket that
    would close the tag, no colon, no line terminator. *)
Definition label_unit (c : ascii) : bool :=
  negb (Ascii.eqb c "]"%char) && negb (Ascii.eqb c ":"%char)
  && negb (LegalAdvisor.is_line_terminator c).

Fixpoint label_text (l : string) : bool :=
  match l with
  | EmptyString => true
  | String c l' => label_unit c && label_text l'
  end.

End Behaviour.

(* ===================================================================== *)
(** * Proofs                                                             *)
(* ===================================================================== *)

Import LegalEngine Spec.

(** ** Strings *)

Lemma prefix_refl (s : string) : String.prefix s s = true.
Proof.
  induction s as [|c s IH]; simpl; [reflexivity|].
  destruct (ascii_dec c c) as [_|Hne]; [exact IH | contradiction].
Qed.

Lemma prefix_app (s t : string) : String.prefix s (s ++ t) = true.
Proof.
  induction s as [|c s IH]; simpl.
  - destruct t; reflexivity.
  - destruct (ascii_dec c c) as [_|Hne]; [exact IH | contradiction].
Qed.

Lemma includes_app_r (s t u : string) :
  includes t u = true -> includes (s ++ t) u = true.
Proof.
  intros H. induction s as [|c s IH]; simpl; [exact H|].
  rewrite IH. apply orb_true_r.
Qed.

Lemma includes_app_l (s t u : string) :
  includes s u = true -> includes (s ++ t) u = true.
Proof.
  revert u. induction s as [|c s IH]; intros u H.
  - destruct u as [|d u]; simpl in H; [|discriminate].
    destruct t; reflexivity.
  - simpl in H. apply orb_true_iff in H. destruct H as [H|H].
    + destruct u as [|d u]; [reflexivity|].
      simpl in H. simpl.
      destruct (ascii_dec d c) as [->|Hne]; [|discriminate].
      assert (Hp : String.prefix u (s ++ t) = true).
      { clear IH. revert u H. induction s as [|e s IHs]; intros u H.
        - destruct u; [destruct t; reflexivity | discriminate].
        - destruct u as [|f u]; [reflexivity|]. simpl in H. simpl.
          destruct (ascii_dec f e); [apply IHs; exact H | discriminate]. }
      rewrite Hp. reflexivity.
    + simpl. rewrite (IH u H). apply orb_true_r.
Qed.

Lemma includes_self (s : string) : includes s s = true.
Proof.
  destruct s as [|c s]; [reflexivity|].
  unfold includes; fold includes. rewrite prefix_refl. reflexivity.
Qed.

(** A sentence of a joined array occurs in the joined text. *)
Lemma includes_join (sep m : string) (arr : list string) :
  In m arr -> includes (join sep arr) m = true.
Proof.
  unfold join. induction arr as [|x arr IH]; intros Hin; [destruct Hin|].
  destruct arr as [|y arr].
  - destruct Hin as [->|[]]. apply includes_self.
  - change (String.concat sep (x :: y :: arr))
      with (x ++ sep ++ String.concat sep (y :: arr)).
    destruct Hin as [->|Hin].
    + apply includes_app_l, includes_self.
    + apply includes_app_r, includes_app_r, IH, Hin.
Qed.

(** A text that contains [String c t] contains the character [c]. *)
Lemma includes_first_char (s t : string) (c : ascii) :
  includes s (String c t) = true ->
  existsb (Ascii.eqb c) (list_ascii_of_string s) = true.
Proof.
  induction s as [|d s IH]; simpl; [discriminate|].
  destruct (ascii_dec c d) as [->|Hne].
  - intros _. rewrite Ascii.eqb_refl. reflexivity.
  - intros H. rewrite IH; [apply orb_true_r | exact H].
Qed.

(** ** Ordinary expenses *)

Lemma array_includes_In (arr : list string) (x : string) :
  array_includes arr x = true <-> In x arr.
Proof.
  unfold array_includes. rewrite existsb_exists. split.
  - intros [y [Hin Heq]]. apply String.eqb_eq in Heq. subst. exact Hin.
  - intros Hin. exists x. split; [exact Hin | apply String.eqb_refl].
Qed.

(** The verdict of the ordinary checker is the table lookup. *)
Lemma verifyOrdinary_passed (now naics expense : string) :
  fulfils_passed (verifyOrdinary now naics expense)
    (String.eqb naics "238350"
     && array_includes carpenter_items (toLowerCase expense)).
Proof.
  unfold fulfils_passed, verifyOrdinary, query.
  destruct (String.eqb naics "238350"
            && array_includes carpenter_items (toLowerCase expense));
    simpl; eexists; split; reflexivity.
Qed.

(** C5. Fail-closed ordinary checker: a pair absent from the table (an
    industry code other than 238350, or an expense whose lowercased form is
    not a carpenter item) gets a verdict with [passed = false]; the truck
    of a carpenter passes and the laptop does not. *)
Theorem verifyOrdinary_fail_closed (now : string) :
  (forall industry_code expense_category,
      absent_from_table industry_code expense_category ->
      fulfils_passed (verifyOrdinary now industry_code expense_category)
                     false)
  /\ fulfils_passed (verifyOrdinary now "238350" "truck") true
  /\ fulfils_passed (verifyOrdinary now "238350" "laptop") false.
Proof.
  split; [|split].
  - intros naics expense Habs.
    destruct (verifyOrdinary_passed now naics expense) as [v [Hv Hp]].
    exists v. split; [exact Hv|]. rewrite Hp.
    apply andb_false_iff.
    destruct Habs as [Hn|He].
    + left. apply String.eqb_neq. exact Hn.
    + right. apply not_true_is_false. intros Hin.
      apply He. apply array_includes_In in Hin. exact Hin.
  - apply (verifyOrdinary_passed now "238350" "truck").
  - apply (verifyOrdinary_passed now "238350" "laptop").
Qed.

Lemma verifyOrdinary_fail_closed_witness :
  absent_from_table "541110" "Truck"
  /\ fulfils_passed
       (verifyOrdinary "2026-01-05T09:00:00.000Z" "541110" "Truck") false.
Proof.
  assert (H : absent_from_table "541110" "Truck").
  { left. discriminate. }
  split; [exact H|].
  exact (proj1 (verifyOrdinary_fail_closed "2026-01-05T09:00:00.000Z")
           "541110" "Truck" H).
Defined.

(** ** Negotiability *)

(** The lookup of the governing citation succeeds. *)
Lemma consultStatute_UCC_3_104 :
  exists r, consultStatute "UCC 3-104" = Normal r
            /\ citation r = Some ("Uniform Commercial Code " ++ sect ++ " 3-104").
Proof. eexists. split; vm_compute; reflexivity. Qed.

(** The checker returns a verdict built from the collected failures. *)
Lemma verifyNegotiability_verdict (now : string) (terms : InstrumentTerms) :
  exists v,
    verifyNegotiability now terms = Normal v
    /\ rule_id v = "UCC_3_104"
    /\ passed v = (List.length (collect_failures terms) =? 0)%nat
    /\ details v =
         (if passed v
          then "PASSED: Instrument meets all UCC 3-104 requirements for negotiability."
          else "FAILED: Non-negotiable. Violations: "
               ++ join ", " (collect_failures terms)).
Proof.
  unfold verifyNegotiability.
  destruct consultStatute_UCC_3_104 as [r [-> _]].
  simpl. eexists. split; [reflexivity|]. simpl. repeat split.
Qed.




(** ** Forms *)

Section FormProofs.
Context {fmt : NumberFormat}.

(** The body of [generateVerifiedForm] at each of the four form types. *)
Lemma generateVerifiedForm_promissory_note (now : string) (data : FormData) :
  generateVerifiedForm now "promissory_note_ucc" data =
  (let* check :=
     verifyNegotiability now
       {| promise_type := unconditional;
          amount_type := fixed;
          currency := Some "USD";
          payable_to := order;
          timing := if is_truthy (date data) then definite else demand;
          other_undertakings := false |} in
   if passed check
   then Normal {| markdown := promissory_note_template data;
                  validation := check |}
   else Normal {| markdown := blocked_promissory_note check;
                  validation := check |}).
Proof. reflexivity. Qed.

Lemma consultStatute_UCC_9_203 :
  exists r, consultStatute "UCC 9-203" = Normal r
            /\ citation r = Some ("Uniform Commercial Code " ++ sect ++ " 9-203").
Proof. eexists. split; vm_compute; reflexivity. Qed.

Lemma generateVerifiedForm_security_agreement (now : string)
  (data : FormData) :
  exists r,
    generateVerifiedForm now "security_agreement_ucc" data = Normal r
    /\ passed (validation r) = hasCollateral data
    /\ rule_id (validation r) = "UCC_9_203"
    /\ markdown r = (if hasCollateral data
                     then security_agreement_template now data
                     else blocked_security_agreement).
Proof.
  change (generateVerifiedForm now "security_agreement_ucc" data)
    with (if hasCollateral data
          then
            let* law := consultStatute "UCC 9-203" in
            Normal
              {| markdown := security_agreement_template now data;
                 validation :=
                   {| rule_id := "UCC_9_203";
                      passed := true;
                      details := "PASSED: Contains granting clause and collateral description (UCC 9-203).";
                      evidence_source :=
                        or_default (citation law) "UCC Article 9";
                      timestamp := now;
                      generated_content := None |} |}
          else
            Normal
              {| markdown := blocked_security_agreement;
                 validation :=
                   {| rule_id := "UCC_9_203";
                      passed := false;
                      details := "FAILED: Missing sufficient description of Collateral (UCC 9-108).";
                      evidence_source := "UCC Article 9";
                      timestamp := now;
                      generated_content := None |} |}).
  destruct (hasCollateral data).
  - destruct consultStatute_UCC_9_203 as [law [-> _]].
    eexists. split; [reflexivity|]. repeat split.
  - eexists. split; [reflexivity|]. repeat split.
Qed.

Lemma generateVerifiedForm_bill_of_sale (now : string) (data : FormData) :
  generateVerifiedForm now "bill_of_sale_ucc" data =
  Normal
    {| markdown := bill_of_sale_template now data;
       validation :=
         {| rule_id := "UCC_2_201";
            passed := true;
            details := "PASSED: Written memorandum of sale (UCC 2-201).";
            evidence_source := "UCC Article 2";
            timestamp := now;
            generated_content := None |} |}.
Proof. reflexivity. Qed.

Lemma generateVerifiedForm_contractor_agreement (now : string)
  (data : FormData) :
  generateVerifiedForm now "contractor_agreement" data =
  Normal
    {| markdown := contractor_agreement_template data;
       validation :=
         {| rule_id := "COMMON_LAW_AGENCY";
            passed := true;
            details := "PASSED: Explicitly defines Independent Contractor relationship.";
            evidence_source := "IRS Common Law Rules";
            timestamp := now;
            generated_content := None |} |}.
Proof. reflexivity. Qed.

(** Every template opens with a line feed. *)
Lemma join_nl_empty_first (x : string) (l : list string) :
  join nl ("" :: x :: l) = String "010"%char (join nl (x :: l)).
Proof. reflexivity. Qed.

Lemma hasCollateral_described (data : FormData) :
  hasCollateral data = true <-> collateral_described data.
Proof.
  unfold hasCollateral, collateral_described. split.
  - destruct (collateral data) as [c|]; [|discriminate].
    intros H. apply andb_true_iff in H. destruct H as [_ H].
    exists c. split; [reflexivity | apply Nat.ltb_lt; exact H].
  - intros [c [-> Hlen]]. apply andb_true_iff. split.
    + destruct c; [simpl in Hlen; lia | reflexivity].
    + apply Nat.ltb_lt. exact Hlen.
Qed.

(** C3. Form block for security agreements: the verdict passes exactly
    when the collateral description is present and longer than 3
    characters; when it fails, as it does for the empty description, the
    text carries the marker GENERATION BLOCKED and contains no rendering of
    the agreement template. *)
Theorem security_agreement_form_block (now : string) (data : FormData) :
  exists r,
    generateVerifiedForm now "security_agreement_ucc" data = Normal r
    /\ (passed (validation r) = true <-> collateral_described data)
    /\ (passed (validation r) = false ->
        includes (markdown r) "GENERATION BLOCKED" = true
        /\ forall now' data',
             includes (markdown r) (security_agreement_template now' data')
             = false)
    /\ (collateral data = Some "" -> passed (validation r) = false).
Proof.
  destruct (generateVerifiedForm_security_agreement now data)
    as [r [Hr [Hp [_ Hm]]]].
  exists r. split; [exact Hr|]. rewrite Hp, Hm. split; [|split].
  - apply hasCollateral_described.
  - intros ->. split; [reflexivity|].
    intros now' data'. apply not_true_is_false. intros Hinc.
    unfold security_agreement_template in Hinc.
    rewrite join_nl_empty_first in Hinc.
    apply includes_first_char in Hinc.
    vm_compute in Hinc. discriminate.
  - intros Hc. unfold hasCollateral. rewrite Hc. reflexivity.
Qed.

(** C9. A promissory note is checked with hard-coded compliant terms, so
    for every [data] the verdict passes and the text is the rendered note,
    never the blocked message. *)
Theorem promissory_note_never_blocked (now : string) (data : FormData) :
  exists terms r,
    compliant_terms terms
    /\ verifyNegotiability now terms = Normal (validation r)
    /\ generateVerifiedForm now "promissory_note_ucc" data = Normal r
    /\ passed (validation r) = true
    /\ markdown r = promissory_note_template data
    /\ includes (markdown r) "[SIGNATURE_FIELD:Borrower Signature]" = true
    /\ forall check, markdown r <> blocked_promissory_note check.
Proof.
  rewrite generateVerifiedForm_promissory_note.
  set (terms := {| promise_type := unconditional;
                   amount_type := fixed;
                   currency := Some "USD";
                   payable_to := order;
                   timing := if is_truthy (date data)
                             then definite else demand;
                   other_undertakings := false |}).
  destruct (verifyNegotiability_verdict now terms) as [v [Hv [_ [Hp _]]]].
  assert (Hpass : passed v = true).
  { rewrite Hp. unfold terms. destruct (is_truthy (date data)); reflexivity. }
  exists terms, {| markdown := promissory_note_template data;
                   validation := v |}.
  split.
  { unfold compliant_terms, terms. simpl.
    destruct (is_truthy (date data)); auto 6. }
  split; [exact Hv|].
  split; [rewrite Hv; simpl; rewrite Hpass; reflexivity|].
  split; [exact Hpass|].
  split; [reflexivity|].
  split.
  { cbn [markdown]. unfold promissory_note_template.
    apply includes_join. simpl. auto 30. }
  intros check H. simpl in H.
  unfold promissory_note_template in H.
  rewrite join_nl_empty_first in H.
  unfold blocked_promissory_note in H. simpl in H. discriminate.
Qed.

(** The holes of the templates: [x || d] shows the field or the
    placeholder. *)
Lemma field_or_or_default (field : option string) (placeholder : string) :
  field_or field placeholder = or_default field placeholder.
Proof. destruct field as [[|c s]|]; reflexivity. Qed.

Lemma amount_or_num_or (amount : option number) (placeholder : string) :
  amount_or amount placeholder = num_or amount placeholder.
Proof. destruct amount as [[| | |]|]; reflexivity. Qed.

Lemma day_of_before_T (iso : string) : day_of iso = before_T iso.
Proof.
  induction iso as [|c rest IH]; [reflexivity|].
  simpl. rewrite IH. reflexivity.
Qed.

(** C10. Bills of sale and contractor agreements are never blocked: for
    every [data] the verdict passes and the text is the whole template,
    line by line from the line feed before its heading to the line feed
    after its last signature, each hole filled with its field of [data]
    when that is present and not empty and with its placeholder
    otherwise, whichever fields of [data] are present. *)
Theorem bill_of_sale_and_contractor_always_pass (now : string)
  (data : FormData) :
  (exists r,
      generateVerifiedForm now "bill_of_sale_ucc" data = Normal r
      /\ passed (validation r) = true
      /\ rule_id (validation r) = "UCC_2_201"
      /\ markdown r = bill_of_sale_template now data
      /\ markdown r =
         String.concat nl
           [ "";
             "# BILL OF SALE (UCC Article 2)";
             "";
             "**Seller:** " ++ field_or (seller data) "___";
             "**Buyer:** " ++ field_or (buyer data) "___";
             "**Date:** " ++ field_or (date data) (day_of now);
             "**Consideration:** $" ++ amount_or (amount data) "___";
             "";
             "FOR VALUE RECEIVED, Seller hereby sells, transfers, and conveys to Buyer the following goods (the "
               ++ dquote ++ "Goods" ++ dquote ++ "):";
             "";
             "**DESCRIPTION OF GOODS:**";
             field_or (goods_description data)
               "[Insert Description and Serial Numbers]";
             "";
             "**WARRANTIES:**";
             "Seller warrants that they have good and marketable title to the Goods, free of all liens and encumbrances. The Goods are sold "
               ++ dquote ++ "AS-IS" ++ dquote
               ++ " unless otherwise expressly stated.";
             "";
             "[SIGNATURE_FIELD:Seller]";
             "**" ++ field_or (seller data) "Seller" ++ "**";
             "";
             "[SIGNATURE_FIELD:Buyer]";
             "**" ++ field_or (buyer data) "Buyer" ++ "**";
             "" ]
      /\ includes (markdown r) "# BILL OF SALE (UCC Article 2)" = true
      /\ includes (markdown r) "[SIGNATURE_FIELD:Buyer]" = true)
  /\ (exists r,
         generateVerifiedForm now "contractor_agreement" data = Normal r
         /\ passed (validation r) = true
         /\ rule_id (validation r) = "COMMON_LAW_AGENCY"
         /\ markdown r = contractor_agreement_template data
         /\ markdown r =
            String.concat nl
              [ "";
                "# INDEPENDENT CONTRACTOR AGREEMENT";
                "";
                "This Agreement is made between **"
                  ++ field_or (client data) "Client" ++ "** and **"
                  ++ field_or (contractor data) "Contractor" ++ "**.";
                "";
                "**1. SERVICES.**";
                "Contractor agrees to perform the following services:";
                field_or (services data) "[Describe Services]";
                "";
                "**2. INDEPENDENT CONTRACTOR STATUS.**";
                "Contractor is an independent contractor, not an employee. Contractor is responsible for all taxes (including Self-Employment Tax). Client shall not withhold taxes or provide benefits.";
                "";
                "**3. WORK FOR HIRE.**";
                "All deliverables created under this Agreement shall be considered "
                  ++ dquote ++ "Work Made for Hire" ++ dquote
                  ++ " and shall be the sole property of the Client.";
                "";
                "**4. CONFIDENTIALITY.**";
                "Contractor acknowledges access to confidential information and agrees not to disclose such information to third parties.";
                "";
                "[SIGNATURE_FIELD:Contractor]";
                "**" ++ field_or (contractor data) "Contractor" ++ "**";
                "";
                "[SIGNATURE_FIELD:Client]";
                "**" ++ field_or (client data) "Client" ++ "**";
                "" ]
         /\ includes (markdown r) "# INDEPENDENT CONTRACTOR AGREEMENT" = true
         /\ includes (markdown r) "[SIGNATURE_FIELD:Client]" = true).
Proof.
  split.
  - rewrite generateVerifiedForm_bill_of_sale.
    eexists. do 4 (split; [reflexivity|]).
    cbn [markdown]. unfold bill_of_sale_template. split.
    + rewrite amount_or_num_or, !field_or_or_default.
      rewrite (day_of_before_T now). reflexivity.
    + split; apply includes_join; simpl; auto 25.
  - rewrite generateVerifiedForm_contractor_agreement.
    eexists. do 4 (split; [reflexivity|]).
    cbn [markdown]. unfold contractor_agreement_template. split.
    + rewrite !field_or_or_default. reflexivity.
    + split; apply includes_join; simpl; auto 25.
Qed.

End FormProofs.

Lemma security_agreement_form_block_witness :
  collateral (collateral_only "") = Some ""
  /\ exists r,
       @generateVerifiedForm sample_format "2026-01-05T09:00:00.000Z"
         "security_agreement_ucc" (collateral_only "") = Normal r
       /\ passed (validation r) = false
       /\ includes (markdown r) "GENERATION BLOCKED" = true.
Proof.
  split; [reflexivity|].
  destruct (@security_agreement_form_block sample_format
              "2026-01-05T09:00:00.000Z" (collateral_only ""))
    as [r [Hr [_ [Hblocked Hempty]]]].
  exists r. split; [exact Hr|].
  split; [exact (Hempty eq_refl)|].
  exact (proj1 (Hblocked (Hempty eq_refl))).
Defined.

(** ** Necessity ratio *)




Section NecessaryProofs.
Context {fmt : NumberFormat}.

(** The checker always returns a verdict, whose [passed] is the
    comparison of the quotient with one half. *)
Lemma verifyNecessary_verdict (now : string) (expense revenue : number) :
  exists v,
    verifyNecessary now expense revenue = Normal v
    /\ rule_id v = "rule_is_necessary"
    /\ passed v = leb (div expense revenue) half.
Proof. eexists. split; [reflexivity|]. split; reflexivity. Qed.




(** The amended C4. The necessity checker has no guard on the revenue:
    for a revenue that is zero or negative it returns a verdict, and no
    error.  Under a positive expense a revenue of zero makes the ratio
    infinite, with the sign of the zero: for the zero [+0] the ratio is
    plus infinity and the verdict a failed one, for the zero [-0], which
    is also equal to 0, the ratio is minus infinity and the verdict a
    passed one. *)
Theorem verifyNecessary_no_revenue_guard (now : string)
  (expense_amount business_revenue : number) :
  non_positive business_revenue ->
  exists v,
    verifyNecessary now expense_amount business_revenue = Normal v
    /\ rule_id v = "rule_is_necessary"
    /\ (business_revenue = zero -> above_zero expense_amount ->
        div expense_amount business_revenue = S754_infinity false
        /\ passed v = false)
    /\ (business_revenue = S754_zero true -> above_zero expense_amount ->
        div expense_amount business_revenue = S754_infinity true
        /\ passed v = true)
    /\ (eqb business_revenue zero = true -> above_zero expense_amount ->
        exists negative,
          business_revenue = S754_zero negative
          /\ div expense_amount business_revenue = S754_infinity negative
          /\ passed v = negative).
Proof.
  intros _.
  destruct (verifyNecessary_verdict now expense_amount business_revenue)
    as [v [Hv [Hr Hp]]].
  exists v. repeat (split; [assumption|]).
  assert (Hz : forall negative,
             business_revenue = S754_zero negative ->
             above_zero expense_amount ->
             div expense_amount business_revenue = S754_infinity negative
             /\ passed v = negative).
  { intros negative -> Hpos. rewrite Hp.
    destruct expense_amount as [s|s| |s m e]; try discriminate Hpos;
      destruct s; try discriminate Hpos; destruct negative;
      split; reflexivity. }
  split; [exact (Hz false)|]. split; [exact (Hz true)|].
  intros He Hpos.
  destruct business_revenue as [s|s| |s m e];
    try discriminate He; try (destruct s; discriminate He).
  exists s. split; [reflexivity|]. apply Hz; [reflexivity | exact Hpos].
Qed.

End NecessaryProofs.

(** The examples of the specification: 35000 of 70000 is the ratio 0.5 and
    passes, as does 30000 of 70000; 40000 of 70000 fails, and so does
    500001 of 1000000.  The number next above 1, over 2, is the number next
    above 0.5, and fails. *)
Example verifyNecessary_examples :
  div (of_Z 35000) (of_Z 70000) = half
  /\ leb (div (of_Z 35000) (of_Z 70000)) half = true
  /\ leb (div (of_Z 30000) (of_Z 70000)) half = true
  /\ leb (div (of_Z 40000) (of_Z 70000)) half = false
  /\ leb (div (of_Z 500001) (of_Z 1000000)) half = false
  /\ div (S754_finite false 4503599627370497 (-52)) (of_Z 2)
     = S754_finite false 4503599627370497 (-53)
  /\ leb (div (S754_finite false 4503599627370497 (-52)) (of_Z 2)) half
     = false.
Proof. vm_compute. repeat split. Qed.


(** C4 as stated fails: with a revenue of zero the checker rejects
    nothing; it returns a failed verdict. *)
Lemma verifyNecessary_zero_revenue_not_rejected :
  non_positive (of_Z 0)
  /\ (exists v,
         @verifyNecessary sample_format "2026-01-05T09:00:00.000Z"
           (of_Z 30000) (of_Z 0) = Normal v
         /\ passed v = false)
  /\ ~ (exists e,
           @verifyNecessary sample_format "2026-01-05T09:00:00.000Z"
             (of_Z 30000) (of_Z 0) = Throw e).
Proof.
  split; [vm_compute; reflexivity|]. split.
  - eexists. split; [reflexivity|]. vm_compute. reflexivity.
  - intros [e H]. discriminate H.
Qed.

Lemma verifyNecessary_no_revenue_guard_witness :
  non_positive (S754_zero true)
  /\ eqb (S754_zero true) zero = true
  /\ above_zero (of_Z 30000)
  /\ exists v,
       @verifyNecessary sample_format "2026-01-05T09:00:00.000Z"
         (of_Z 30000) (S754_zero true) = Normal v
       /\ div (of_Z 30000) (S754_zero true) = S754_infinity true
       /\ passed v = true.
Proof.
  assert (H0 : non_positive (S754_zero true)) by (vm_compute; reflexivity).
  assert (He : eqb (S754_zero true) zero = true) by (vm_compute; reflexivity).
  assert (Hp : above_zero (of_Z 30000)) by (vm_compute; reflexivity).
  split; [exact H0|]. split; [exact He|]. split; [exact Hp|].
  destruct (@verifyNecessary_no_revenue_guard sample_format
              "2026-01-05T09:00:00.000Z" (of_Z 30000) (S754_zero true) H0)
    as [v [Hv [_ [_ [Hz _]]]]].
  exists v. split; [exact Hv|]. exact (Hz eq_refl Hp).
Defined.

(** ** JSON.parse: the fuel is enough *)

Ltac break_match_hyp H :=
  repeat match type of H with
         | context [match ?x with _ => _ end] => destruct x eqn:?
         | context [if ?x then _ else _] => destruct x eqn:?
         end.

Lemma skip_ws_length (s : string) :
  String.length (JSON.skip_ws s) <= String.length s.
Proof.
  induction s as [|c s IH]; simpl; [lia|].
  destruct (JSON.is_ws c); simpl; lia.
Qed.

Lemma parse_string_body_shrinks (s : string) (us : list N) (r : string) :
  JSON.parse_string_body s = Some (us, r) ->
  String.length r < String.length s.
Proof.
  remember (String.length s) as n eqn:Hn.
  assert (Hle : String.length s <= n) by lia. clear Hn.
  revert s us r Hle.
  induction n as [|n IH]; intros s us r Hle H;
    destruct s as [|c rest]; simpl in *; try discriminate; try lia.
  break_match_hyp H; try discriminate;
    injection H as <- <-; subst; simpl in *;
    repeat match goal with
           | Hq : JSON.parse_string_body ?t = Some (_, _) |- _ =>
               apply IH in Hq; [|simpl in *; lia]
           end;
    simpl in *; try lia.
Qed.

Lemma take_digits_length (s ds r : string) :
  JSON.take_digits s = (ds, r) -> String.length r <= String.length s.
Proof.
  revert ds r. induction s as [|c s IH]; intros ds r H; simpl in H.
  - injection H as <- <-. simpl. lia.
  - destruct (JSON.is_digit c).
    + destruct (JSON.take_digits s) as [ds' r'] eqn:E.
      injection H as <- <-. specialize (IH _ _ eq_refl). simpl. lia.
    + injection H as <- <-. simpl. lia.
Qed.

Ltac break_matches :=
  repeat match goal with
         | H : context [match ?x with _ => _ end] |- _ =>
             destruct x eqn:?; try discriminate
         | H : (_, _) = (_, _) |- _ => injection H as <- <-
         | H : Some _ = Some _ |- _ => injection H as <- <-
         | H : JSON.take_digits _ = (_, _) |- _ =>
             apply take_digits_length in H
         end.

Lemma parse_int_shrinks (s i r : string) :
  JSON.parse_int s = Some (i, r) -> String.length r < String.length s.
Proof.
  unfold JSON.parse_int. intros H. break_matches; subst; simpl in *; lia.
Qed.

Lemma parse_frac_length (s f r : string) :
  JSON.parse_frac s = Some (f, r) -> String.length r <= String.length s.
Proof.
  unfold JSON.parse_frac. intros H. break_matches; subst; simpl in *; lia.
Qed.

Lemma parse_exp_length (s e r : string) :
  JSON.parse_exp s = Some (e, r) -> String.length r <= String.length s.
Proof.
  unfold JSON.parse_exp, JSON.parse_exp_digits. intros H.
  break_matches; subst; simpl in *; lia.
Qed.

Lemma parse_number_shrinks (s lx r : string) :
  JSON.parse_number s = Some (lx, r) ->
  String.length r < String.length s.
Proof.
  unfold JSON.parse_number. intros H.
  destruct (match s with
            | String "-"%char s' => ("-", s')
            | _ => ("", s)
            end) as [sign s1] eqn:Hs.
  assert (H1 : String.length s1 <= String.length s).
  { clear H. break_matches; subst; simpl; lia. }
  destruct (JSON.parse_int s1) as [[i s2]|] eqn:Hi; [|discriminate].
  destruct (JSON.parse_frac s2) as [[f s3]|] eqn:Hf; [|discriminate].
  destruct (JSON.parse_exp s3) as [[e s4]|] eqn:He; [|discriminate].
  injection H as <- <-.
  apply parse_int_shrinks in Hi. apply parse_frac_length in Hf.
  apply parse_exp_length in He. lia.
Qed.

Lemma strip_prefix_length (lit s r : string) :
  JSON.strip_prefix lit s = Some r ->
  String.length r + String.length lit = String.length s.
Proof.
  revert s. induction lit as [|a lit IH]; intros s H; simpl in H.
  - injection H as <-. simpl. lia.
  - destruct s as [|b s]; [discriminate|].
    destruct (Ascii.eqb a b); [|discriminate].
    apply IH in H. simpl. lia.
Qed.

Lemma expect_length (c : ascii) (s r : string) :
  JSON.expect c s = Some r -> String.length s = S (String.length r).
Proof.
  unfold JSON.expect. destruct s as [|d s]; [discriminate|].
  destruct (Ascii.eqb d c); [|discriminate].
  intros H. injection H as <-. reflexivity.
Qed.

(** A successful parse consumes at least one character. *)
Lemma parse_shrinks (fuel : nat) :
  (forall s v r, JSON.parse_value fuel s = Some (v, r) ->
                 String.length r < String.length s)
  /\ (forall s vs r, JSON.parse_elements fuel s = Some (vs, r) ->
                     String.length r < String.length s)
  /\ (forall s ms r, JSON.parse_members fuel s = Some (ms, r) ->
                     String.length r < String.length s).
Proof.
  induction fuel as [|fuel [IHv [IHe IHm]]];
    [repeat split; intros; discriminate|].
  split; [|split].
  - intros s v r H.
    cbn -[JSON.strip_prefix JSON.parse_number JSON.parse_string_body
          JSON.skip_ws JSON.expect] in H.
    pose proof (skip_ws_length s) as Hs.
    destruct (JSON.skip_ws s) as [|c rest] eqn:Es; [discriminate|].
    pose proof (skip_ws_length rest) as Hrest. simpl in Hs.
    repeat match type of H with
           | (if ?b then _ else _) = _ => destruct b
           end.
    + destruct (JSON.expect "}" (JSON.skip_ws rest)) as [rest'|] eqn:Ex.
      * injection H as <- <-. apply expect_length in Ex. lia.
      * destruct (JSON.parse_members fuel rest) as [[ms r']|] eqn:Em;
          [|discriminate].
        injection H as <- <-. apply IHm in Em. lia.
    + destruct (JSON.expect "]" (JSON.skip_ws rest)) as [rest'|] eqn:Ex.
      * injection H as <- <-. apply expect_length in Ex. lia.
      * destruct (JSON.parse_elements fuel rest) as [[vs r']|] eqn:Ee;
          [|discriminate].
        injection H as <- <-. apply IHe in Ee. lia.
    + destruct (JSON.parse_string_body rest) as [[us r']|] eqn:Eb;
        [|discriminate].
      injection H as <- <-. apply parse_string_body_shrinks in Eb. lia.
    + destruct (JSON.strip_prefix "true" (String c rest)) as [r'|] eqn:El;
        [|discriminate].
      injection H as <- <-. apply strip_prefix_length in El. simpl in El. lia.
    + destruct (JSON.strip_prefix "false" (String c rest)) as [r'|] eqn:El;
        [|discriminate].
      injection H as <- <-. apply strip_prefix_length in El. simpl in El. lia.
    + destruct (JSON.strip_prefix "null" (String c rest)) as [r'|] eqn:El;
        [|discriminate].
      injection H as <- <-. apply strip_prefix_length in El. simpl in El. lia.
    + destruct (JSON.parse_number (String c rest)) as [[lx r']|] eqn:En;
        [|discriminate].
      injection H as <- <-. apply parse_number_shrinks in En. simpl in En. lia.
  - intros s vs r H.
    cbn -[JSON.skip_ws] in H.
    destruct (JSON.parse_value fuel s) as [[v r1]|] eqn:Ev; [|discriminate].
    apply IHv in Ev. pose proof (skip_ws_length r1) as H1.
    destruct (JSON.skip_ws r1) as [|c r2] eqn:E1; [discriminate|].
    simpl in H1.
    destruct (Ascii.eqb c ",").
    + destruct (JSON.parse_elements fuel r2) as [[vs' r3]|] eqn:Ee;
        [|discriminate].
      injection H as <- <-. apply IHe in Ee. lia.
    + destruct (Ascii.eqb c "]"); [|discriminate].
      injection H as <- <-. lia.
  - intros s ms r H.
    cbn -[JSON.parse_string_body JSON.skip_ws JSON.expect] in H.
    pose proof (skip_ws_length s) as Hs.
    destruct (JSON.expect "034" (JSON.skip_ws s)) as [r0|] eqn:E0;
      [|discriminate].
    apply expect_length in E0.
    destruct (JSON.parse_string_body r0) as [[k r1]|] eqn:Ek; [|discriminate].
    apply parse_string_body_shrinks in Ek.
    pose proof (skip_ws_length r1) as H1.
    destruct (JSON.expect ":" (JSON.skip_ws r1)) as [r2|] eqn:E2;
      [|discriminate].
    apply expect_length in E2.
    destruct (JSON.parse_value fuel r2) as [[v r3]|] eqn:Ev; [|discriminate].
    apply IHv in Ev. pose proof (skip_ws_length r3) as H3.
    destruct (JSON.skip_ws r3) as [|c r4] eqn:E3; [discriminate|].
    simpl in H3.
    destruct (Ascii.eqb c ",").
    + destruct (JSON.parse_members fuel r4) as [[ms' r5]|] eqn:Em;
        [|discriminate].
      injection H as <- <-. apply IHm in Em. lia.
    + destruct (Ascii.eqb c "}"); [|discriminate].
      injection H as <- <-. lia.
Qed.

(** The result at a fuel depends only on the results of the nested calls on
    shorter texts. *)
Lemma parse_value_congr (g f : nat) (s : string) :
  (forall r, String.length r < String.length s ->
             JSON.parse_members g r = JSON.parse_members f r) ->
  (forall r, String.length r < String.length s ->
             JSON.parse_elements g r = JSON.parse_elements f r) ->
  JSON.parse_value (S g) s = JSON.parse_value (S f) s.
Proof.
  intros Hm He.
  cbn -[JSON.strip_prefix JSON.parse_number JSON.parse_string_body
        JSON.skip_ws JSON.expect].
  pose proof (skip_ws_length s) as Hs.
  destruct (JSON.skip_ws s) as [|c rest]; [reflexivity|]. simpl in Hs.
  rewrite Hm, He by lia. reflexivity.
Qed.

Lemma parse_elements_congr (g f : nat) (s : string) :
  (forall r, String.length r <= String.length s ->
             JSON.parse_value g r = JSON.parse_value f r) ->
  (forall r, String.length r < String.length s ->
             JSON.parse_elements g r = JSON.parse_elements f r) ->
  JSON.parse_elements (S g) s = JSON.parse_elements (S f) s.
Proof.
  intros Hv He. cbn -[JSON.skip_ws].
  rewrite Hv by lia.
  destruct (JSON.parse_value f s) as [[v r1]|] eqn:Ev; [|reflexivity].
  apply (proj1 (parse_shrinks f)) in Ev.
  pose proof (skip_ws_length r1) as H1.
  destruct (JSON.skip_ws r1) as [|c r2]; [reflexivity|]. simpl in H1.
  rewrite He by lia. reflexivity.
Qed.

Lemma parse_members_congr (g f : nat) (s : string) :
  (forall r, String.length r < String.length s ->
             JSON.parse_value g r = JSON.parse_value f r) ->
  (forall r, String.length r < String.length s ->
             JSON.parse_members g r = JSON.parse_members f r) ->
  JSON.parse_members (S g) s = JSON.parse_members (S f) s.
Proof.
  intros Hv Hm.
  cbn -[JSON.parse_string_body JSON.skip_ws JSON.expect].
  pose proof (skip_ws_length s) as Hs.
  destruct (JSON.expect "034" (JSON.skip_ws s)) as [r0|] eqn:E0;
    [|reflexivity].
  apply expect_length in E0.
  destruct (JSON.parse_string_body r0) as [[k r1]|] eqn:Ek; [|reflexivity].
  apply parse_string_body_shrinks in Ek.
  pose proof (skip_ws_length r1) as H1.
  destruct (JSON.expect ":" (JSON.skip_ws r1)) as [r2|] eqn:E2;
    [|reflexivity].
  apply expect_length in E2.
  rewrite Hv by lia.
  destruct (JSON.parse_value f r2) as [[v r3]|] eqn:Ev; [|reflexivity].
  apply (proj1 (parse_shrinks f)) in Ev.
  pose proof (skip_ws_length r3) as H3.
  destruct (JSON.skip_ws r3) as [|c r4]; [reflexivity|]. simpl in H3.
  rewrite Hm by lia. reflexivity.
Qed.

(** Beyond twice the length of the text, one more unit of fuel changes
    nothing. *)
Lemma parse_stable (fuel : nat) :
  (forall s, 2 * String.length s + 1 <= fuel ->
             JSON.parse_value (S fuel) s = JSON.parse_value fuel s)
  /\ (forall s, 2 * String.length s + 2 <= fuel ->
                JSON.parse_elements (S fuel) s = JSON.parse_elements fuel s)
  /\ (forall s, 2 * String.length s + 1 <= fuel ->
                JSON.parse_members (S fuel) s = JSON.parse_members fuel s).
Proof.
  induction fuel as [|fuel [IHv [IHe IHm]]].
  - repeat split; intros s H; lia.
  - split; [|split]; intros s H.
    + apply parse_value_congr; intros r Hr; [apply IHm | apply IHe]; lia.
    + apply parse_elements_congr; intros r Hr; [apply IHv | apply IHe]; lia.
    + apply parse_members_congr; intros r Hr; [apply IHv | apply IHm]; lia.
Qed.

(** [JSON.parse] has fuel enough: any larger fuel gives the same parse. *)
Lemma parse_value_fuel_enough (text : string) (extra : nat) :
  JSON.parse_value (S (2 * String.length text) + extra) text
  = JSON.parse_value (S (2 * String.length text)) text.
Proof.
  induction extra as [|extra IH].
  - rewrite Nat.add_0_r. reflexivity.
  - rewrite Nat.add_succ_r, <- IH.
    apply (proj1 (parse_stable _)). lia.
Qed.

(** ** Policy gate: the predicate over the run history *)

Lemma pop_cons_Some {A : Type} (arr : list A) (x : A) :
  exists r, Auditor.pop (x :: arr) = Some r.
Proof.
  revert x. induction arr as [|y arr IH]; intros x.
  - exists x. reflexivity.
  - destruct (IH y) as [r Hr]. exists r. exact Hr.
Qed.

Lemma pop_cons {A : Type} (arr : list A) (x : A) :
  Auditor.pop (x :: arr) =
  match Auditor.pop arr with Some r => Some r | None => Some x end.
Proof.
  destruct arr as [|y arr]; [reflexivity|].
  destruct (pop_cons_Some arr y) as [r Hr].
  change (Auditor.pop (x :: y :: arr)) with (Auditor.pop (y :: arr)).
  rewrite Hr. reflexivity.
Qed.

(** Filtering and taking the last element finds the most recent ordinary
    result. *)
Lemma pop_filter_most_recent (h : list Auditor.HistoryItem) :
  Auditor.pop (filter Auditor.is_ordinary_result h) = most_recent_ordinary h.
Proof.
  induction h as [|item h IH]; [reflexivity|].
  simpl. rewrite <- IH.
  destruct (Auditor.is_ordinary_result item).
  - apply pop_cons.
  - destruct (Auditor.pop _); reflexivity.
Qed.

Lemma most_recent_ordinary_type (h : list Auditor.HistoryItem)
  (r : Auditor.HistoryItem) :
  most_recent_ordinary h = Some r ->
  String.eqb (Auditor.type r) "function_call_result" = true.
Proof.
  induction h as [|item h IH]; simpl; [discriminate|].
  destruct (most_recent_ordinary h) as [r'|].
  - intros H. apply IH. exact H.
  - destruct (Auditor.is_ordinary_result item) eqn:E; [|discriminate].
    intros H. injection H as <-.
    unfold Auditor.is_ordinary_result in E.
    apply andb_true_iff in E. apply E.
Qed.

(** The predicate on a history with a most recent ordinary result [r]:
    parse its payload, read [passed], compare with [true]. *)
Lemma isNecessaryEnabled_most_recent (h : list Auditor.HistoryItem)
  (r : Auditor.HistoryItem) :
  most_recent_ordinary h = Some r ->
  Auditor.isNecessaryEnabled {| Auditor.history := Some h |} =
  (let* out := JSON.parse (Auditor.output r) in
   let* p := JSON.get_property out "passed" in
   Normal (JSON.is_true p)).
Proof.
  intros Hr. unfold Auditor.isNecessaryEnabled. cbn [Auditor.history].
  rewrite pop_filter_most_recent, Hr.
  rewrite (most_recent_ordinary_type h r Hr).
  destruct (JSON.parse (Auditor.output r)) as [out|e]; [|reflexivity].
  simpl. destruct (JSON.get_property out "passed") as [p|e]; [|reflexivity].
  simpl. destruct (JSON.is_true p); reflexivity.
Qed.

(** Most recent wins, in [isNecessaryEnabled]: the predicate answers
    [true] exactly when the most recent ordinary result of the history
    exists and records [passed = true]; an empty or absent history, and the
    history pass-then-fail, give [false]; fail-then-pass gives [true]. *)
Lemma isNecessaryEnabled_most_recent_wins :
  (forall h,
      Auditor.isNecessaryEnabled {| Auditor.history := Some h |} = Normal true
      <-> exists r, most_recent_ordinary h = Some r /\ recorded_pass r)
  /\ Auditor.isNecessaryEnabled {| Auditor.history := None |} = Normal false
  /\ Auditor.isNecessaryEnabled {| Auditor.history := Some [] |}
     = Normal false
  /\ Auditor.isNecessaryEnabled
       {| Auditor.history :=
            Some [ordinary_item ordinary_pass; ordinary_item ordinary_fail] |}
     = Normal false
  /\ Auditor.isNecessaryEnabled
       {| Auditor.history :=
            Some [ordinary_item ordinary_fail; ordinary_item ordinary_pass] |}
     = Normal true.
Proof.
  split; [|repeat split; vm_compute; reflexivity].
  intros h. destruct (most_recent_ordinary h) as [r|] eqn:Hr.
  - rewrite (isNecessaryEnabled_most_recent h r Hr). unfold recorded_pass.
    split.
    + intros H. exists r. split; [reflexivity|].
      destruct (JSON.parse (Auditor.output r)) as [out|e]; [|discriminate].
      exists out. split; [reflexivity|]. simpl in H.
      destruct (JSON.get_property out "passed") as [p|e]; [|discriminate].
      simpl in H. injection H as H.
      destruct p as [[| [|] | | | |]|]; try discriminate. reflexivity.
    + intros [r' [Heq [out [Hout Hp]]]]. injection Heq as <-.
      rewrite Hout. simpl. rewrite Hp. reflexivity.
  - split.
    + unfold Auditor.isNecessaryEnabled. cbn [Auditor.history].
      rewrite pop_filter_most_recent, Hr. discriminate.
    + intros [r [Heq _]]. discriminate.
Qed.

(** A payload that does not parse makes the predicate throw. *)
Lemma isNecessaryEnabled_unparsable (h : list Auditor.HistoryItem)
  (r : Auditor.HistoryItem) (e : error) :
  most_recent_ordinary h = Some r ->
  JSON.parse (Auditor.output r) = Throw e ->
  Auditor.isNecessaryEnabled {| Auditor.history := Some h |} = Throw e.
Proof.
  intros Hr He. rewrite (isNecessaryEnabled_most_recent h r Hr), He.
  reflexivity.
Qed.

(** C2, at the input of the repository's own test. The history holds one
    ordinary result whose payload is corrupted JSON: the parser rejects the
    payload whatever its fuel, [JSON.parse] throws a [SyntaxError], and the
    predicate, which has no handler, throws it on instead of returning
    [false]. *)
Theorem isNecessaryEnabled_throws_on_corrupted_payload :
  (forall fuel, JSON.parse_value fuel corrupted_output = None)
  /\ JSON.parse corrupted_output = Throw SyntaxError
  /\ Auditor.isNecessaryEnabled
       {| Auditor.history := Some [corrupted_item] |} = Throw SyntaxError
  /\ Auditor.isNecessaryEnabled
       {| Auditor.history := Some [corrupted_item] |} <> Normal false.
Proof.
  split; [|split; [|split]].
  - intros fuel.
    destruct fuel as [|[|[|[|[|fuel]]]]]; vm_compute; reflexivity.
  - vm_compute. reflexivity.
  - vm_compute. reflexivity.
  - vm_compute. discriminate.
Qed.

(** ** Policy gate: the flag of the tool loop *)

Lemma after_call_passed (now : string)
  (st : GeminiService.ToolsPolicyState) (call : GeminiService.FunctionCall) :
  GeminiService.ordinaryPassed (GeminiService.after_call now st call) =
  GeminiService.ordinaryPassed st || passing_ordinary_call now call.
Proof.
  unfold GeminiService.after_call, passing_ordinary_call.
  destruct (String.eqb (GeminiService.call_name call) "verify_ordinary").
  - destruct (verifyOrdinary now _ _) as [v|e]; simpl.
    + destruct (passed v); simpl;
        [rewrite orb_true_r | rewrite orb_false_r]; reflexivity.
    + rewrite orb_false_r. reflexivity.
  - simpl. rewrite orb_false_r. reflexivity.
Qed.

Lemma after_calls_passed (now : string)
  (calls : list GeminiService.FunctionCall)
  (st : GeminiService.ToolsPolicyState) :
  GeminiService.ordinaryPassed
    (fold_left (GeminiService.after_call now) calls st) =
  GeminiService.ordinaryPassed st
  || existsb (passing_ordinary_call now) calls.
Proof.
  revert st. induction calls as [|call calls IH]; intros st; simpl.
  - rewrite orb_false_r. reflexivity.
  - rewrite IH, after_call_passed, orb_assoc. reflexivity.
Qed.

(** The flag latches: after the loop, [verify_necessary] is offered
    exactly when some ordinary check of a served response has passed,
    whatever came later. *)
Lemma run_tool_loop_ever_passed (now : string)
  (responses : list (list GeminiService.FunctionCall)) :
  GeminiService.necessary_offered
    (GeminiService.run_tool_loop now responses) =
  existsb (existsb (passing_ordinary_call now))
          (GeminiService.served GeminiService.maxTurns responses).
Proof.
  unfold GeminiService.run_tool_loop.
  assert (Hoff : forall st,
             GeminiService.necessary_offered st
             = GeminiService.ordinaryPassed st).
  { intros [[|]]; reflexivity. }
  rewrite Hoff.
  change (existsb (existsb (passing_ordinary_call now))
            (GeminiService.served GeminiService.maxTurns responses))
    with (GeminiService.ordinaryPassed
            {| GeminiService.ordinaryPassed := false |}
          || existsb (existsb (passing_ordinary_call now))
               (GeminiService.served GeminiService.maxTurns responses)).
  generalize {| GeminiService.ordinaryPassed := false |}.
  induction (GeminiService.served GeminiService.maxTurns responses)
    as [|calls rest IH]; intros st; simpl.
  - rewrite orb_false_r. reflexivity.
  - rewrite IH, after_calls_passed, orb_assoc. reflexivity.
Qed.

(** C1, at a run of the tool loop. The language model asks for the check
    of the truck of a carpenter, which passes, and then of a laptop, which
    fails: the most recent ordinary verdict has failed, yet
    [verify_necessary] is among the tools offered next.  On a history of a
    passed and then a failed verdict the predicate [isNecessaryEnabled]
    answers [false]. *)
Theorem tool_loop_offers_necessary_after_failed_ordinary (now : string) :
  fulfils_passed (verifyOrdinary now "238350" "truck") true
  /\ fulfils_passed (verifyOrdinary now "238350" "laptop") false
  /\ GeminiService.necessary_offered
       (GeminiService.run_tool_loop now
          [ [ordinary_call "238350" "truck"];
            [ordinary_call "238350" "laptop"] ]) = true
  /\ In "verify_necessary"
        (GeminiService.getAllowedTools
           (GeminiService.run_tool_loop now
              [ [ordinary_call "238350" "truck"];
                [ordinary_call "238350" "laptop"] ]))
  /\ Auditor.isNecessaryEnabled
       {| Auditor.history :=
            Some [ordinary_item ordinary_pass; ordinary_item ordinary_fail] |}
     = Normal false.
Proof.
  split; [apply (verifyOrdinary_passed now "238350" "truck")|].
  split; [apply (verifyOrdinary_passed now "238350" "laptop")|].
  split; [reflexivity|].
  split; [simpl; auto 7|].
  vm_compute. reflexivity.
Qed.

(** ** Ledger *)

(** C8. Ledger ordering: an append puts its entry at the head and leaves
    every entry that was there in place, one position further; after the
    appends A, B, C the ledger reads C, B, A and then the entries it had
    before. *)
Theorem addEntry_newest_first (a b c : Append)
  (ledger : list AuditContext.AuditEntry) :
  (exists e,
      ledger_append a ledger = e :: ledger
      /\ AuditContext.action e = act a
      /\ AuditContext.details e = det a
      /\ forall i, nth_error (ledger_append a ledger) (S i) = nth_error ledger i)
  /\ (exists ea eb ec,
         ledger_append c (ledger_append b (ledger_append a ledger))
         = ec :: eb :: ea :: ledger
         /\ AuditContext.action ea = act a
         /\ AuditContext.action eb = act b
         /\ AuditContext.action ec = act c
         /\ map AuditContext.action
              (ledger_append c (ledger_append b (ledger_append a ledger)))
            = act c :: act b :: act a :: map AuditContext.action ledger).
Proof.
  split.
  - eexists. split; [reflexivity|]. repeat split.
  - do 3 eexists. split; [reflexivity|]. repeat split.
Qed.

(** A reset leaves one entry, the synthetic one, whatever the ledger
    held. *)
Lemma clearLog_single_entry (r : AuditContext.Readings)
  (ledger : list AuditContext.AuditEntry) :
  exists e,
    AuditContext.clearLog r ledger = [e]
    /\ AuditContext.action e = "System Reboot"
    /\ AuditContext.source e = AuditContext.System.
Proof. eexists. repeat split. Qed.

(* ===================================================================== *)
(** * Further proofs                                                     *)
(* ===================================================================== *)

Import Behaviour.

(** ** The law library *)

Lemma lower_unit_idempotent (c : ascii) :
  lower_unit (lower_unit c) = lower_unit c.
Proof.
  destruct c as [b0 b1 b2 b3 b4 b5 b6 b7].
  destruct b0, b1, b2, b3, b4, b5, b6, b7; reflexivity.
Qed.

Lemma toLowerCase_idempotent (s : string) :
  toLowerCase (toLowerCase s) = toLowerCase s.
Proof.
  induction s as [|c s IH]; simpl; [reflexivity|].
  rewrite lower_unit_idempotent, IH. reflexivity.
Qed.

Lemma key_matches_lower (query k : string) :
  key_matches (toLowerCase query) k = key_matches query k.
Proof. unfold key_matches. rewrite toLowerCase_idempotent. reflexivity. Qed.




(** X2. Letter case is ignored where the code lowercases: the query of a
    statute lookup, the expense category of the ordinary checker and the
    clause text of the risk scanner can be given in lower case without
    changing the answer (the ordinary verdict still echoes the category as
    it was typed). *)
Theorem letter_case_is_ignored (now query naics expense clause docType : string) :
  consultStatute (toLowerCase query) = consultStatute query
  /\ (exists v w,
         verifyOrdinary now naics (toLowerCase expense) = Normal v
         /\ verifyOrdinary now naics expense = Normal w
         /\ passed v = passed w
         /\ evidence_source v = evidence_source w)
  /\ analyzeContractRisks now (toLowerCase clause) docType
     = analyzeContractRisks now clause docType.
Proof.
  split; [|split].
  - unfold consultStatute.
    replace (find (fun kv => key_matches (toLowerCase query) (fst kv))
                  LAW_LIBRARY)
      with (find (fun kv => key_matches query (fst kv)) LAW_LIBRARY);
      [reflexivity|].
    induction LAW_LIBRARY as [|kv l IH]; simpl; [reflexivity|].
    rewrite key_matches_lower, IH. reflexivity.
  - destruct (verifyOrdinary_passed now naics (toLowerCase expense))
      as [v [Hv Hp]].
    destruct (verifyOrdinary_passed now naics expense) as [w [Hw Hq]].
    exists v, w. split; [exact Hv|]. split; [exact Hw|].
    rewrite toLowerCase_idempotent in Hp. split; [congruence|].
    unfold verifyOrdinary, LegalEngine.query in Hv, Hw.
    rewrite toLowerCase_idempotent in Hv.
    destruct (String.eqb naics "238350"
              && array_includes carpenter_items (toLowerCase expense));
      simpl in Hv, Hw; injection Hv as <-; injection Hw as <-; reflexivity.
  - unfold analyzeContractRisks. rewrite toLowerCase_idempotent.
    reflexivity.
Qed.

(** X3. The first key wins: a query that is a fragment of the first key,
    UCC 3-104, in any letter case (the empty query, or UCC, which the keys
    of three statutes contain) gets the statute on negotiable
    instruments. *)
Theorem consultStatute_fragment_of_first_key (query : string) :
  includes "ucc 3-104" (toLowerCase query) = true ->
  exists r,
    consultStatute query = Normal r
    /\ found r = true
    /\ found_title r = Some "Negotiable Instrument"
    /\ citation r = Some ("Uniform Commercial Code " ++ sect ++ " 3-104").
Proof.
  intros H. unfold consultStatute, LAW_LIBRARY.
  cbn [find fst].
  assert (Hk : key_matches query "UCC 3-104" = true).
  { unfold key_matches.
    change (toLowerCase "UCC 3-104") with "ucc 3-104".
    rewrite H. apply orb_true_r. }
  rewrite Hk. eexists. repeat split.
Qed.

Lemma consultStatute_fragment_of_first_key_witness :
  includes "ucc 3-104" (toLowerCase "UCC") = true
  /\ exists r,
       consultStatute "UCC" = Normal r
       /\ found_title r = Some "Negotiable Instrument".
Proof.
  assert (H : includes "ucc 3-104" (toLowerCase "UCC") = true)
    by (vm_compute; reflexivity).
  split; [exact H|].
  destruct (consultStatute_fragment_of_first_key "UCC" H)
    as [r [Hr [_ [Ht _]]]].
  exists r. split; [exact Hr | exact Ht].
Defined.

(** ** The clause-risk scanner *)

Lemma consultStatute_FTC_Credit_Rule :
  exists r, consultStatute "FTC Credit Rule" = Normal r
            /\ found r = true
            /\ citation r = Some ("16 CFR " ++ sect ++ " 444.2").
Proof. eexists. repeat split; vm_compute; reflexivity. Qed.

(** The verdict of the scanner, from the sentences that fire. *)
Lemma analyzeContractRisks_verdict (now clause docType : string) :
  exists v,
    analyzeContractRisks now clause docType = Normal v
    /\ rule_id v = "RISK_SCAN_USC_UCC"
    /\ passed v = (List.length (findings clause docType) =? 0)%nat
    /\ details v =
         (if passed v
          then "CLEAN: No critical statutory risks identified in extracted clause."
          else "RISK ALERT: " ++ join " | " (findings clause docType)).
Proof.
  unfold analyzeContractRisks, findings, heuristics.
  destruct (mentions_confession (toLowerCase clause)).
  - destruct consultStatute_FTC_Credit_Rule as [r [Hr [Hf Hc]]].
    rewrite Hr. cbn [bind]. rewrite Hf, Hc. cbn [prop_text].
    destruct (mentions_arbitration _), (mentions_indemnity _),
      (mentions_perpetuity _ _), (mentions_penalty _);
      eexists; (split; [reflexivity|]); repeat split.
  - destruct (mentions_arbitration _), (mentions_indemnity _),
      (mentions_perpetuity _ _), (mentions_penalty _);
      eexists; (split; [reflexivity|]); repeat split.
Qed.

(** X4. The risk scanner accumulates: the clause passes exactly when none
    of the five heuristics fires, and the details of a failed scan are the
    sentences of all the heuristics that fire, in their order, each one to
    be found in the text.  A confession of judgment is always reported with
    the citation of the law library: the hard-coded sentence of the
    fallback is never used. *)
Theorem analyzeContractRisks_accumulates (now clause docType : string) :
  exists v,
    analyzeContractRisks now clause docType = Normal v
    /\ passed v = match findings clause docType with
                  | [] => true
                  | _ :: _ => false
                  end
    /\ details v =
         (if passed v
          then "CLEAN: No critical statutory risks identified in extracted clause."
          else "RISK ALERT: " ++ join " | " (findings clause docType))
    /\ forallb (includes (details v)) (findings clause docType) = true
    /\ includes (details v) risk_confession_fallback = false.
Proof.
  destruct (analyzeContractRisks_verdict now clause docType)
    as [v [Hv [_ [Hp Hd]]]].
  exists v. split; [exact Hv|]. split; [|split; [exact Hd|split]].
  - rewrite Hp. destruct (findings clause docType); reflexivity.
  - rewrite Hd. apply forallb_forall. intros m Hin.
    destruct (passed v) eqn:E.
    + symmetry in Hp. apply Nat.eqb_eq in Hp.
      destruct (findings clause docType); [destruct Hin | discriminate].
    + apply includes_app_r, includes_join, Hin.
  - rewrite Hd, Hp. unfold findings, heuristics.
    destruct (mentions_arbitration _), (mentions_indemnity _),
      (mentions_perpetuity _ _), (mentions_penalty _),
      (mentions_confession _); vm_compute; reflexivity.
Qed.

(** ** The words of a verdict *)

(** X5. The details of a verdict state its outcome: the three checkers of
    expenses and instruments open them with PASSED: on a pass and with
    FAILED: otherwise, the risk scanner with CLEAN: and RISK ALERT:. *)
Theorem details_open_with_the_outcome {fmt : NumberFormat}
  (now naics expense clause docType : string) (amount revenue : number)
  (terms : InstrumentTerms) :
  (exists v, verifyOrdinary now naics expense = Normal v
             /\ String.prefix (outcome_word v) (details v) = true)
  /\ (exists v, verifyNecessary now amount revenue = Normal v
                /\ String.prefix (outcome_word v) (details v) = true)
  /\ (exists v, verifyNegotiability now terms = Normal v
                /\ String.prefix (outcome_word v) (details v) = true)
  /\ (exists v, analyzeContractRisks now clause docType = Normal v
                /\ String.prefix (if passed v then "CLEAN:" else "RISK ALERT:")
                                 (details v) = true).
Proof.
  split; [|split; [|split]].
  - unfold verifyOrdinary, LegalEngine.query.
    destruct (String.eqb naics "238350"
              && array_includes carpenter_items (toLowerCase expense));
      eexists; split; reflexivity.
  - unfold verifyNecessary.
    destruct (leb (div amount revenue) half);
      eexists; split; reflexivity.
  - destruct (verifyNegotiability_verdict now terms) as [v [Hv [_ [_ Hd]]]].
    exists v. split; [exact Hv|]. rewrite Hd. unfold outcome_word.
    destruct (passed v); reflexivity.
  - destruct (analyzeContractRisks_verdict now clause docType)
      as [v [Hv [_ [_ Hd]]]].
    exists v. split; [exact Hv|]. rewrite Hd.
    destruct (passed v); reflexivity.
Qed.

(** ** Necessity ratio, outside the positive amounts *)

Lemma shr_1_nonneg (mrs : shr_record) :
  (0 <= shr_m mrs)%Z -> (0 <= shr_m (shr_1 mrs))%Z.
Proof.
  destruct mrs as [m r s]. simpl.
  destruct m as [|p|p]; [simpl; lia | | lia].
  intros _. destruct p; simpl; lia.
Qed.

Lemma iter_shr_1_nonneg (p : BinNums.positive) (mrs : shr_record) :
  (0 <= shr_m mrs)%Z -> (0 <= shr_m (iter_pos shr_1 p mrs))%Z.
Proof.
  revert mrs. induction p as [p IH|p IH|]; intros mrs H; simpl.
  - apply IH, IH, shr_1_nonneg, H.
  - apply IH, IH, H.
  - apply shr_1_nonneg, H.
Qed.

Lemma shr_fexp_nonneg (m e : Z) (l : location) :
  (0 <= m)%Z -> (0 <= shr_m (fst (shr_fexp prec emax m e l)))%Z.
Proof.
  intros H. unfold shr_fexp, shr.
  assert (H0 : (0 <= shr_m (shr_record_of_loc m l))%Z).
  { destruct l as [|[| |]]; exact H. }
  destruct (fexp prec emax (Zdigits2 m + e) - e)%Z as [|p|p]; simpl;
    [exact H0 | apply iter_shr_1_nonneg, H0 | exact H0].
Qed.

Lemma round_nearest_even_nonneg (m : Z) (l : location) :
  (0 <= m)%Z -> (0 <= round_nearest_even m l)%Z.
Proof.
  intros H. unfold round_nearest_even.
  destruct l as [|[| |]]; try (destruct (Z.even m)); lia.
Qed.

(** Rounding a mantissa that is not negative gives no NaN: a zero, a finite
    number or an infinity, of the sign asked for. *)
Lemma binary_round_aux_sign (sx : bool) (mx ex : Z) (lx : location) :
  (0 <= mx)%Z ->
  match binary_round_aux prec emax sx mx ex lx with
  | S754_zero s | S754_infinity s | S754_finite s _ _ => s = sx
  | S754_nan => False
  end.
Proof.
  intros H. unfold binary_round_aux.
  pose proof (shr_fexp_nonneg mx ex lx H) as H1.
  destruct (shr_fexp prec emax mx ex lx) as [mrs' e']. simpl in H1.
  pose proof (shr_fexp_nonneg
                (round_nearest_even (shr_m mrs') (loc_of_shr_record mrs'))
                e' loc_Exact
                (round_nearest_even_nonneg _ _ H1)) as H2.
  destruct (shr_fexp prec emax _ e' loc_Exact) as [mrs'' e'']. simpl in H2.
  destruct (shr_m mrs'') as [|p|p]; [reflexivity | | lia].
  destruct (e'' <=? emax - prec)%Z; reflexivity.
Qed.

Lemma SFdiv_core_binary_nonneg (mx my : BinNums.positive) (ex ey : Z) :
  (0 <= fst (fst (SFdiv_core_binary prec emax (Zpos mx) ex (Zpos my) ey)))%Z.
Proof.
  unfold SFdiv_core_binary.
  set (e' := Z.min _ _). set (s := (ex - ey - e')%Z).
  set (m' := match s with
             | Zpos _ => Z.shiftl (Zpos mx) s
             | Z0 => Zpos mx
             | Zneg _ => 0%Z
             end).
  assert (Hm : (0 <= m')%Z).
  { unfold m'. destruct s; [lia | apply Z.shiftl_nonneg; lia | lia]. }
  pose proof (Z.div_pos m' (Zpos my) Hm ltac:(lia)) as Hq.
  unfold Z.div in Hq.
  destruct (Z.div_eucl m' (Zpos my)) as [q r]. exact Hq.
Qed.

(** The quotient of a positive finite number by a negative one is below
    one half. *)
Lemma div_by_negative_below_half (x y : number) :
  Spec.above_zero x -> is_finite x = true -> below_zero y ->
  leb (div x y) half = true.
Proof.
  unfold Spec.above_zero, below_zero, ltb, SFltb.
  destruct x as [sx|sx| |sx mx ex]; simpl; try discriminate;
    destruct sx; try discriminate; intros _ _;
    destruct y as [sy|sy| |sy my ey]; simpl; try discriminate;
    destruct sy; try discriminate; intros _; try reflexivity.
  unfold div, SFdiv.
  pose proof (SFdiv_core_binary_nonneg mx my ex ey) as Hq.
  destruct (SFdiv_core_binary prec emax (Zpos mx) ex (Zpos my) ey)
    as [[mz ez] lz]. simpl in Hq.
  pose proof (binary_round_aux_sign true mz ez lz Hq) as Hs.
  cbn [xorb].
  destruct (binary_round_aux prec emax true mz ez lz)
    as [s|s| |s m e]; try contradiction; subst s; reflexivity.
Qed.

Section MoreNecessaryProofs.
Context {fmt : NumberFormat}.

(** X6. A negative revenue passes: for a positive finite expense and a
    revenue below zero the ratio is negative (or minus zero), which is at
    most 0.5, so the checker returns a passed verdict. *)
Theorem verifyNecessary_negative_revenue_passes (now : string)
  (expense_amount business_revenue : number) :
  Spec.above_zero expense_amount ->
  is_finite expense_amount = true ->
  below_zero business_revenue ->
  exists v,
    verifyNecessary now expense_amount business_revenue = Normal v
    /\ passed v = true.
Proof.
  intros He Hf Hr.
  destruct (verifyNecessary_verdict now expense_amount business_revenue)
    as [v [Hv [_ Hp]]].
  exists v. split; [exact Hv|]. rewrite Hp.
  apply div_by_negative_below_half; assumption.
Qed.

(** X7. An undefined ratio fails: when an argument is NaN, as a missing
    argument is in the division, or both are zero, or both are infinite,
    the quotient is NaN, no comparison with it holds, and the verdict is a
    failed one. *)
Theorem verifyNecessary_undefined_ratio_fails (now : string)
  (expense_amount business_revenue : number) :
  undefined_ratio expense_amount business_revenue = true ->
  exists v,
    verifyNecessary now expense_amount business_revenue = Normal v
    /\ div expense_amount business_revenue = S754_nan
    /\ passed v = false.
Proof.
  intros H.
  destruct (verifyNecessary_verdict now expense_amount business_revenue)
    as [v [Hv [_ Hp]]].
  exists v. split; [exact Hv|]. rewrite Hp.
  destruct expense_amount as [s|s| |s m e],
           business_revenue as [s'|s'| |s' m' e'];
    try discriminate H; split; reflexivity.
Qed.

End MoreNecessaryProofs.

Lemma verifyNecessary_negative_revenue_passes_witness :
  Spec.above_zero (of_Z 30000)
  /\ is_finite (of_Z 30000) = true
  /\ below_zero (of_Z (-70000))
  /\ exists v,
       @verifyNecessary Spec.sample_format "2026-01-05T09:00:00.000Z"
         (of_Z 30000) (of_Z (-70000)) = Normal v
       /\ passed v = true.
Proof.
  assert (He : Spec.above_zero (of_Z 30000)) by (vm_compute; reflexivity).
  assert (Hf : is_finite (of_Z 30000) = true) by (vm_compute; reflexivity).
  assert (Hr : below_zero (of_Z (-70000))) by (vm_compute; reflexivity).
  split; [exact He|]. split; [exact Hf|]. split; [exact Hr|].
  exact (@verifyNecessary_negative_revenue_passes Spec.sample_format
           "2026-01-05T09:00:00.000Z" (of_Z 30000) (of_Z (-70000))
           He Hf Hr).
Defined.

Lemma verifyNecessary_undefined_ratio_fails_witness :
  undefined_ratio (of_Z 0) (of_Z 0) = true
  /\ exists v,
       @verifyNecessary Spec.sample_format "2026-01-05T09:00:00.000Z"
         (of_Z 0) (of_Z 0) = Normal v
       /\ passed v = false.
Proof.
  assert (H : undefined_ratio (of_Z 0) (of_Z 0) = true)
    by (vm_compute; reflexivity).
  split; [exact H|].
  destruct (@verifyNecessary_undefined_ratio_fails Spec.sample_format
              "2026-01-05T09:00:00.000Z" (of_Z 0) (of_Z 0) H)
    as [v [Hv [_ Hp]]].
  exists v. split; [exact Hv | exact Hp].
Defined.

(** ** Forms, over all form types *)

(** A text is contained in another exactly when it sits between two
    others. *)
Lemma prefix_decompose (t s : string) :
  String.prefix t s = true -> exists y, s = t ++ y.
Proof.
  revert s. induction t as [|c t IH]; intros s H.
  - exists s. reflexivity.
  - destruct s as [|d s]; [discriminate|]. simpl in H.
    destruct (ascii_dec c d) as [->|]; [|discriminate].
    destruct (IH s H) as [y ->]. exists y. reflexivity.
Qed.

Lemma append_assoc (a b c : string) : (a ++ b) ++ c = a ++ b ++ c.
Proof. induction a as [|x a IH]; simpl; [reflexivity | rewrite IH; reflexivity]. Qed.

Lemma includes_decompose (s t : string) :
  includes s t = true <-> exists x y, s = x ++ t ++ y.
Proof.
  split.
  - induction s as [|c s IH]; intros H.
    + destruct t as [|d t]; [|discriminate]. exists "", "". reflexivity.
    + change (includes (String c s) t)
        with (String.prefix t (String c s) || includes s t) in H.
      apply orb_true_iff in H. destruct H as [H|H].
      * destruct (prefix_decompose _ _ H) as [y Hy]. exists "", y. exact Hy.
      * destruct (IH H) as [x [y ->]]. exists (String c x), y. reflexivity.
  - intros [x [y ->]]. apply includes_app_r, includes_app_l, includes_self.
Qed.

(** A part of a contained text is contained. *)
Lemma includes_part (s a t b : string) :
  includes s (a ++ t ++ b) = true -> includes s t = true.
Proof.
  intros H. apply includes_decompose in H. destruct H as [x [y ->]].
  rewrite <- !append_assoc. rewrite append_assoc.
  apply includes_app_l, includes_app_r, includes_self.
Qed.

Lemma append_empty_r (s : string) : s ++ "" = s.
Proof. induction s as [|c s IH]; simpl; [reflexivity | rewrite IH; reflexivity]. Qed.


Section MoreFormProofs.
Context {fmt : NumberFormat}.

(** The generator on a type that is none of the four. *)
Lemma generateVerifiedForm_unknown (now type : string) (data : FormData) :
  ~ In type form_types ->
  generateVerifiedForm now type data =
  Normal {| markdown := "";
            validation :=
              {| rule_id := "FORM_GEN"; passed := false;
                 details := "Unknown form type"; evidence_source := "System";
                 timestamp := now; generated_content := None |} |}.
Proof.
  intros H. unfold generateVerifiedForm.
  assert (E : forall t, In t form_types -> String.eqb type t = false).
  { intros t Ht. apply String.eqb_neq. intros ->. exact (H Ht). }
  rewrite !E by (simpl; auto 6). reflexivity.
Qed.

(** What the generator returns, by form type. *)
Lemma generateVerifiedForm_shape (now type : string) (data : FormData) :
  exists r,
    generateVerifiedForm now type data = Normal r
    /\ generated_content (validation r) = None
    /\ ((In type form_types
         /\ ((passed (validation r) = true
              /\ String.prefix nl (markdown r) = true)
             \/ (type = "security_agreement_ucc"
                 /\ hasCollateral data = false
                 /\ passed (validation r) = false
                 /\ markdown r = blocked_security_agreement)))
        \/ (~ In type form_types
            /\ passed (validation r) = false
            /\ rule_id (validation r) = "FORM_GEN"
            /\ details (validation r) = "Unknown form type"
            /\ markdown r = "")).
Proof.
  destruct (in_dec string_dec type form_types) as [Hin|Hout].
  - simpl in Hin.
    destruct Hin as [<-|[<-|[<-|[<-|[]]]]].
    + rewrite generateVerifiedForm_promissory_note.
      set (terms := {| promise_type := unconditional; amount_type := fixed;
                       currency := Some "USD"; payable_to := order;
                       timing := if is_truthy (date data)
                                 then definite else demand;
                       other_undertakings := false |}).
      destruct (verifyNegotiability_verdict now terms)
        as [v [Hv [_ [Hp _]]]].
      assert (Hpass : passed v = true).
      { rewrite Hp. unfold terms.
        destruct (is_truthy (date data)); reflexivity. }
      assert (Hg : generated_content v = None).
      { unfold verifyNegotiability in Hv.
        destruct consultStatute_UCC_3_104 as [st [Hst _]].
        rewrite Hst in Hv. simpl in Hv. injection Hv as <-. reflexivity. }
      rewrite Hv. simpl. rewrite Hpass.
      eexists. split; [reflexivity|]. split; [exact Hg|].
      left. split; [simpl; auto|]. left. split; [exact Hpass|reflexivity].
    + destruct (generateVerifiedForm_security_agreement now data)
        as [r [Hr [Hp [_ Hm]]]].
      exists r. split; [exact Hr|].
      assert (Hg : generated_content (validation r) = None).
      { revert Hr.
        change (generateVerifiedForm now "security_agreement_ucc" data)
          with (if hasCollateral data
                then
                  let* law := consultStatute "UCC 9-203" in
                  Normal
                    {| markdown := security_agreement_template now data;
                       validation :=
                         {| rule_id := "UCC_9_203";
                            passed := true;
                            details := "PASSED: Contains granting clause and collateral description (UCC 9-203).";
                            evidence_source :=
                              or_default (citation law) "UCC Article 9";
                            timestamp := now;
                            generated_content := None |} |}
                else
                  Normal
                    {| markdown := blocked_security_agreement;
                       validation :=
                         {| rule_id := "UCC_9_203";
                            passed := false;
                            details := "FAILED: Missing sufficient description of Collateral (UCC 9-108).";
                            evidence_source := "UCC Article 9";
                            timestamp := now;
                            generated_content := None |} |}).
        destruct (hasCollateral data).
        - destruct consultStatute_UCC_9_203 as [law [-> _]].
          simpl. intros H. injection H as <-. reflexivity.
        - intros H. injection H as <-. reflexivity. }
      split; [exact Hg|].
      left. split; [simpl; auto|].
      rewrite Hp, Hm. destruct (hasCollateral data).
      * left. split; reflexivity.
      * right. repeat split.
    + rewrite generateVerifiedForm_bill_of_sale.
      eexists. split; [reflexivity|]. split; [reflexivity|].
      left. split; [simpl; auto|]. left. split; reflexivity.
    + rewrite generateVerifiedForm_contractor_agreement.
      eexists. split; [reflexivity|]. split; [reflexivity|].
      left. split; [simpl; auto|]. left. split; reflexivity.
  - rewrite (generateVerifiedForm_unknown now type data Hout).
    eexists. split; [reflexivity|]. split; [reflexivity|].
    right. repeat split. exact Hout.
Qed.


(** X9. A security agreement that passes shows the collateral as it was
    given and rests on the citation of the law library: the description
    stands in the text after the quotation mark of its line, and the
    evidence source is UCC 9-203 of the library, not the default. *)
Theorem security_agreement_shows_collateral (now : string) (data : FormData)
  (c : string) :
  collateral data = Some c ->
  3 < String.length c ->
  exists r,
    generateVerifiedForm now "security_agreement_ucc" data = Normal r
    /\ passed (validation r) = true
    /\ includes (markdown r) ("> " ++ c ++ nl) = true
    /\ includes (markdown r) c = true
    /\ evidence_source (validation r)
       = "Uniform Commercial Code " ++ sect ++ " 9-203".
Proof.
  intros Hc Hlen.
  assert (Hh : hasCollateral data = true).
  { apply hasCollateral_described. exists c. split; assumption. }
  change (generateVerifiedForm now "security_agreement_ucc" data)
    with (if hasCollateral data
          then
            let* law := consultStatute "UCC 9-203" in
            Normal
              {| markdown := security_agreement_template now data;
                 validation :=
                   {| rule_id := "UCC_9_203";
                      passed := true;
                      details := "PASSED: Contains granting clause and collateral description (UCC 9-203).";
                      evidence_source :=
                        or_default (citation law) "UCC Article 9";
                      timestamp := now;
                      generated_content := None |} |}
          else
            Normal
              {| markdown := blocked_security_agreement;
                 validation :=
                   {| rule_id := "UCC_9_203";
                      passed := false;
                      details := "FAILED: Missing sufficient description of Collateral (UCC 9-108).";
                      evidence_source := "UCC Article 9";
                      timestamp := now;
                      generated_content := None |} |}).
  rewrite Hh.
  destruct consultStatute_UCC_9_203 as [law [-> Hcit]].
  eexists. split; [reflexivity|]. split; [reflexivity|].
  cbn [markdown validation evidence_source]. rewrite Hcit.
  assert (Hline : includes (security_agreement_template now data)
                           ("> " ++ c ++ nl) = true).
  { unfold security_agreement_template. rewrite Hc. cbn [prop_text].
    apply includes_decompose.
    match goal with
    | |- exists x y, join nl (?l0 :: ?l1 :: ?l2 :: ?l3 :: ?l4 :: ?l5 :: ?l6
                               :: ?l7 :: ?l8 :: ?l9 :: ?l10 :: ?rest) = _ =>
        exists (join nl [l0; l1; l2; l3; l4; l5; l6; l7; l8; l9] ++ nl),
               (join nl rest)
    end.
    unfold join. cbn [String.concat].
    rewrite !append_assoc. reflexivity. }
  split; [exact Hline|]. split; [|reflexivity].
  apply (includes_part _ "> " c nl). exact Hline.
Qed.

End MoreFormProofs.

Lemma security_agreement_shows_collateral_witness :
  collateral (Spec.collateral_only "2019 Ford F-150") = Some "2019 Ford F-150"
  /\ 3 < String.length "2019 Ford F-150"
  /\ exists r,
       @generateVerifiedForm Spec.sample_format "2026-01-05T09:00:00.000Z"
         "security_agreement_ucc" (Spec.collateral_only "2019 Ford F-150")
       = Normal r
       /\ includes (markdown r) ("> 2019 Ford F-150" ++ nl) = true.
Proof.
  split; [reflexivity|]. split; [simpl; lia|].
  destruct (@security_agreement_shows_collateral Spec.sample_format
              "2026-01-05T09:00:00.000Z"
              (Spec.collateral_only "2019 Ford F-150") "2019 Ford F-150"
              eq_refl ltac:(simpl; lia))
    as [r [Hr [_ [Hm _]]]].
  exists r. split; [exact Hr | exact Hm].
Defined.

Section FormFieldProofs.
Context {fmt : NumberFormat}.

(** X10. The date of a promissory note decides its payment clause: with a
    date that is not empty the note is payable in full on that date, and
    the date stands in its head; without one it is payable on demand. *)
Theorem promissory_note_payment_clause (now : string) (data : FormData) :
  exists r,
    generateVerifiedForm now "promissory_note_ucc" data = Normal r
    /\ match date data with
       | Some (String c d) =>
           includes (markdown r)
             ("Payment shall be made in full on " ++ String c d ++ ".") = true
           /\ includes (markdown r) ("**Date:** " ++ String c d) = true
       | _ =>
           includes (markdown r)
             "Payment shall be made immediately upon demand by Lender." = true
           /\ includes (markdown r) "**Date:** On Demand" = true
       end.
Proof.
  rewrite generateVerifiedForm_promissory_note.
  set (terms := {| promise_type := unconditional; amount_type := fixed;
                   currency := Some "USD"; payable_to := order;
                   timing := if is_truthy (date data)
                             then definite else demand;
                   other_undertakings := false |}).
  destruct (verifyNegotiability_verdict now terms) as [v [Hv [_ [Hp _]]]].
  assert (Hpass : passed v = true).
  { rewrite Hp. unfold terms. destruct (is_truthy (date data)); reflexivity. }
  rewrite Hv. simpl. rewrite Hpass.
  eexists. split; [reflexivity|]. cbn [markdown].
  unfold promissory_note_template.
  destruct (date data) as [[|c d]|];
    split; apply includes_join; simpl; auto 30.
Qed.

Lemma or_default_absent_if_empty (x : option string) (d : string) :
  or_default (absent_if_empty x) d = or_default x d.
Proof. destruct x as [[|c s]|]; reflexivity. Qed.

Lemma is_truthy_absent_if_empty (x : option string) :
  is_truthy (absent_if_empty x) = is_truthy x.
Proof. destruct x as [[|c s]|]; reflexivity. Qed.

Lemma num_or_absent_if_falsy (x : option number) (d : string) :
  num_or (absent_if_falsy x) d = num_or x d.
Proof.
  destruct x as [n|]; [|reflexivity]. simpl.
  destruct (number_truthy n) eqn:E; simpl; rewrite ?E; reflexivity.
Qed.

Lemma hasCollateral_without_empty_fields (data : FormData) :
  hasCollateral (without_empty_fields data) = hasCollateral data.
Proof.
  unfold hasCollateral, without_empty_fields. simpl.
  destruct (collateral data) as [[|c s]|]; reflexivity.
Qed.

(** X11. An empty field counts as an absent one: a string field given as
    the empty string, or an amount given as zero or NaN, yields the very
    result, text and verdict, that the call without the field yields, for
    every form type. *)
Theorem generateVerifiedForm_empty_is_absent (now type : string)
  (data : FormData) :
  generateVerifiedForm now type (without_empty_fields data)
  = generateVerifiedForm now type data.
Proof.
  unfold generateVerifiedForm.
  destruct (String.eqb type "promissory_note_ucc").
  { replace (promissory_note_template (without_empty_fields data))
      with (promissory_note_template data).
    - unfold without_empty_fields at 1. cbn [date].
      rewrite is_truthy_absent_if_empty. reflexivity.
    - unfold promissory_note_template, without_empty_fields.
      cbn [amount lender borrower date state].
      rewrite !or_default_absent_if_empty, !num_or_absent_if_falsy,
        is_truthy_absent_if_empty.
      destruct (date data) as [[|c d]|]; reflexivity. }
  destruct (String.eqb type "security_agreement_ucc").
  { rewrite hasCollateral_without_empty_fields.
    destruct (hasCollateral data) eqn:Eh; [|reflexivity].
    replace (security_agreement_template now (without_empty_fields data))
      with (security_agreement_template now data); [reflexivity|].
    unfold security_agreement_template, without_empty_fields.
    cbn [date debtor secured_party obligation collateral state].
    rewrite !or_default_absent_if_empty.
    unfold hasCollateral in Eh.
    destruct (collateral data) as [[|c s]|]; try discriminate Eh.
    reflexivity. }
  destruct (String.eqb type "bill_of_sale_ucc").
  { replace (bill_of_sale_template now (without_empty_fields data))
      with (bill_of_sale_template now data); [reflexivity|].
    unfold bill_of_sale_template, without_empty_fields.
    cbn [seller buyer date amount goods_description].
    rewrite !or_default_absent_if_empty, !num_or_absent_if_falsy.
    reflexivity. }
  destruct (String.eqb type "contractor_agreement"); [|reflexivity].
  replace (contractor_agreement_template (without_empty_fields data))
    with (contractor_agreement_template data); [reflexivity|].
  unfold contractor_agreement_template, without_empty_fields.
  cbn [client contractor services].
  rewrite !or_default_absent_if_empty. reflexivity.
Qed.

(** X12. The document reaches the language model only with a passed
    verdict: the result of the tool call [draft_verified_form] has the
    outcome of the generator, and its [generated_content] is the text of
    the generator when the verdict passed and is absent otherwise, so the
    blocked message is never handed on as a document. *)
Theorem draft_verified_form_content_only_on_pass (now form_type : string)
  (args : FormData) :
  exists r v,
    generateVerifiedForm now form_type args = Normal r
    /\ GeminiService.draft_verified_form now form_type args = Normal v
    /\ passed v = passed (validation r)
    /\ details v = details (validation r)
    /\ generated_content v
       = (if passed v then Some (markdown r) else None).
Proof.
  destruct (generateVerifiedForm_shape now form_type args)
    as [r [Hr [Hg _]]].
  unfold GeminiService.draft_verified_form. rewrite Hr. cbn [bind].
  exists r. destruct (passed (validation r)) eqn:E.
  - eexists. split; [reflexivity|]. split; [reflexivity|].
    cbn [passed details generated_content]. repeat split.
  - exists (validation r). split; [reflexivity|]. split; [reflexivity|].
    rewrite E, Hg. repeat split.
Qed.

End FormFieldProofs.

(** ** The ordinary checker as a tool *)

(** X13. The tool of the auditor package and the checker of the engine
    agree: for every industry code and category the two verdicts have the
    same outcome, rule and evidence source, and for the industry code of
    the carpenters they are the same verdict; the branch of the tool on a
    source that mentions a failure never changes an outcome. *)
Theorem isOrdinaryTool_execute_agrees (now naics expense : string) :
  exists v w,
    Auditor.isOrdinaryTool_execute now naics expense = Normal v
    /\ verifyOrdinary now naics expense = Normal w
    /\ passed v = passed w
    /\ rule_id v = rule_id w
    /\ evidence_source v = evidence_source w
    /\ (if String.eqb naics "238350" then v = w else passed v = false).
Proof.
  unfold Auditor.isOrdinaryTool_execute, verifyOrdinary, LegalEngine.query.
  destruct (String.eqb_spec naics "238350") as [->|Hne].
  - destruct (array_includes carpenter_items (toLowerCase expense));
      cbn; do 2 eexists; repeat split.
  - simpl andb. cbn [bind is_ordinary query_source].
    destruct (includes _ "Failed"); do 2 eexists; repeat split.
Qed.

(** ** JSON: what is written is what is read *)

(** Reading the body of a quoted string gives back its code units. *)
Lemma parse_string_body_quote_body (s rest : string) :
  JSON.parse_string_body (JSON.quote_body s ++ String "034"%char rest)
  = Some (JSON.units_of_string s, rest).
Proof.
  induction s as [|c s IH].
  - reflexivity.
  - change (JSON.quote_body (String c s))
      with (JSON.quote_unit c ++ JSON.quote_body s).
    rewrite append_assoc.
    change (JSON.units_of_string (String c s))
      with (N_of_ascii c :: JSON.units_of_string s).
    set (tail := JSON.quote_body s ++ String "034"%char rest) in *.
    clearbody tail.
    destruct c as [b0 b1 b2 b3 b4 b5 b6 b7].
    destruct b0, b1, b2, b3, b4, b5, b6, b7;
      cbn; rewrite IH; reflexivity.
Qed.

Lemma quote_append (s rest : string) :
  JSON.quote s ++ rest
  = String "034"%char (JSON.quote_body s ++ String "034"%char rest).
Proof.
  unfold JSON.quote, dquote. rewrite !append_assoc. reflexivity.
Qed.

(** One step of the parser on a text that opens with a quotation mark,
    and the skips over the punctuation of an object. *)
Lemma parse_value_at_quote (fuel : nat) (x : string) :
  JSON.parse_value (S fuel) (String "034"%char x)
  = match JSON.parse_string_body x with
    | Some (us, r) => Some (JSON.JString us, r)
    | None => None
    end.
Proof. reflexivity. Qed.

Lemma parse_members_at_quote (fuel : nat) (x : string) :
  JSON.parse_members (S fuel) (String "034"%char x)
  = match JSON.parse_string_body x with
    | Some (k, r1) =>
        match JSON.expect ":" (JSON.skip_ws r1) with
        | Some r2 =>
            match JSON.parse_value fuel r2 with
            | Some (v, r3) =>
                match JSON.skip_ws r3 with
                | String c r4 =>
                    if Ascii.eqb c ","%char then
                      match JSON.parse_members fuel r4 with
                      | Some (ms, r5) => Some ((k, v) :: ms, r5)
                      | None => None
                      end
                    else if Ascii.eqb c "}"%char
                    then Some ([(k, v)], r4)
                    else None
                | EmptyString => None
                end
            | None => None
            end
        | None => None
        end
    | None => None
    end.
Proof. reflexivity. Qed.

Lemma expect_colon (x : string) :
  JSON.expect ":" (JSON.skip_ws (":" ++ x)) = Some x.
Proof. reflexivity. Qed.

Lemma skip_ws_comma (x : string) :
  JSON.skip_ws ("," ++ x) = String ","%char x.
Proof. reflexivity. Qed.

Lemma skip_ws_brace (x : string) :
  JSON.skip_ws ("}" ++ x) = String "}"%char x.
Proof. reflexivity. Qed.

(** A quoted string is read as a string value, at any fuel. *)
Lemma parse_value_quote (fuel : nat) (s rest : string) :
  JSON.parse_value (S fuel) (JSON.quote s ++ rest)
  = Some (JSON.JString (JSON.units_of_string s), rest).
Proof.
  rewrite quote_append, parse_value_at_quote, parse_string_body_quote_body.
  reflexivity.
Qed.

(** A member with a string value, followed by more members. *)
Lemma parse_members_string_more (fuel : nat) (k s rest : string) :
  JSON.parse_members (S (S fuel))
    (JSON.quote k ++ ":" ++ JSON.quote s ++ "," ++ rest)
  = match JSON.parse_members (S fuel) rest with
    | Some (ms, r) =>
        Some ((JSON.units_of_string k, JSON.JString (JSON.units_of_string s))
                :: ms, r)
    | None => None
    end.
Proof.
  rewrite quote_append, parse_members_at_quote, parse_string_body_quote_body,
    expect_colon, parse_value_quote, skip_ws_comma.
  reflexivity.
Qed.

(** A member with a string value that closes the object. *)
Lemma parse_members_string_last (fuel : nat) (k s rest : string) :
  JSON.parse_members (S (S fuel))
    (JSON.quote k ++ ":" ++ JSON.quote s ++ "}" ++ rest)
  = Some ([(JSON.units_of_string k, JSON.JString (JSON.units_of_string s))],
          rest).
Proof.
  rewrite quote_append, parse_members_at_quote, parse_string_body_quote_body,
    expect_colon, parse_value_quote, skip_ws_brace.
  reflexivity.
Qed.

(** A member with a boolean value, followed by more members. *)
Lemma parse_members_bool_more (fuel : nat) (k : string) (b : bool)
  (rest : string) :
  JSON.parse_members (S (S fuel))
    (JSON.quote k ++ ":" ++ (if b then "true" else "false") ++ "," ++ rest)
  = match JSON.parse_members (S fuel) rest with
    | Some (ms, r) =>
        Some ((JSON.units_of_string k, JSON.JBool b) :: ms, r)
    | None => None
    end.
Proof.
  rewrite quote_append, parse_members_at_quote, parse_string_body_quote_body,
    expect_colon.
  destruct b; reflexivity.
Qed.

Lemma parse_value_at_brace (fuel : nat) (k rest : string) :
  JSON.parse_value (S fuel) ("{" ++ JSON.quote k ++ rest)
  = match JSON.parse_members fuel (JSON.quote k ++ rest) with
    | Some (ms, r) => Some (JSON.JObject ms, r)
    | None => None
    end.
Proof. rewrite quote_append. reflexivity. Qed.

Lemma parse_value_stringify (fuel : nat) (v : ValidationStep) :
  JSON.parse_value (8 + fuel) (stringify v)
  = Some (JSON.JObject (members_of v), "").
Proof.
  unfold stringify, members_of.
  change (8 + fuel) with (S (S (S (S (S (S (S (S fuel)))))))).
  rewrite parse_value_at_brace.
  rewrite parse_members_string_more, parse_members_bool_more,
    parse_members_string_more, parse_members_string_more.
  destruct (generated_content v) as [g|].
  - rewrite !append_assoc.
    change (JSON.quote g ++ "}") with (JSON.quote g ++ "}" ++ "").
    rewrite parse_members_string_more, parse_members_string_last.
    reflexivity.
  - change ("" ++ "}") with ("}" ++ "").
    rewrite parse_members_string_last. reflexivity.
Qed.

Lemma length_append (a b : string) :
  String.length (a ++ b) = String.length a + String.length b.
Proof. induction a as [|c a IH]; simpl; [reflexivity | rewrite IH; reflexivity]. Qed.

(** [JSON.parse] reads a stringified verdict as the object of its
    members. *)
Lemma parse_stringify (v : ValidationStep) :
  JSON.parse (stringify v) = Normal (JSON.JObject (members_of v)).
Proof.
  unfold JSON.parse.
  assert (Hlen : 4 <= String.length (stringify v)).
  { unfold stringify. rewrite !length_append. simpl. lia. }
  replace (S (2 * String.length (stringify v)))
    with (8 + (2 * String.length (stringify v) - 7)) by lia.
  rewrite parse_value_stringify. reflexivity.
Qed.

Lemma passed_of_members (v : ValidationStep) :
  JSON.get_property (JSON.JObject (members_of v)) "passed"
  = Normal (Some (JSON.JBool (passed v))).
Proof.
  unfold members_of. destruct (generated_content v); reflexivity.
Qed.

(** ** The policy predicate and the items around the last ordinary result *)

Lemma most_recent_ordinary_none (h : list Auditor.HistoryItem) :
  forallb (fun i => negb (Auditor.is_ordinary_result i)) h = true ->
  most_recent_ordinary h = None.
Proof.
  induction h as [|i h IH]; simpl; [reflexivity|].
  intros H. apply andb_true_iff in H. destruct H as [Hi Hh].
  rewrite (IH Hh). destruct (Auditor.is_ordinary_result i);
    [discriminate | reflexivity].
Qed.

Lemma most_recent_ordinary_app (h1 h2 : list Auditor.HistoryItem)
  (item : Auditor.HistoryItem) :
  Auditor.is_ordinary_result item = true ->
  forallb (fun i => negb (Auditor.is_ordinary_result i)) h2 = true ->
  most_recent_ordinary (h1 ++ item :: h2)%list = Some item.
Proof.
  intros Hi Hh. induction h1 as [|i h1 IH]; simpl.
  - rewrite (most_recent_ordinary_none h2 Hh), Hi. reflexivity.
  - rewrite IH. reflexivity.
Qed.

(** X14. Only the last ordinary result counts: whatever the history holds
    before the most recent result of the ordinary checker, and whatever
    items of other kinds follow it, the predicate answers, or throws, as on
    the history of that result alone. *)
Theorem isNecessaryEnabled_last_ordinary_result_alone
  (h1 h2 : list Auditor.HistoryItem) (item : Auditor.HistoryItem) :
  Auditor.is_ordinary_result item = true ->
  forallb (fun i => negb (Auditor.is_ordinary_result i)) h2 = true ->
  Auditor.isNecessaryEnabled
    {| Auditor.history := Some (h1 ++ item :: h2)%list |}
  = Auditor.isNecessaryEnabled {| Auditor.history := Some [item] |}.
Proof.
  intros Hi Hh.
  rewrite (isNecessaryEnabled_most_recent _ item
             (most_recent_ordinary_app h1 h2 item Hi Hh)).
  rewrite (isNecessaryEnabled_most_recent [item] item
             (most_recent_ordinary_app [] [] item Hi eq_refl)).
  reflexivity.
Qed.

Lemma isNecessaryEnabled_last_ordinary_result_alone_witness :
  Auditor.is_ordinary_result (ordinary_item ordinary_pass) = true
  /\ forallb (fun i => negb (Auditor.is_ordinary_result i))
             [ {| Auditor.type := "message"; Auditor.name := None;
                  Auditor.output := "" |} ] = true
  /\ Auditor.isNecessaryEnabled
       {| Auditor.history :=
            Some ([ordinary_item ordinary_fail]
                  ++ ordinary_item ordinary_pass
                  :: [ {| Auditor.type := "message"; Auditor.name := None;
                          Auditor.output := "" |} ])%list |}
     = Auditor.isNecessaryEnabled
         {| Auditor.history := Some [ordinary_item ordinary_pass] |}.
Proof.
  split; [reflexivity|]. split; [reflexivity|].
  exact (isNecessaryEnabled_last_ordinary_result_alone
           [ordinary_item ordinary_fail]
           [ {| Auditor.type := "message"; Auditor.name := None;
                Auditor.output := "" |} ]
           (ordinary_item ordinary_pass) eq_refl eq_refl).
Defined.

(** X15. The gate reads what the checker wrote: when the most recent
    ordinary result of a history carries the verdict [v] as
    [JSON.stringify] writes it, whatever texts the verdict holds, the
    predicate returns the [passed] of [v] and throws nothing. *)
Theorem isNecessaryEnabled_reads_stringified_verdict
  (h1 h2 : list Auditor.HistoryItem) (v : ValidationStep) :
  forallb (fun i => negb (Auditor.is_ordinary_result i)) h2 = true ->
  JSON.parse (stringify v) = Normal (JSON.JObject (members_of v))
  /\ Auditor.isNecessaryEnabled
       {| Auditor.history := Some (h1 ++ ordinary_item v :: h2)%list |}
     = Normal (passed v).
Proof.
  intros Hh. split; [apply parse_stringify|].
  rewrite (isNecessaryEnabled_most_recent _ (ordinary_item v)
             (most_recent_ordinary_app h1 h2 (ordinary_item v)
                eq_refl Hh)).
  cbn [Auditor.output ordinary_item].
  rewrite parse_stringify. cbn [bind].
  rewrite passed_of_members. destruct (passed v); reflexivity.
Qed.

Lemma isNecessaryEnabled_reads_stringified_verdict_witness :
  forallb (fun i => negb (Auditor.is_ordinary_result i)) [] = true
  /\ Auditor.isNecessaryEnabled
       {| Auditor.history :=
            Some ([ordinary_item ordinary_pass]
                  ++ ordinary_item ordinary_fail :: [])%list |}
     = Normal false.
Proof.
  split; [reflexivity|].
  exact (proj2 (isNecessaryEnabled_reads_stringified_verdict
                  [ordinary_item ordinary_pass] [] ordinary_fail eq_refl)).
Defined.

(** X16. When the predicate throws: on a history with a most recent
    ordinary result, the predicate throws exactly when [JSON.parse] throws
    on the payload, and then the same error, or when the payload is the
    JSON text of [null], and then a [TypeError]; on every other payload it
    returns a boolean. *)
Theorem isNecessaryEnabled_throws_exactly (h : list Auditor.HistoryItem)
  (r : Auditor.HistoryItem) :
  most_recent_ordinary h = Some r ->
  match JSON.parse (Auditor.output r) with
  | Throw e =>
      Auditor.isNecessaryEnabled {| Auditor.history := Some h |} = Throw e
  | Normal JSON.JNull =>
      Auditor.isNecessaryEnabled {| Auditor.history := Some h |}
      = Throw TypeError
  | Normal _ =>
      exists b,
        Auditor.isNecessaryEnabled {| Auditor.history := Some h |} = Normal b
  end.
Proof.
  intros Hr. rewrite (isNecessaryEnabled_most_recent h r Hr).
  destruct (JSON.parse (Auditor.output r)) as [out|e]; [|reflexivity].
  destruct out; cbn; eexists; reflexivity || reflexivity.
Qed.

Lemma isNecessaryEnabled_throws_exactly_witness :
  most_recent_ordinary
    [ {| Auditor.type := "function_call_result";
         Auditor.name := Some "is_ordinary_rule_checker";
         Auditor.output := "null" |} ]
  = Some {| Auditor.type := "function_call_result";
            Auditor.name := Some "is_ordinary_rule_checker";
            Auditor.output := "null" |}
  /\ Auditor.isNecessaryEnabled
       {| Auditor.history :=
            Some [ {| Auditor.type := "function_call_result";
                      Auditor.name := Some "is_ordinary_rule_checker";
                      Auditor.output := "null" |} ] |}
     = Throw TypeError.
Proof.
  split; [reflexivity|].
  exact (isNecessaryEnabled_throws_exactly
           [ {| Auditor.type := "function_call_result";
                Auditor.name := Some "is_ordinary_rule_checker";
                Auditor.output := "null" |} ]
           {| Auditor.type := "function_call_result";
              Auditor.name := Some "is_ordinary_rule_checker";
              Auditor.output := "null" |} eq_refl).
Defined.

(** ** The pseudo-hash *)

Lemma toInt32_range (z : Z) :
  (-2147483648 <= AuditContext.toInt32 z < 2147483648)%Z.
Proof.
  unfold AuditContext.toInt32.
  pose proof (Z.mod_pos_bound (z + 2147483648) 4294967296 eq_refl). lia.
Qed.

Lemma toInt32_add (a b : Z) :
  AuditContext.toInt32 (AuditContext.toInt32 a + b)
  = AuditContext.toInt32 (a + b).
Proof.
  unfold AuditContext.toInt32. f_equal.
  replace ((a + 2147483648) mod 4294967296 - 2147483648 + b + 2147483648)%Z
    with ((a + 2147483648) mod 4294967296 + b)%Z by lia.
  rewrite Z.add_mod_idemp_l by lia. f_equal. lia.
Qed.

Lemma toInt32_mul (k a : Z) :
  AuditContext.toInt32 (k * AuditContext.toInt32 a)
  = AuditContext.toInt32 (k * a).
Proof.
  unfold AuditContext.toInt32. f_equal.
  replace (k * ((a + 2147483648) mod 4294967296 - 2147483648) + 2147483648)%Z
    with (k * ((a + 2147483648) mod 4294967296)
          + (2147483648 - k * 2147483648))%Z by lia.
  rewrite Z.add_mod by lia. rewrite Z.mul_mod_idemp_r by lia.
  rewrite <- Z.add_mod by lia. f_equal. lia.
Qed.

(** One round multiplies by 31 and adds the code unit, modulo [2^32]. *)
Lemma hash_step_31 (h : Z) (c : ascii) :
  AuditContext.hash_step h c
  = AuditContext.toInt32 (31 * h + Z.of_nat (nat_of_ascii c)).
Proof.
  unfold AuditContext.hash_step. rewrite Z.shiftl_mul_pow2 by lia.
  replace (AuditContext.toInt32 (h * 2 ^ 5) - h + Z.of_nat (nat_of_ascii c))%Z
    with (AuditContext.toInt32 (h * 2 ^ 5)
          + (Z.of_nat (nat_of_ascii c) - h))%Z by lia.
  rewrite toInt32_add. f_equal. lia.
Qed.

Lemma hash_loop_polynomial (x : Z) (s : string) :
  AuditContext.hash_loop (AuditContext.toInt32 x) s
  = AuditContext.toInt32 (polynomial x s).
Proof.
  revert x. induction s as [|c s IH]; intros x;
    cbn [AuditContext.hash_loop polynomial]; [reflexivity|].
  rewrite hash_step_31, <- toInt32_add, toInt32_mul, toInt32_add.
  apply IH.
Qed.

Lemma hash_loop_app (h : Z) (a b : string) :
  AuditContext.hash_loop h (a ++ b)
  = AuditContext.hash_loop (AuditContext.hash_loop h a) b.
Proof.
  revert h. induction a as [|c a IH]; intros h; simpl;
    [reflexivity | apply IH].
Qed.

Lemma hash_loop_range (s : string) :
  (-2147483648 <= AuditContext.hash_loop 0 s < 2147483648)%Z.
Proof.
  change 0%Z with (AuditContext.toInt32 0).
  rewrite hash_loop_polynomial. apply toInt32_range.
Qed.

(** X17. The hash is the polynomial hash of multiplier 31 in 32 bits: the
    loop of shifts and masks computes the polynomial of the code units on
    the integers, wrapped once into the signed 32-bit range, where it
    stays. *)
Theorem hash_loop_is_polynomial_hash (str : string) :
  AuditContext.hash_loop 0 str = AuditContext.toInt32 (polynomial 0 str)
  /\ (-2147483648 <= AuditContext.hash_loop 0 str < 2147483648)%Z.
Proof.
  split; [|apply hash_loop_range].
  change (AuditContext.hash_loop 0 str)
    with (AuditContext.hash_loop (AuditContext.toInt32 0) str).
  apply hash_loop_polynomial.
Qed.

Lemma polynomial_linear (h : Z) (s : string) :
  polynomial h s
  = (h * 31 ^ Z.of_nat (String.length s) + polynomial 0 s)%Z.
Proof.
  revert h. induction s as [|c s IH]; intros h.
  - simpl. lia.
  - cbn [polynomial String.length]. rewrite IH.
    rewrite (IH (31 * 0 + Z.of_nat (nat_of_ascii c))%Z).
    rewrite Nat2Z.inj_succ, Z.pow_succ_r by lia. lia.
Qed.

Lemma toInt32_congr (a b k : Z) :
  AuditContext.toInt32 a = AuditContext.toInt32 b ->
  AuditContext.toInt32 (k + a) = AuditContext.toInt32 (k + b).
Proof.
  intros H. rewrite (Z.add_comm k a), (Z.add_comm k b).
  rewrite <- (toInt32_add a k), <- (toInt32_add b k), H. reflexivity.
Qed.

(** X18. The hash does not tell apart what the polynomial does not: two
    fragments of the same length whose polynomials agree modulo [2^32] can
    be exchanged anywhere in the hashed text without changing the hash,
    for the same reading of the random number. *)
Theorem generateHash_collides (random16 a b p s : string) :
  String.length a = String.length b ->
  AuditContext.toInt32 (polynomial 0 a)
  = AuditContext.toInt32 (polynomial 0 b) ->
  AuditContext.generateHash random16 (p ++ a ++ s)
  = AuditContext.generateHash random16 (p ++ b ++ s).
Proof.
  intros Hlen Hpoly. unfold AuditContext.generateHash.
  rewrite !hash_loop_app.
  assert (Hab : forall h,
             AuditContext.hash_loop (AuditContext.toInt32 h) a
             = AuditContext.hash_loop (AuditContext.toInt32 h) b).
  { intros h. rewrite !hash_loop_polynomial.
    rewrite (polynomial_linear h a), (polynomial_linear h b), Hlen.
    apply toInt32_congr, Hpoly. }
  assert (Hh : forall h,
             (-2147483648 <= h < 2147483648)%Z -> AuditContext.toInt32 h = h).
  { intros h Hr. unfold AuditContext.toInt32.
    rewrite Z.mod_small by lia. lia. }
  rewrite <- (Hh (AuditContext.hash_loop 0 p) (hash_loop_range p)).
  rewrite Hab. reflexivity.
Qed.

Lemma generateHash_collides_witness :
  String.length "Aa" = String.length "BB"
  /\ AuditContext.toInt32 (polynomial 0 "Aa")
     = AuditContext.toInt32 (polynomial 0 "BB")
  /\ AuditContext.generateHash "0.8f3a91c2d4"
       ("Result: " ++ "Aa" ++ " passed")
     = AuditContext.generateHash "0.8f3a91c2d4"
         ("Result: " ++ "BB" ++ " passed").
Proof.
  split; [reflexivity|]. split; [reflexivity|].
  exact (generateHash_collides "0.8f3a91c2d4" "Aa" "BB" "Result: " " passed"
           eq_refl eq_refl).
Defined.

(** ** The digits of the hash *)

Lemma hex_value_digit_char (d : N) :
  (d < 16)%N -> JSON.hex_value (AuditContext.digit_char d) = Some d.
Proof.
  intros H. destruct d as [|p]; [reflexivity|].
  do 4 (try destruct p as [p|p|]); try reflexivity; exfalso; lia.
Qed.

Lemma read_digits_app (base : N) (x y : string) (acc : N) :
  read_digits base acc (x ++ y)
  = match read_digits base acc x with
    | Some v => read_digits base v y
    | None => None
    end.
Proof.
  revert acc. induction x as [|c x IH]; intros acc; simpl; [reflexivity|].
  destruct (JSON.hex_value c) as [d|]; [|reflexivity].
  destruct (d <? base)%N; [apply IH | reflexivity].
Qed.

Lemma read_digits_zeros (base : N) (n : nat) (d : string) :
  (0 < base)%N ->
  read_digits base 0 (zeros n ++ d) = read_digits base 0 d.
Proof.
  intros Hb. induction n as [|n IH]; [reflexivity|].
  cbn [zeros append read_digits].
  change (JSON.hex_value "0") with (Some 0%N). cbv iota.
  destruct (N.ltb_spec 0 base) as [_|]; [|lia].
  replace (base * 0 + 0)%N with 0%N by lia. exact IH.
Qed.

Lemma zeros_length (n : nat) : String.length (zeros n) = n.
Proof. induction n as [|n IH]; simpl; congruence. Qed.

Lemma zeros_add (n m : nat) : zeros (n + m) = zeros n ++ zeros m.
Proof. induction n as [|n IH]; simpl; congruence. Qed.

(** The digits that [toString] writes in a base from 2 to 16 read back as
    the number, and they are as few as the number allows. *)
Lemma digits_read_back (base : N) (fuel : nat) :
  (2 <= base <= 16)%N ->
  forall (n : N) (acc : string),
    (n < 2 ^ N.of_nat fuel)%N ->
    exists d,
      AuditContext.digits (S fuel) base n acc = d ++ acc
      /\ read_digits base 0 d = Some n
      /\ 1 <= String.length d
      /\ (forall k, (n < base ^ N.of_nat (S k))%N -> String.length d <= S k).
Proof.
  intros Hbase. induction fuel as [|fuel IH]; intros n acc Hn.
  - assert (n = 0%N) by (simpl in Hn; lia). subst n.
    exists "0". split; [|split; [|split]].
    + reflexivity.
    + cbn [read_digits]. change (JSON.hex_value "0") with (Some 0%N).
      cbv iota. destruct (N.ltb_spec 0 base) as [_|]; [|lia].
      f_equal. lia.
    + simpl. lia.
    + intros. simpl. lia.
  - change (AuditContext.digits (S (S fuel)) base n acc)
      with (if (n / base =? 0)%N
            then String (AuditContext.digit_char (n mod base)) acc
            else AuditContext.digits (S fuel) base (n / base)
                   (String (AuditContext.digit_char (n mod base)) acc)).
    assert (Hm : (n mod base < base)%N) by (apply N.mod_lt; lia).
    assert (Hm16 : (n mod base < 16)%N) by lia.
    assert (Hdm : n = (base * (n / base) + n mod base)%N)
      by (apply N.div_mod; lia).
    assert (Hlt : (n mod base <? base)%N = true) by (apply N.ltb_lt, Hm).
    destruct (N.eqb_spec (n / base) 0) as [Hz|Hnz].
    + exists (String (AuditContext.digit_char (n mod base)) "").
      split; [reflexivity|]. split.
      * cbn [read_digits]. rewrite (hex_value_digit_char _ Hm16), Hlt.
        f_equal. lia.
      * split; [simpl; lia|]. intros k _. simpl. lia.
    + assert (Hpow : (0 < 2 ^ N.of_nat fuel)%N)
        by (apply N.neq_0_lt_0, N.pow_nonzero; lia).
      assert (Hq : (n / base < 2 ^ N.of_nat fuel)%N).
      { apply N.Div0.div_lt_upper_bound.
        rewrite Nat2N.inj_succ, N.pow_succ_r' in Hn.
        apply (N.lt_le_trans _ (2 * 2 ^ N.of_nat fuel)); [exact Hn|].
        apply N.mul_le_mono_r. lia. }
      destruct (IH (n / base)%N
                  (String (AuditContext.digit_char (n mod base)) acc) Hq)
        as [d [Hd [Hr [Hl Hk]]]].
      exists (d ++ String (AuditContext.digit_char (n mod base)) "").
      split; [|split; [|split]].
      * rewrite Hd, append_assoc. reflexivity.
      * rewrite read_digits_app, Hr. cbn [read_digits].
        rewrite (hex_value_digit_char _ Hm16), Hlt. f_equal. lia.
      * rewrite length_append. simpl. lia.
      * intros k Hlt'. rewrite length_append. simpl.
        destruct k as [|k].
        { exfalso. change (N.of_nat 1) with 1%N in Hlt'.
          rewrite N.pow_1_r in Hlt'.
          apply Hnz, N.div_small, Hlt'. }
        assert (String.length d <= S k); [|lia].
        apply Hk. apply N.Div0.div_lt_upper_bound.
        rewrite (Nat2N.inj_succ (S k)), N.pow_succ_r' in Hlt'. exact Hlt'.
Qed.

Lemma toString_reads_back (base n : N) :
  (2 <= base <= 16)%N ->
  exists d,
    AuditContext.toString base n = d
    /\ read_digits base 0 d = Some n
    /\ 1 <= String.length d
    /\ (forall k, (n < base ^ N.of_nat (S k))%N -> String.length d <= S k).
Proof.
  intros Hbase. unfold AuditContext.toString.
  destruct (digits_read_back base (N.to_nat (N.size n)) Hbase n "")
    as [d [Hd H]].
  { rewrite N2Nat.id. apply N.size_gt. }
  exists d. rewrite Hd, append_empty_r. split; [reflexivity | exact H].
Qed.

Lemma substring_length_le (s : string) :
  forall start len, String.length (substring start len s) <= len.
Proof.
  induction s as [|c s IH]; intros [|start] [|len]; cbn [substring];
    cbn [String.length]; try lia.
  - specialize (IH 0 len). lia.
  - apply IH.
  - apply IH.
Qed.

(** X19. The sixteen digits of a hash hold thirty-two bits: after [0x]
    come eight zeros, then eight hexadecimal digits that read back as the
    absolute value of the 32-bit hash, then at most eight characters of
    the random number. *)
Theorem generateHash_format (random16 str : string) :
  exists d,
    AuditContext.generateHash random16 str
    = "0x00000000" ++ d ++ substr 2 8 random16
    /\ String.length d = 8
    /\ read_digits 16 0 d = Some (Z.to_N (Z.abs (AuditContext.hash_loop 0 str)))
    /\ String.length (substr 2 8 random16) <= 8.
Proof.
  unfold AuditContext.generateHash.
  set (n := Z.to_N (Z.abs (AuditContext.hash_loop 0 str))).
  assert (Hn : (n < 16 ^ N.of_nat 8)%N).
  { pose proof (hash_loop_range str). subst n.
    change (16 ^ N.of_nat 8)%N with 4294967296%N. lia. }
  destruct (toString_reads_back 16 n) as [d [Hd [Hr [Hl Hk]]]]; [lia|].
  rewrite Hd. specialize (Hk 7 Hn).
  exists (zeros (8 - String.length d) ++ d).
  split; [|split; [|split]].
  - unfold padStart0.
    replace (16 - String.length d) with (8 + (8 - String.length d)) by lia.
    rewrite zeros_add, !append_assoc. reflexivity.
  - rewrite length_append, zeros_length. lia.
  - rewrite read_digits_zeros by lia. exact Hr.
  - apply substring_length_le.
Qed.

(** ** The figures of the audit log *)

Lemma status_eqb_eq (a b : AuditContext.Status) :
  AuditLog.status_eqb a b = true <-> a = b.
Proof. destruct a, b; simpl; split; congruence. Qed.

(** The object of the [reduce] holds, for a status, the count so far plus
    the number of entries of that status, and nothing for a status it has
    not met. *)
Lemma fold_count_one (entries : list AuditContext.AuditEntry) :
  forall (acc : AuditLog.Counts) (s : AuditContext.Status),
    fold_left AuditLog.count_one entries acc s
    = match List.length
              (filter (fun e => AuditLog.status_eqb s (AuditContext.status e))
                      entries) with
      | O => acc s
      | S n => Some (AuditLog.count_or_0 (acc s) + S n)
      end.
Proof.
  induction entries as [|e entries IH]; intros acc s; [reflexivity|].
  cbn [fold_left filter]. rewrite IH. unfold AuditLog.count_one.
  destruct (AuditLog.status_eqb s (AuditContext.status e)) eqn:E.
  - apply status_eqb_eq in E. subst s. cbn [List.length].
    destruct (List.length _); cbn [AuditLog.count_or_0]; f_equal; lia.
  - reflexivity.
Qed.

Lemma statusCounts_count (entries : list AuditContext.AuditEntry)
  (s : AuditContext.Status) :
  AuditLog.count_or_0 (AuditLog.statusCounts entries s)
  = List.length
      (filter (fun e => AuditLog.status_eqb s (AuditContext.status e))
              entries).
Proof.
  unfold AuditLog.statusCounts. rewrite fold_count_one.
  destruct (List.length _); reflexivity.
Qed.

Lemma status_partition (entries : list AuditContext.AuditEntry) :
  List.length entries
  = List.length (filter (fun e => AuditLog.status_eqb AuditContext.Verified
                                    (AuditContext.status e)) entries)
    + List.length (filter (fun e => AuditLog.status_eqb AuditContext.Pending
                                      (AuditContext.status e)) entries)
    + List.length (filter (fun e => AuditLog.status_eqb AuditContext.Refining
                                      (AuditContext.status e)) entries)
    + List.length (filter (fun e => AuditLog.status_eqb AuditContext.Error
                                      (AuditContext.status e)) entries).
Proof.
  induction entries as [|e entries IH]; [reflexivity|].
  cbn [filter]. destruct (AuditContext.status e);
    cbn [AuditLog.status_eqb List.length] in *; lia.
Qed.

(** X20. The status chart accounts for every entry once: its slices are
    those of the four statuses, in the order Verified, Pending, Refining,
    Error, that some entry has, each with the number of entries of that
    status; no slice is empty and the values add up to the length of the
    ledger. *)
Theorem statusChart_accounts_for_every_entry
  (entries : list AuditContext.AuditEntry) :
  map (fun d => (AuditLog.slice_name d, AuditLog.value d))
      (AuditLog.statusChart entries)
  = filter (fun d => (0 <? snd d)%nat)
      (map (fun d =>
              (fst d,
               List.length
                 (filter (fun e => AuditLog.status_eqb (snd d)
                                     (AuditContext.status e)) entries)))
           [ ("Verified", AuditContext.Verified);
             ("Pending", AuditContext.Pending);
             ("Refining", AuditContext.Refining);
             ("Error", AuditContext.Error) ])
  /\ forallb (fun d => (0 <? AuditLog.value d)%nat)
             (AuditLog.statusChart entries) = true
  /\ list_sum (map AuditLog.value (AuditLog.statusChart entries))
     = List.length entries.
Proof.
  unfold AuditLog.statusChart. rewrite !statusCounts_count.
  rewrite (status_partition entries).
  cbn [map fst snd filter AuditLog.value].
  destruct (List.length
              (filter (fun e => AuditLog.status_eqb AuditContext.Verified _)
                      entries)) as [|v];
  destruct (List.length
              (filter (fun e => AuditLog.status_eqb AuditContext.Pending _)
                      entries)) as [|p];
  destruct (List.length
              (filter (fun e => AuditLog.status_eqb AuditContext.Refining _)
                      entries)) as [|r];
  destruct (List.length
              (filter (fun e => AuditLog.status_eqb AuditContext.Error _)
                      entries)) as [|x];
  cbn; repeat split; lia.
Qed.

Lemma filter_length_le {A : Type} (f : A -> bool) (l : list A) :
  List.length (filter f l) <= List.length l.
Proof.
  induction l as [|a l IH]; simpl; [lia|]. destruct (f a); simpl; lia.
Qed.

Lemma filter_length_split {A : Type} (f g h : A -> bool) (l : list A) :
  (forall a, f a = g a || h a) ->
  (forall a, g a && h a = false) ->
  List.length (filter f l)
  = List.length (filter g l) + List.length (filter h l).
Proof.
  intros Hf Hd. induction l as [|a l IH]; [reflexivity|].
  cbn [filter]. rewrite (Hf a). specialize (Hd a).
  destruct (g a), (h a); try discriminate Hd; cbn [orb List.length]; lia.
Qed.

Lemma filter_length_impl {A : Type} (f g : A -> bool) (l : list A) :
  (forall a, f a = true -> g a = true) ->
  List.length (filter f l) <= List.length (filter g l).
Proof.
  intros H. induction l as [|a l IH]; [reflexivity|].
  cbn [filter]. specialize (H a).
  destruct (f a), (g a); cbn [List.length]; try lia.
Qed.

Lemma filter_false {A : Type} (l : list A) :
  filter (fun _ => false) l = [].
Proof. induction l; simpl; congruence. Qed.

(** X21. The counters of the compliance panel and the rows of the table:
    the entries below the threshold are among the audited ones, which are
    among all entries; the rows drawn as a risk are the entries counted
    below the threshold and, when the threshold is above zero, also the
    entries whose score is present but zero or NaN, which no counter
    counts. *)
Theorem complianceMetrics_and_risky_rows (confidenceThreshold : number)
  (entries : list AuditContext.AuditEntry) :
  AuditLog.belowThreshold
    (AuditLog.complianceMetrics confidenceThreshold entries)
  <= AuditLog.totalAudited
       (AuditLog.complianceMetrics confidenceThreshold entries)
  /\ AuditLog.totalAudited
       (AuditLog.complianceMetrics confidenceThreshold entries)
     <= List.length entries
  /\ List.length (filter (AuditLog.isRisky confidenceThreshold) entries)
     = AuditLog.belowThreshold
         (AuditLog.complianceMetrics confidenceThreshold entries)
       + (if ltb (of_Z 0) confidenceThreshold
          then List.length
                 (filter (fun e =>
                            match AuditLog.criticScore_of e with
                            | Some s => negb (number_truthy s)
                            | None => false
                            end) entries)
          else 0).
Proof.
  unfold AuditLog.complianceMetrics.
  cbn [AuditLog.belowThreshold AuditLog.totalAudited].
  split; [|split].
  - apply filter_length_impl. intros e. unfold AuditLog.if_number.
    destruct (AuditLog.criticScore_of e) as [s|]; [|discriminate].
    destruct (number_truthy s); [reflexivity | discriminate].
  - apply filter_length_le.
  - rewrite (filter_length_split
               (AuditLog.isRisky confidenceThreshold)
               (fun e => match AuditLog.criticScore_of e with
                         | Some s => number_truthy s
                                     && ltb s confidenceThreshold
                         | None => false
                         end)
               (fun e => ltb (of_Z 0) confidenceThreshold
                         && match AuditLog.criticScore_of e with
                            | Some s => negb (number_truthy s)
                            | None => false
                            end)).
    + f_equal. destruct (ltb (of_Z 0) confidenceThreshold).
      * reflexivity.
      * cbn [andb]. rewrite filter_false. reflexivity.
    + intros e. unfold AuditLog.isRisky, AuditLog.number_or.
      destruct (AuditLog.criticScore_of e) as [s|].
      * destruct (number_truthy s), (ltb s confidenceThreshold),
          (ltb (of_Z 0) confidenceThreshold); reflexivity.
      * destruct (ltb (of_Z 0) confidenceThreshold); reflexivity.
    + intros e. destruct (AuditLog.criticScore_of e) as [s|].
      * destruct (number_truthy s), (ltb s confidenceThreshold),
          (ltb (of_Z 0) confidenceThreshold); reflexivity.
      * destruct (ltb (of_Z 0) confidenceThreshold); reflexivity.
Qed.

(** ** The ledger over several calls, and its readers *)

Lemma fold_log (calls : list LogCall)
  (prev : list AuditContext.AuditEntry) :
  fold_left log calls prev = (rev (map entry_of calls) ++ prev)%list.
Proof.
  revert prev. induction calls as [|c calls IH]; intros prev; [reflexivity|].
  cbn [fold_left map rev]. rewrite IH, <- app_assoc. reflexivity.
Qed.

(** X22. The ledger only grows at its head: after any number of calls of
    [addEntry] it holds the new entries, the newest first, before the
    earlier ledger, unchanged; started from a reset, nothing of the
    earlier ledger is left.  The image prompt reads from it the number of
    entries and, as its context, the details of the last call, or System
    Idle when they are empty. *)
Theorem ledger_after_calls (toFixed0 : number -> string)
  (r : AuditContext.Readings) (calls : list LogCall)
  (prev : list AuditContext.AuditEntry) :
  fold_left log calls prev = (rev (map entry_of calls) ++ prev)%list
  /\ fold_left log calls (AuditContext.clearLog r prev)
     = (rev (map entry_of calls) ++ AuditContext.clearLog r [])%list
  /\ ImageGen.total (ImageGen.metrics toFixed0 (fold_left log calls prev))
     = List.length calls + List.length prev
  /\ ImageGen.lastContext
       (ImageGen.metrics toFixed0 (fold_left log calls prev))
     = match rev calls with
       | c :: _ =>
           if truthy (call_details c) then call_details c
           else "System Idle"
       | [] => ImageGen.lastContext (ImageGen.metrics toFixed0 prev)
       end.
Proof.
  rewrite !fold_log. split; [reflexivity|]. split; [reflexivity|]. split.
  - cbn [ImageGen.metrics ImageGen.total].
    rewrite length_app, length_rev, length_map. reflexivity.
  - rewrite <- map_rev. destruct (rev calls) as [|c rest]; reflexivity.
Qed.

(** ** The telemetry chart *)

Lemma slice_last_snoc {A : Type} (n : nat) (l : list A) (x : A) :
  AuditLog.slice_last (S n) (l ++ [x])
  = (AuditLog.slice_last n l ++ [x])%list.
Proof.
  unfold AuditLog.slice_last. rewrite length_app. cbn [List.length].
  replace (List.length l + 1 - S n) with (List.length l - n) by lia.
  rewrite skipn_app.
  replace (List.length l - n - List.length l) with 0 by lia.
  reflexivity.
Qed.

Lemma slice_last_twice {A : Type} (n m : nat) (l : list A) :
  n <= m ->
  AuditLog.slice_last n (AuditLog.slice_last m l) = AuditLog.slice_last n l.
Proof.
  intros H. unfold AuditLog.slice_last.
  rewrite skipn_skipn, length_skipn. f_equal. lia.
Qed.

Lemma map_slice_last {A B : Type} (f : A -> B) (n : nat) (l : list A) :
  map f (AuditLog.slice_last n l) = AuditLog.slice_last n (map f l).
Proof.
  unfold AuditLog.slice_last. rewrite length_map, skipn_map. reflexivity.
Qed.

Lemma slice_last_length {A : Type} (n : nat) (l : list A) :
  List.length (AuditLog.slice_last n l) <= n.
Proof. unfold AuditLog.slice_last. rewrite length_skipn. lia. Qed.

(** X23. The telemetry chart follows the ledger: it never holds more than
    twenty points; a new entry whose metadata carry a latency or a score
    that is not zero becomes its last point, after the last nineteen of
    the points before, and any other new entry leaves the chart as it
    was. *)
Theorem telemetry_follows_the_ledger (toLocaleTimeString : Z -> string)
  (confidenceThreshold : number) (r : AuditContext.Readings)
  (action details : string) (source : AuditContext.Source)
  (status : option AuditContext.Status)
  (metadata : option AuditContext.ArbiterMetadata)
  (prev : list AuditContext.AuditEntry) :
  List.length (AuditLog.telemetry toLocaleTimeString confidenceThreshold prev)
  <= 20
  /\ AuditLog.telemetry toLocaleTimeString confidenceThreshold
       (AuditContext.addEntry r action details source status metadata prev)
     = if match metadata with
          | Some m => AuditLog.if_number (AuditContext.latencyMs m)
                      || AuditLog.if_number (AuditContext.criticScore m)
          | None => false
          end
       then (AuditLog.slice_last 19
               (AuditLog.telemetry toLocaleTimeString confidenceThreshold prev)
             ++ [ AuditLog.telemetry_point toLocaleTimeString
                    confidenceThreshold
                    (AuditContext.newEntry r action details source status
                       metadata) ])%list
       else AuditLog.telemetry toLocaleTimeString confidenceThreshold prev.
Proof.
  unfold AuditLog.telemetry. split.
  - rewrite length_map. apply slice_last_length.
  - unfold AuditContext.addEntry. cbn [rev]. rewrite filter_app.
    cbn [filter].
    unfold AuditLog.latencyMs_of at 2, AuditLog.criticScore_of at 2.
    cbn [AuditContext.newEntry AuditContext.metadata].
    destruct metadata as [m|].
    + destruct (AuditLog.if_number (AuditContext.latencyMs m)
                || AuditLog.if_number (AuditContext.criticScore m)).
      * rewrite slice_last_snoc, map_app, !map_slice_last.
        rewrite slice_last_twice by lia. reflexivity.
      * rewrite app_nil_r. reflexivity.
    + cbn [AuditLog.if_number orb]. rewrite app_nil_r. reflexivity.
Qed.

(** ** The tools offered over a run of the loop *)

Lemma served_length (budget : nat)
  (responses : list (list GeminiService.FunctionCall)) :
  List.length (GeminiService.served budget responses) <= budget.
Proof.
  revert responses. induction budget as [|budget IH]; intros responses;
    [simpl; lia|].
  destruct responses as [|[|call calls] later]; simpl; try lia.
  specialize (IH later). lia.
Qed.

Lemma states_length (now : string) (st : GeminiService.ToolsPolicyState)
  (rounds : list (list GeminiService.FunctionCall)) :
  List.length (GeminiService.states now st rounds) = S (List.length rounds).
Proof.
  revert st. induction rounds as [|calls later IH]; intros st; simpl;
    [reflexivity | rewrite IH; reflexivity].
Qed.

Lemma states_last (now : string) (rounds : list (list GeminiService.FunctionCall)) :
  forall st d,
    last (GeminiService.states now st rounds) d
    = fold_left (fun st calls => fold_left (GeminiService.after_call now)
                                   calls st) rounds st.
Proof.
  induction rounds as [|calls later IH]; intros st d; [reflexivity|].
  cbn [GeminiService.states fold_left]. rewrite <- (IH _ d).
  destruct later; reflexivity.
Qed.

Lemma states_latched (now : string)
  (rounds : list (list GeminiService.FunctionCall)) :
  forall st,
    GeminiService.ordinaryPassed st = true ->
    forallb GeminiService.ordinaryPassed
            (GeminiService.states now st rounds) = true.
Proof.
  induction rounds as [|calls later IH]; intros st H; simpl.
  - rewrite H. reflexivity.
  - rewrite H. apply IH. rewrite after_calls_passed, H. reflexivity.
Qed.

Lemma states_monotone (now : string)
  (rounds : list (list GeminiService.FunctionCall)) :
  forall st,
  exists before after,
    GeminiService.states now st rounds = (before ++ after)%list
    /\ forallb (fun s => negb (GeminiService.ordinaryPassed s)) before = true
    /\ forallb GeminiService.ordinaryPassed after = true.
Proof.
  induction rounds as [|calls later IH]; intros st.
  - destruct (GeminiService.ordinaryPassed st) eqn:E.
    + exists [], [st]. simpl. rewrite E. repeat split.
    + exists [st], []. simpl. rewrite E. repeat split.
  - destruct (GeminiService.ordinaryPassed st) eqn:E.
    + exists [], (GeminiService.states now st (calls :: later)).
      split; [reflexivity|]. split; [reflexivity|].
      apply states_latched, E.
    + destruct (IH (fold_left (GeminiService.after_call now) calls st))
        as [before [after [Hs [Hb Ha]]]].
      exists (st :: before), after. cbn [GeminiService.states].
      rewrite Hs. split; [reflexivity|]. split; [|exact Ha].
      simpl. rewrite E, Hb. reflexivity.
Qed.

Lemma forallb_map_ext {A B : Type} (f : A -> B) (g : B -> bool)
  (h : A -> bool) (l : list A) :
  (forall a, g (f a) = h a) -> forallb g (map f l) = forallb h l.
Proof.
  intros H. induction l as [|a l IH]; simpl; [reflexivity|].
  rewrite H, IH. reflexivity.
Qed.

Lemma last_map_cons {A B : Type} (f : A -> B) (l : list A) :
  forall (a : A) (d : B) (d' : A),
    last (map f (a :: l)) d = f (last (a :: l) d').
Proof.
  induction l as [|b l IH]; intros a d d'; [reflexivity|].
  change (last (map f (b :: l)) d = f (last (b :: l) d')). apply IH.
Qed.

(** X24. The tools over a run: the loop sends at most six requests; every
    request offers the five tools that need no gate, in the same order,
    and after them [verify_necessary] or nothing; the first request does
    not offer it; once a request offers it, every later request of the run
    does; and the last request offers what the state at the end of the
    loop allows. *)
Theorem offered_tools_over_a_run (now : string)
  (responses : list (list GeminiService.FunctionCall)) :
  1 <= List.length (GeminiService.offered_tools now responses) <= 6
  /\ Forall (fun tools =>
               firstn 5 tools
               = [ "verify_ordinary"; "verify_negotiability";
                   "analyze_clause_risks"; "draft_verified_form";
                   "consult_statute" ]
               /\ skipn 5 tools
                  = if array_includes tools "verify_necessary"
                    then ["verify_necessary"] else [])
            (GeminiService.offered_tools now responses)
  /\ hd_error (GeminiService.offered_tools now responses)
     = Some (GeminiService.getAllowedTools
               {| GeminiService.ordinaryPassed := false |})
  /\ (exists before after,
         GeminiService.offered_tools now responses = (before ++ after)%list
         /\ forallb (fun tools =>
                       negb (array_includes tools "verify_necessary"))
                    before = true
         /\ forallb (fun tools => array_includes tools "verify_necessary")
                    after = true)
  /\ last (GeminiService.offered_tools now responses) []
     = GeminiService.getAllowedTools
         (GeminiService.run_tool_loop now responses).
Proof.
  unfold GeminiService.offered_tools.
  set (rounds := GeminiService.served GeminiService.maxTurns responses).
  set (st0 := {| GeminiService.ordinaryPassed := false |}).
  assert (Hoff : forall st,
             array_includes (GeminiService.getAllowedTools st)
                            "verify_necessary"
             = GeminiService.ordinaryPassed st).
  { intros [[|]]; reflexivity. }
  split; [|split; [|split; [|split]]].
  - rewrite length_map, states_length.
    pose proof (served_length GeminiService.maxTurns responses) as H.
    fold rounds in H. unfold GeminiService.maxTurns in H. lia.
  - apply Forall_map, Forall_forall. intros [[|]] _; split; reflexivity.
  - destruct rounds; reflexivity.
  - destruct (states_monotone now rounds st0)
      as [before [after [Hs [Hb Ha]]]].
    exists (map GeminiService.getAllowedTools before),
           (map GeminiService.getAllowedTools after).
    rewrite Hs, map_app. split; [reflexivity|].
    split.
    + rewrite (forallb_map_ext _ _
                 (fun s => negb (GeminiService.ordinaryPassed s)));
        [exact Hb | intros st; f_equal; apply Hoff].
    + rewrite (forallb_map_ext _ _ GeminiService.ordinaryPassed);
        [exact Ha | exact Hoff].
  - unfold GeminiService.run_tool_loop. fold rounds. fold st0.
    rewrite <- (states_last now rounds st0 st0).
    destruct rounds as [|calls later]; [reflexivity|].
    cbn [GeminiService.states]. apply last_map_cons.
Qed.

(** ** From the ordinary checker to the gate *)

Lemma isNecessaryEnabled_after_verdict (h : list Auditor.HistoryItem)
  (v : ValidationStep) :
  Auditor.isNecessaryEnabled
    {| Auditor.history := Some (h ++ [ordinary_item v])%list |}
  = Normal (passed v).
Proof.
  rewrite (isNecessaryEnabled_most_recent _ (ordinary_item v)
             (most_recent_ordinary_app h [] (ordinary_item v)
                eq_refl eq_refl)).
  cbn [Auditor.output ordinary_item].
  rewrite parse_stringify. cbn [bind].
  rewrite passed_of_members. destruct (passed v); reflexivity.
Qed.

(** X25. The pipeline of the auditor package: when the verdict of the
    ordinary checker, as the tool returns it, is the last item of the
    history, the policy predicate enables the necessity checker exactly
    for the industry code 238350 with one of the five categories of the
    carpenters, in any letter case, whatever the history held before and
    whatever characters the two arguments contain. *)
Theorem ordinary_verdict_opens_the_gate (now naics expense : string)
  (h : list Auditor.HistoryItem) :
  exists v,
    Auditor.isOrdinaryTool_execute now naics expense = Normal v
    /\ Auditor.isNecessaryEnabled
         {| Auditor.history := Some (h ++ [ordinary_item v])%list |}
       = Normal (String.eqb naics "238350"
                 && array_includes
                      ["truck"; "hammer"; "saw"; "toolbox"; "work_boots"]
                      (toLowerCase expense)).
Proof.
  unfold Auditor.isOrdinaryTool_execute, LegalEngine.query.
  destruct (String.eqb naics "238350"
            && array_includes carpenter_items (toLowerCase expense)) eqn:E.
  - cbn [bind is_ordinary query_source].
    destruct (includes _ "Failed") eqn:F.
    + exfalso. apply andb_true_iff in E. destruct E as [E _].
      apply String.eqb_eq in E. subst naics. vm_compute in F.
      discriminate F.
    + eexists. split; [reflexivity|].
      rewrite isNecessaryEnabled_after_verdict. cbn [passed].
      change carpenter_items
        with ["truck"; "hammer"; "saw"; "toolbox"; "work_boots"] in E.
      rewrite E. reflexivity.
  - cbn [bind is_ordinary query_source].
    change carpenter_items
      with ["truck"; "hammer"; "saw"; "toolbox"; "work_boots"] in E.
    rewrite E.
    destruct (includes _ "Failed"); eexists; (split; [reflexivity|]);
      rewrite isNecessaryEnabled_after_verdict; reflexivity.
Qed.

(** ** The critic fails open *)


(** ** The parts of a rendered answer *)

Lemma strip_prefix_eq (lit s r : string) :
  JSON.strip_prefix lit s = Some r -> s = lit ++ r.
Proof.
  revert s. induction lit as [|a lit IH]; intros s H; simpl in H.
  - injection H as <-. reflexivity.
  - destruct s as [|b s]; [discriminate|].
    destruct (Ascii.eqb_spec a b) as [<-|]; [|discriminate].
    simpl. f_equal. apply IH, H.
Qed.

Lemma strip_prefix_ext (lit a r b : string) :
  JSON.strip_prefix lit a = Some r ->
  JSON.strip_prefix lit (a ++ b) = Some (r ++ b).
Proof.
  revert a. induction lit as [|k lit IH]; intros a H; simpl in H.
  - injection H as <-. reflexivity.
  - destruct a as [|c a]; [discriminate|]. simpl.
    destruct (Ascii.eqb k c); [apply IH, H | discriminate].
Qed.

Lemma strip_prefix_self (lit r : string) :
  JSON.strip_prefix lit (lit ++ r) = Some r.
Proof.
  induction lit as [|k lit IH]; simpl; [reflexivity|].
  rewrite Ascii.eqb_refl. exact IH.
Qed.

Lemma lazy_to_bracket_spec (s m rest : string) :
  LegalAdvisor.lazy_to_bracket s = Some (m, rest) ->
  s = m ++ rest
  /\ 1 <= String.length m
  /\ LegalAdvisor.lazy_to_bracket m = Some (m, "").
Proof.
  revert m. induction s as [|c s IH]; intros m H; simpl in H;
    [discriminate|].
  destruct (Ascii.eqb c "]") eqn:Eb.
  - injection H as <- <-. apply Ascii.eqb_eq in Eb. subst c.
    repeat split. simpl. lia.
  - destruct (LegalAdvisor.is_line_terminator c) eqn:El; [discriminate|].
    destruct (LegalAdvisor.lazy_to_bracket s) as [[m' rest']|] eqn:E;
      [|discriminate].
    injection H as <- <-. destruct (IH m' eq_refl) as [Hs [Hl Hm]].
    split; [simpl; congruence|]. split; [simpl; lia|].
    simpl. rewrite Eb, El, Hm. reflexivity.
Qed.

Lemma lazy_to_bracket_ext (a m r b : string) :
  LegalAdvisor.lazy_to_bracket a = Some (m, r) ->
  LegalAdvisor.lazy_to_bracket (a ++ b) = Some (m, r ++ b).
Proof.
  revert m. induction a as [|c a IH]; intros m H; simpl in H;
    [discriminate|]. simpl.
  destruct (Ascii.eqb c "]").
  - injection H as <- <-. reflexivity.
  - destruct (LegalAdvisor.is_line_terminator c); [discriminate|].
    destruct (LegalAdvisor.lazy_to_bracket a) as [[m' r']|]; [|discriminate].
    injection H as <- <-. rewrite (IH m' eq_refl). reflexivity.
Qed.

(** The two ways a tag is matched. *)
Lemma match_tag_cases (s m rest : string) :
  LegalAdvisor.match_tag s = Some (m, rest) ->
  exists opener r m0,
    (opener = "[SIGNATURE_FIELD:" \/ opener = "[CITATION:")
    /\ JSON.strip_prefix opener s = Some r
    /\ LegalAdvisor.lazy_to_bracket r = Some (m0, rest)
    /\ m = opener ++ m0.
Proof.
  unfold LegalAdvisor.match_tag. intros H.
  destruct (JSON.strip_prefix "[SIGNATURE_FIELD:" s) as [r|] eqn:E1.
  - destruct (LegalAdvisor.lazy_to_bracket r) as [[m0 rest0]|] eqn:E2;
      [|discriminate].
    injection H as <- <-. exists "[SIGNATURE_FIELD:", r, m0.
    repeat split; auto.
  - destruct (JSON.strip_prefix "[CITATION:" s) as [r|] eqn:E3;
      [|discriminate].
    destruct (LegalAdvisor.lazy_to_bracket r) as [[m0 rest0]|] eqn:E2;
      [|discriminate].
    injection H as <- <-. exists "[CITATION:", r, m0.
    repeat split; auto.
Qed.

Lemma match_tag_opener (opener r m0 rest : string) :
  opener = "[SIGNATURE_FIELD:" \/ opener = "[CITATION:" ->
  LegalAdvisor.lazy_to_bracket r = Some (m0, rest) ->
  LegalAdvisor.match_tag (opener ++ r) = Some (opener ++ m0, rest).
Proof.
  intros [->| ->] H.
  - unfold LegalAdvisor.match_tag. rewrite strip_prefix_self, H.
    reflexivity.
  - unfold LegalAdvisor.match_tag.
    change (JSON.strip_prefix "[SIGNATURE_FIELD:" ("[CITATION:" ++ r))
      with (@None string).
    rewrite strip_prefix_self, H. reflexivity.
Qed.

Lemma match_tag_spec (s m rest : string) :
  LegalAdvisor.match_tag s = Some (m, rest) ->
  s = m ++ rest
  /\ 1 <= String.length m
  /\ LegalAdvisor.match_tag m = Some (m, "").
Proof.
  intros H.
  destruct (match_tag_cases s m rest H) as [opener [r [m0 [Ho [Hs [Hl ->]]]]]].
  destruct (lazy_to_bracket_spec r m0 rest Hl) as [Hr [Hlen Hm]].
  apply strip_prefix_eq in Hs. subst s r.
  split; [rewrite append_assoc; reflexivity|].
  split; [rewrite length_append; lia|].
  apply match_tag_opener; assumption.
Qed.

Lemma match_tag_ext (a m r b : string) :
  LegalAdvisor.match_tag a = Some (m, r) ->
  LegalAdvisor.match_tag (a ++ b) = Some (m, r ++ b).
Proof.
  intros H.
  destruct (match_tag_cases a m r H) as [opener [r0 [m0 [Ho [Hs [Hl ->]]]]]].
  apply strip_prefix_eq in Hs. subst a. rewrite append_assoc.
  apply match_tag_opener; [exact Ho|].
  apply lazy_to_bracket_ext, Hl.
Qed.

Lemma match_tag_none_prefix (a b : string) :
  LegalAdvisor.match_tag (a ++ b) = None -> LegalAdvisor.match_tag a = None.
Proof.
  intros H. destruct (LegalAdvisor.match_tag a) as [[m r]|] eqn:E;
    [|reflexivity].
  rewrite (match_tag_ext a m r b E) in H. discriminate H.
Qed.

Lemma is_tag_match (s m rest : string) :
  LegalAdvisor.match_tag s = Some (m, rest) -> is_tag m = true.
Proof.
  intros H. destruct (match_tag_spec s m rest H) as [_ [_ Hm]].
  unfold is_tag. rewrite Hm. apply String.eqb_refl.
Qed.

Lemma join_empty_cons (part : string) (parts : list string) :
  join "" (part :: parts) = part ++ join "" parts.
Proof. destruct parts; [symmetry; apply append_empty_r | reflexivity]. Qed.

Lemma in_turn_cons (c : ascii) (part : string) (parts : list string) :
  LegalAdvisor.match_tag (String c part) = None ->
  in_turn (part :: parts) = true ->
  in_turn (String c part :: parts) = true.
Proof.
  intros Hc H. destruct parts as [|m rest].
  - cbn [in_turn] in *. cbn [tag_free]. rewrite Hc. exact H.
  - cbn [in_turn] in *. apply andb_true_iff in H. destruct H as [H Hr].
    apply andb_true_iff in H. destruct H as [Ht Hm].
    cbn [tag_free]. rewrite Hc, Ht, Hm, Hr. reflexivity.
Qed.

Lemma split_tags_spec (fuel : nat) :
  forall s,
    String.length s < fuel ->
    join "" (LegalAdvisor.split_tags fuel s) = s
    /\ in_turn (LegalAdvisor.split_tags fuel s) = true.
Proof.
  induction fuel as [|fuel IH]; intros s Hlen; [lia|].
  cbn [LegalAdvisor.split_tags].
  destruct (LegalAdvisor.match_tag s) as [[m rest]|] eqn:E.
  - destruct (match_tag_spec s m rest E) as [Hs [Hm _]].
    assert (Hr : String.length rest < fuel).
    { rewrite Hs, length_append in Hlen. lia. }
    destruct (IH rest Hr) as [Hj Ht]. split.
    + rewrite !join_empty_cons, Hj. symmetry. exact Hs.
    + cbn [in_turn]. rewrite (is_tag_match s m rest E), Ht. reflexivity.
  - destruct s as [|c s]; [split; reflexivity|].
    assert (Hr : String.length s < fuel) by (simpl in Hlen; lia).
    destruct (IH s Hr) as [Hj Ht].
    destruct (LegalAdvisor.split_tags fuel s) as [|part parts];
      [discriminate Ht|].
    rewrite join_empty_cons in Hj. split.
    + rewrite join_empty_cons. simpl. rewrite Hj. reflexivity.
    + apply in_turn_cons; [|exact Ht].
      apply (match_tag_none_prefix _ (join "" parts)).
      simpl. rewrite Hj. exact E.
Qed.

(** X27. The answer is cut without loss at its tags: the parts of
    [split], put together, are the text; they are, in turn, a text in
    which no tag starts, a tag (an opening [[SIGNATURE_FIELD:] or
    [[CITATION:], characters of one line, the first closing bracket), a
    text, and so on to a last text, so every tag that starts outside an
    earlier one is a part of its own. *)
Theorem split_cuts_at_the_tags (text : string) :
  join "" (LegalAdvisor.split text) = text
  /\ in_turn (LegalAdvisor.split text) = true.
Proof. apply split_tags_spec. lia. Qed.

(** ** Signature boxes *)

Lemma label_text_cons (c : ascii) (l : string) :
  label_text (String c l) = true ->
  Ascii.eqb c "]" = false /\ Ascii.eqb c ":" = false
  /\ LegalAdvisor.is_line_terminator c = false /\ label_text l = true.
Proof.
  cbn [label_text]. unfold label_unit. intros H.
  apply andb_true_iff in H. destruct H as [H Hl].
  apply andb_true_iff in H. destruct H as [H Ht].
  apply andb_true_iff in H. destruct H as [Hb Hc].
  repeat split; try assumption; apply negb_true_iff; assumption.
Qed.

Lemma lazy_to_bracket_label (l rest : string) :
  label_text l = true ->
  LegalAdvisor.lazy_to_bracket (l ++ "]" ++ rest) = Some (l ++ "]", rest).
Proof.
  intros H. induction l as [|c l IH]; [reflexivity|].
  destruct (label_text_cons c l H) as [Hb [_ [Ht Hl]]].
  simpl. rewrite Hb, Ht. simpl in IH. rewrite (IH Hl). reflexivity.
Qed.

Lemma match_tag_signature (l rest : string) :
  label_text l = true ->
  LegalAdvisor.match_tag (("[SIGNATURE_FIELD:" ++ l ++ "]") ++ rest)
  = Some ("[SIGNATURE_FIELD:" ++ l ++ "]", rest).
Proof.
  intros H. rewrite !append_assoc.
  apply (match_tag_opener "[SIGNATURE_FIELD:" (l ++ "]" ++ rest) (l ++ "]"));
    [left; reflexivity | apply lazy_to_bracket_label, H].
Qed.

(** A match that starts before a line feed ends before it. *)
Lemma strip_prefix_before_nl (lit : string) :
  forall a x r,
    forallb (fun k => negb (LegalAdvisor.is_line_terminator k))
            (list_ascii_of_string lit) = true ->
    JSON.strip_prefix lit (a ++ nl ++ x) = Some r ->
    exists a', a = lit ++ a' /\ r = a' ++ nl ++ x.
Proof.
  induction lit as [|k lit IH]; intros a x r Hk H.
  - simpl in H. injection H as <-. exists a. split; reflexivity.
  - cbn [list_ascii_of_string forallb] in Hk.
    apply andb_true_iff in Hk. destruct Hk as [Hk Hlit].
    destruct a as [|c a].
    + exfalso. cbn in H. destruct (Ascii.eqb k "010") eqn:E;
        [|discriminate H].
      apply Ascii.eqb_eq in E. subst k. discriminate Hk.
    + simpl in H. destruct (Ascii.eqb_spec k c) as [<-|]; [|discriminate].
      destruct (IH a x r Hlit H) as [a' [-> ->]].
      exists a'. split; reflexivity.
Qed.

Lemma lazy_to_bracket_before_nl (a x m rest : string) :
  LegalAdvisor.lazy_to_bracket (a ++ nl ++ x) = Some (m, rest) ->
  exists a', a = m ++ a' /\ rest = a' ++ nl ++ x.
Proof.
  revert m. induction a as [|c a IH]; intros m H.
  - simpl in H. discriminate H.
  - cbn [LegalAdvisor.lazy_to_bracket append] in H.
    destruct (Ascii.eqb_spec c "]"%char) as [->|Hc].
    + injection H as <- <-. exists a. split; reflexivity.
    + destruct (LegalAdvisor.is_line_terminator c); [discriminate|].
      destruct (LegalAdvisor.lazy_to_bracket (a ++ nl ++ x))
        as [[m' rest']|] eqn:E; [|discriminate].
      injection H as <- <-. destruct (IH m' eq_refl) as [a' [-> ->]].
      exists a'. split; reflexivity.
Qed.

Lemma split_tags_finds (tag b : string) :
  (forall rest, LegalAdvisor.match_tag (tag ++ rest) = Some (tag, rest)) ->
  forall fuel a,
    String.length (a ++ nl ++ tag ++ b) < fuel ->
    exists part parts,
      LegalAdvisor.split_tags fuel (a ++ nl ++ tag ++ b) = part :: parts
      /\ In tag parts.
Proof.
  intros Htag. induction fuel as [|fuel IH]; intros a Hlen; [lia|].
  cbn [LegalAdvisor.split_tags].
  destruct (LegalAdvisor.match_tag (a ++ nl ++ tag ++ b))
    as [[m rest]|] eqn:E.
  - destruct (match_tag_cases _ m rest E)
      as [opener [r [m0 [Ho [Hs [Hl ->]]]]]].
    destruct (strip_prefix_before_nl opener a (tag ++ b) r) as [a1 [-> ->]];
      [destruct Ho as [->| ->]; reflexivity | exact Hs |].
    destruct (lazy_to_bracket_before_nl a1 (tag ++ b) m0 rest Hl)
      as [a2 [-> ->]].
    destruct (lazy_to_bracket_spec _ _ _ Hl) as [_ [Hm0 _]].
    destruct (IH a2) as [part [parts [Hp Hin]]].
    { rewrite !length_append in Hlen. rewrite !length_append. lia. }
    exists "", ((opener ++ m0) :: part :: parts). rewrite Hp.
    split; [reflexivity|]. right. right. exact Hin.
  - destruct a as [|c a].
    + change ("" ++ nl ++ tag ++ b) with (String "010" (tag ++ b)).
      destruct fuel as [|fuel].
      { simpl in Hlen. lia. }
      cbn [LegalAdvisor.split_tags]. rewrite Htag.
      eexists _, _. split; [reflexivity|]. left. reflexivity.
    + change (String c a ++ nl ++ tag ++ b)
        with (String c (a ++ nl ++ tag ++ b)).
      destruct (IH a) as [part [parts [Hp Hin]]].
      { cbn [append String.length] in Hlen. lia. }
      rewrite Hp. exists (String c part), parts.
      split; [reflexivity | exact Hin].
Qed.

Lemma split_char_none (sep : ascii) (s : string) :
  forallb (fun c => negb (Ascii.eqb c sep)) (list_ascii_of_string s) = true ->
  LegalAdvisor.split_char sep s = [s].
Proof.
  induction s as [|c s IH]; intros H; [reflexivity|].
  cbn [list_ascii_of_string forallb] in H.
  apply andb_true_iff in H. destruct H as [Hc Hs].
  cbn [LegalAdvisor.split_char]. rewrite (IH Hs).
  apply negb_true_iff in Hc. rewrite Hc. reflexivity.
Qed.

Lemma replace_first_bracket (l : string) :
  label_text l = true ->
  LegalAdvisor.replace_first "]" "" (l ++ "]") = l.
Proof.
  intros H. induction l as [|c l IH]; [reflexivity|].
  destruct (label_text_cons c l H) as [Hb [_ [_ Hl]]].
  cbn [append LegalAdvisor.replace_first JSON.strip_prefix].
  rewrite Ascii.eqb_sym, Hb. cbn [append] in IH. rewrite (IH Hl).
  reflexivity.
Qed.

Lemma label_no_colon (l : string) :
  label_text l = true ->
  forallb (fun c => negb (Ascii.eqb c ":"))
          (list_ascii_of_string (l ++ "]")) = true.
Proof.
  intros H. induction l as [|c l IH]; [reflexivity|].
  destruct (label_text_cons c l H) as [_ [Hc [_ Hl]]].
  cbn [append list_ascii_of_string forallb]. rewrite Hc, (IH Hl).
  reflexivity.
Qed.

Lemma render_signature_tag (l : string) :
  label_text l = true ->
  LegalAdvisor.render_part ("[SIGNATURE_FIELD:" ++ l ++ "]")
  = LegalAdvisor.SignatureBox l.
Proof.
  intros H. unfold LegalAdvisor.render_part.
  change (String.prefix "[SIGNATURE_FIELD" ("[SIGNATURE_FIELD:" ++ l ++ "]"))
    with true. cbv iota.
  rewrite (proj2 (includes_decompose ("[SIGNATURE_FIELD:" ++ l ++ "]") ":")
             (ex_intro _ "[SIGNATURE_FIELD"
                (ex_intro _ (l ++ "]") eq_refl))).
  f_equal.
  assert (Hs : LegalAdvisor.split_char ":" ("[SIGNATURE_FIELD:" ++ l ++ "]")
               = ["[SIGNATURE_FIELD"; l ++ "]"]).
  { cbn [append LegalAdvisor.split_char].
    rewrite (split_char_none ":" (l ++ "]") (label_no_colon l H)).
    reflexivity. }
  rewrite Hs. cbn [nth]. apply replace_first_bracket, H.
Qed.

(** X28. A signature tag on a line of its own becomes a signature box:
    whatever text stands before the line feed that precedes the tag and
    whatever follows the tag, a tag [[SIGNATURE_FIELD:label]] whose label
    holds no closing bracket, colon or line terminator is a part of its
    own and is drawn as the box with that label. *)
Theorem signature_tag_becomes_a_box (a l b : string) :
  label_text l = true ->
  In ("[SIGNATURE_FIELD:" ++ l ++ "]")
     (LegalAdvisor.split (a ++ nl ++ ("[SIGNATURE_FIELD:" ++ l ++ "]") ++ b))
  /\ In (LegalAdvisor.SignatureBox l)
        (LegalAdvisor.renderMessageText
           (a ++ nl ++ ("[SIGNATURE_FIELD:" ++ l ++ "]") ++ b)).
Proof.
  intros H.
  destruct (split_tags_finds ("[SIGNATURE_FIELD:" ++ l ++ "]") b
              (fun rest => match_tag_signature l rest H)
              (S (String.length
                    (a ++ nl ++ ("[SIGNATURE_FIELD:" ++ l ++ "]") ++ b))) a)
    as [part [parts [Hp Hin]]]; [lia|].
  unfold LegalAdvisor.renderMessageText, LegalAdvisor.split.
  rewrite Hp. split; [right; exact Hin|].
  rewrite <- (render_signature_tag l H). apply in_map. right. exact Hin.
Qed.

Lemma signature_tag_becomes_a_box_witness :
  label_text "Borrower Signature" = true
  /\ In (LegalAdvisor.SignatureBox "Borrower Signature")
        (LegalAdvisor.renderMessageText
           ("Sign below [here]:" ++ nl
            ++ ("[SIGNATURE_FIELD:" ++ "Borrower Signature" ++ "]")
            ++ " **Borrower**")).
Proof.
  split; [reflexivity|].
  exact (proj2 (signature_tag_becomes_a_box "Sign below [here]:"
                  "Borrower Signature" " **Borrower**" eq_refl)).
Defined.

(** ** The signature boxes of the forms *)

Lemma join_nl_element (arr : list string) :
  forall x, In x (tl arr) -> exists a b, join nl arr = a ++ nl ++ x ++ b.
Proof.
  induction arr as [|h t IH]; intros x Hin; [destruct Hin|].
  cbn [tl] in Hin. destruct t as [|h2 t2]; [destruct Hin|].
  change (join nl (h :: h2 :: t2)) with (h ++ nl ++ join nl (h2 :: t2)).
  destruct Hin as [->|Hin].
  - exists h. destruct t2 as [|h3 t3].
    + exists "". rewrite append_empty_r. reflexivity.
    + exists (nl ++ join nl (h3 :: t3)). reflexivity.
  - destruct (IH x Hin) as [a [b Hj]]. rewrite Hj.
    exists (h ++ nl ++ a), b. rewrite !append_assoc. reflexivity.
Qed.

(** A tag that is a line of a template, after the first, is drawn as its
    box. *)
Lemma line_becomes_a_box (arr : list string) (l : string) :
  label_text l = true ->
  In ("[SIGNATURE_FIELD:" ++ l ++ "]") (tl arr) ->
  In (LegalAdvisor.SignatureBox l)
     (LegalAdvisor.renderMessageText (join nl arr)).
Proof.
  intros Hl Hin. destruct (join_nl_element arr _ Hin) as [a [b ->]].
  destruct (split_tags_finds ("[SIGNATURE_FIELD:" ++ l ++ "]") b
              (fun rest => match_tag_signature l rest Hl)
              (S (String.length
                    (a ++ nl ++ ("[SIGNATURE_FIELD:" ++ l ++ "]") ++ b))) a)
    as [part [parts [Hp Hin']]]; [lia|].
  unfold LegalAdvisor.renderMessageText, LegalAdvisor.split.
  rewrite Hp. rewrite <- (render_signature_tag l Hl).
  apply in_map. right. exact Hin'.
Qed.

Section BoxProofs.
Context {fmt : NumberFormat}.

Lemma promissory_note_markdown (now : string) (data : FormData) :
  exists r,
    generateVerifiedForm now "promissory_note_ucc" data = Normal r
    /\ markdown r = promissory_note_template data.
Proof.
  rewrite generateVerifiedForm_promissory_note.
  set (terms := {| promise_type := unconditional; amount_type := fixed;
                   currency := Some "USD"; payable_to := order;
                   timing := if is_truthy (date data)
                             then definite else demand;
                   other_undertakings := false |}).
  destruct (verifyNegotiability_verdict now terms) as [v [Hv [_ [Hp _]]]].
  assert (Hpass : passed v = true).
  { rewrite Hp. unfold terms. destruct (is_truthy (date data)); reflexivity. }
  rewrite Hv. simpl. rewrite Hpass.
  eexists. split; reflexivity.
Qed.

(** X29. Every form that is issued asks for its signatures: shown as a
    message, the promissory note is drawn with the boxes of the borrower
    and the lender, the bill of sale with those of the seller and the
    buyer, the contractor agreement with those of the contractor and
    the client, and the security agreement that passes with the box of
    the debtor, whatever the data hold; the blocked security agreement is
    drawn as its one text, without a box. *)
Theorem forms_are_drawn_with_their_signature_boxes (now : string)
  (data : FormData) :
  (exists r,
      generateVerifiedForm now "promissory_note_ucc" data = Normal r
      /\ In (LegalAdvisor.SignatureBox "Borrower Signature")
            (LegalAdvisor.renderMessageText (markdown r))
      /\ In (LegalAdvisor.SignatureBox "Lender Signature")
            (LegalAdvisor.renderMessageText (markdown r)))
  /\ (exists r,
         generateVerifiedForm now "security_agreement_ucc" data = Normal r
         /\ if passed (validation r)
            then In (LegalAdvisor.SignatureBox "Debtor Authentication")
                    (LegalAdvisor.renderMessageText (markdown r))
            else LegalAdvisor.renderMessageText (markdown r)
                 = [LegalAdvisor.Span (markdown r)])
  /\ (exists r,
         generateVerifiedForm now "bill_of_sale_ucc" data = Normal r
         /\ In (LegalAdvisor.SignatureBox "Seller")
               (LegalAdvisor.renderMessageText (markdown r))
         /\ In (LegalAdvisor.SignatureBox "Buyer")
               (LegalAdvisor.renderMessageText (markdown r)))
  /\ (exists r,
         generateVerifiedForm now "contractor_agreement" data = Normal r
         /\ In (LegalAdvisor.SignatureBox "Contractor")
               (LegalAdvisor.renderMessageText (markdown r))
         /\ In (LegalAdvisor.SignatureBox "Client")
               (LegalAdvisor.renderMessageText (markdown r))).
Proof.
  split; [|split; [|split]].
  - destruct (promissory_note_markdown now data) as [r [Hr Hm]].
    exists r. split; [exact Hr|]. rewrite Hm.
    unfold promissory_note_template.
    split; (apply line_becomes_a_box; [reflexivity|]);
      destruct (date data) as [[|c d]|]; cbn [tl In]; auto 40.
  - destruct (generateVerifiedForm_security_agreement now data)
      as [r [Hr [Hp [_ Hm]]]].
    exists r. split; [exact Hr|]. rewrite Hp, Hm.
    destruct (hasCollateral data).
    + unfold security_agreement_template.
      apply line_becomes_a_box; [reflexivity|]. cbn [tl In]. auto 40.
    + vm_compute. reflexivity.
  - rewrite generateVerifiedForm_bill_of_sale. eexists.
    split; [reflexivity|]. cbn [markdown].
    unfold bill_of_sale_template.
    split; (apply line_becomes_a_box; [reflexivity|]); cbn [tl In]; auto 40.
  - rewrite generateVerifiedForm_contractor_agreement. eexists.
    split; [reflexivity|]. cbn [markdown].
    unfold contractor_agreement_template.
    split; (apply line_becomes_a_box; [reflexivity|]); cbn [tl In]; auto 40.
Qed.

End BoxProofs.

(** ** Staged files *)

Lemma filter_index_keep_all {A : Type} (i : nat) (l : list A) :
  forall k,
    i < k ->
    LegalAdvisor.filter_index (fun j => negb (j =? i)%nat) k l = l.
Proof.
  induction l as [|y l IH]; intros k Hk; [reflexivity|].
  cbn [LegalAdvisor.filter_index].
  destruct (Nat.eqb_spec k i) as [->|_]; [lia|].
  cbn [negb]. rewrite IH by lia. reflexivity.
Qed.

Lemma filter_index_from {A : Type} (index : nat) :
  forall (l : list A) (i : nat),
    LegalAdvisor.filter_index (fun j => negb (j =? i + index)%nat) i l
    = (firstn index l ++ skipn (S index) l)%list.
Proof.
  induction index as [|index IH]; intros l i.
  - replace (i + 0) with i by lia.
    destruct l as [|x l]; [reflexivity|].
    cbn [LegalAdvisor.filter_index firstn skipn app].
    rewrite Nat.eqb_refl. cbn [negb].
    apply filter_index_keep_all. lia.
  - destruct l as [|x l]; [reflexivity|].
    cbn [LegalAdvisor.filter_index firstn skipn app].
    destruct (Nat.eqb_spec i (i + S index)) as [E|_]; [lia|].
    cbn [negb]. f_equal.
    replace (i + S index) with (S i + index) by lia. apply IH.
Qed.

(** X30. Staging files: [processFiles] stages the first twenty, at most,
    of the files it is given, after the files staged before, while its
    ledger entry states, in decimal digits, the number of files it was
    given;
    [removeFile] drops the file at the index and no other, and nothing
    when no file is at the index. *)
Theorem staging_files (readAsDataURL : LegalAdvisor.File -> string)
  (files : list LegalAdvisor.File) (prev : list LegalAdvisor.StagedFile)
  (index : nat) :
  List.length (fst (LegalAdvisor.processFiles readAsDataURL files prev))
  = List.length prev + Nat.min 20 (List.length files)
  /\ firstn (List.length prev)
       (fst (LegalAdvisor.processFiles readAsDataURL files prev)) = prev
  /\ skipn (List.length prev)
       (fst (LegalAdvisor.processFiles readAsDataURL files prev))
     = map (LegalAdvisor.stage readAsDataURL) (firstn 20 files)
  /\ (exists d,
         snd (LegalAdvisor.processFiles readAsDataURL files prev)
         = ("Evidence Ingestion", "Ingested " ++ d ++ " artifacts",
            AuditContext.Advisor)
         /\ read_digits 10 0 d = Some (N.of_nat (List.length files)))
  /\ LegalAdvisor.removeFile index prev
     = (firstn index prev ++ skipn (S index) prev)%list
  /\ List.length (LegalAdvisor.removeFile index prev)
     = List.length prev - (if (index <? List.length prev)%nat then 1 else 0).
Proof.
  assert (Hrm : LegalAdvisor.removeFile index prev
                = (firstn index prev ++ skipn (S index) prev)%list).
  { unfold LegalAdvisor.removeFile.
    apply (filter_index_from index prev 0). }
  unfold LegalAdvisor.processFiles. cbn [fst snd].
  split; [|split; [|split; [|split; [|split]]]].
  - rewrite length_app, length_map, length_firstn. reflexivity.
  - rewrite firstn_app, Nat.sub_diag, firstn_all. cbn [firstn].
    apply app_nil_r.
  - rewrite skipn_app, Nat.sub_diag, skipn_all. reflexivity.
  - destruct (toString_reads_back 10 (N.of_nat (List.length files)))
      as [d [Hd [Hr _]]]; [lia|].
    exists d. rewrite Hd. split; [reflexivity | exact Hr].
  - exact Hrm.
  - rewrite Hrm, length_app, length_firstn, length_skipn.
    destruct (Nat.ltb_spec index (List.length prev)); lia.
Qed.
